(** * Video monitoring system: capture, recording pipeline and storage retention

    A shallow embedding of the parts of the video monitoring appliance that
    carry its behaviour:

    - [V4l2]: the capture wrapper of [v4l2_wrapper.c] (the RGB565 to RGB888
      pixel converter and the buffer pool set-up);
    - [Recorder]: the encoding worker of [recordingthread.cpp] (frame queue,
      start/stop of a segment, presentation timestamps);
    - [Monitor]: the segment finalisation of [MonitorPage::stopRecording];
    - [Storage]: the retention manager of [storagemanager.cpp].

    C and C++ integers are modelled as [Z] with the conversions of the source
    written out, [double] values as IEEE-754 binary64 numbers of [SpecFloat],
    [QString] values as [string], pointers as optional locations of a heap,
    and the world outside the program (driver, file system, storage volume,
    codec) as explicit inputs of the operations. *)

From stdpp Require Import gmap strings list sorting.
From Stdlib Require Import ZArith Lia SpecFloat Ascii.
From stdpp Require Import pretty.

Local Open Scope Z_scope.

(** ** Machine integers *)

(** Conversion to [unsigned char]. *)
Definition to_uchar (z : Z) : Z := z mod 256.

(** ** The capture wrapper, [v4l2_wrapper.c] *)

Module V4l2.

(** [#define FRAMEBUFFER_COUNT 3] *)
Definition FRAMEBUFFER_COUNT : nat := 3.

(** The three channel extractions of [rgb565_to_rgb888]; each is stored in an
    [unsigned char] local. *)
Definition chan_r (rgb565_pixel : Z) : Z :=
  to_uchar (Z.land (Z.shiftr rgb565_pixel 11) 0x1F).
Definition chan_g (rgb565_pixel : Z) : Z :=
  to_uchar (Z.land (Z.shiftr rgb565_pixel 5) 0x3F).
Definition chan_b (rgb565_pixel : Z) : Z :=
  to_uchar (Z.land rgb565_pixel 0x1F).

(** [dst[k] = v]: a store into an [unsigned char] array.  A store outside the
    buffer is undefined behaviour in C and is [None] here. *)
Definition store (dst : list Z) (k : nat) (v : Z) : option (list Z) :=
  if decide (k < length dst)%nat then Some (<[k := to_uchar v]> dst) else None.

(** The [for (i = 0; i < pixels; i++)] loop, with [n] iterations left.  The
    counter [i] and the indices [i * 3 + k] are natural numbers here; in C
    they are [int], which is the same as long as [3 * pixels] fits an
    [int]. *)
Fixpoint rgb565_loop (src : list Z) (i n : nat) (dst : list Z) : option (list Z) :=
  match n with
  | O => Some dst
  | S n' =>
      rgb565_pixel ← src !! i;
      let r := chan_r rgb565_pixel in
      let g := chan_g rgb565_pixel in
      let b := chan_b rgb565_pixel in
      dst ← store dst (i * 3 + 0) (Z.lor (Z.shiftl r 3) (Z.shiftr r 2));
      dst ← store dst (i * 3 + 1) (Z.lor (Z.shiftl g 2) (Z.shiftr g 4));
      dst ← store dst (i * 3 + 2) (Z.lor (Z.shiftl b 3) (Z.shiftr b 2));
      rgb565_loop src (S i) n' dst
  end.

(** [static void rgb565_to_rgb888(unsigned short *src, unsigned char *dst, int pixels)] *)
Definition rgb565_to_rgb888 (src dst : list Z) (pixels : Z) : option (list Z) :=
  rgb565_loop src 0 (Z.to_nat pixels) dst.

(** The formula of the specification, without any truncation. *)
Definition spec_R (p : Z) : Z :=
  let r := Z.land (Z.shiftr p 11) 0x1F in Z.lor (Z.shiftl r 3) (Z.shiftr r 2).
Definition spec_G (p : Z) : Z :=
  let g := Z.land (Z.shiftr p 5) 0x3F in Z.lor (Z.shiftl g 2) (Z.shiftr g 4).
Definition spec_B (p : Z) : Z :=
  let b := Z.land p 0x1F in Z.lor (Z.shiftl b 3) (Z.shiftr b 2).

Definition spec_pixel (p : Z) : list Z := [spec_R p; spec_G p; spec_B p].

(** *** The buffer pool *)

(** The value of [buf_infos[i].start]: [NULL] (static initialisation),
    [MAP_FAILED], or the address returned by [mmap]. *)
Inductive pointer := NULL | MAP_FAILED | Addr (a : Z).

(** [struct cam_buf_info]; [buf_length] is the member [length]. *)
Record cam_buf_info := { start : pointer; buf_length : Z }.

(** What the wrapper prints on [stderr] and [stdout] in [v4l2_init_buffer]. *)
Inductive message :=
  | ErrREQBUFS
  | WarnFewerBuffers (granted : Z)
  | ErrQUERYBUF (i : nat)
  | ErrMmap
  | InfoMapped (i : nat).

(** The static variables of the wrapper, together with the memory regions
    [(address, length)] that are currently mapped into the process and the
    messages printed so far. *)
Record capture := {
  v4l2_fd : Z;
  buf_infos : list cam_buf_info;
  frm_width : Z;
  frm_height : Z;
  is_capturing : bool;
  mapped : list (Z * Z);
  printed : list message
}.

(** The state at program start: [v4l2_fd = -1], zeroed arrays. *)
Definition initial : capture :=
  {| v4l2_fd := -1;
     buf_infos := replicate FRAMEBUFFER_COUNT {| start := NULL; buf_length := 0 |};
     frm_width := 0; frm_height := 0; is_capturing := false;
     mapped := []; printed := [] |}.

(** The answers of the driver and of the kernel to the calls made by
    [v4l2_init_buffer].  [None] is a negative return value of [ioctl], or
    [MAP_FAILED] for [mmap]. *)
Record driver := {
  ioctl_REQBUFS : Z -> option Z;            (* requested count -> granted count *)
  ioctl_QUERYBUF : nat -> option (Z * Z);   (* index -> (length, m.offset) *)
  mmap : nat -> Z -> Z -> option Z          (* call number, length, offset -> address *)
}.

Definition print (m : message) (st : capture) : capture :=
  {| v4l2_fd := v4l2_fd st; buf_infos := buf_infos st;
     frm_width := frm_width st; frm_height := frm_height st;
     is_capturing := is_capturing st; mapped := mapped st;
     printed := printed st ++ [m] |}.

Definition set_buf_infos (bs : list cam_buf_info) (st : capture) : capture :=
  {| v4l2_fd := v4l2_fd st; buf_infos := bs;
     frm_width := frm_width st; frm_height := frm_height st;
     is_capturing := is_capturing st; mapped := mapped st;
     printed := printed st |}.

Definition set_mapped (ms : list (Z * Z)) (st : capture) : capture :=
  {| v4l2_fd := v4l2_fd st; buf_infos := buf_infos st;
     frm_width := frm_width st; frm_height := frm_height st;
     is_capturing := is_capturing st; mapped := ms;
     printed := printed st |}.

(** [buf_infos[i].length = len] *)
Definition set_length (i : nat) (len : Z) (st : capture) : capture :=
  set_buf_infos
    (alter (fun b => {| start := start b; buf_length := len |}) i (buf_infos st)) st.

(** [buf_infos[i].start = p] *)
Definition set_start (i : nat) (p : pointer) (st : capture) : capture :=
  set_buf_infos
    (alter (fun b => {| start := p; buf_length := buf_length b |}) i (buf_infos st)) st.

(** The mapping loop [for (i = 0; i < FRAMEBUFFER_COUNT; i++)] of
    [v4l2_init_buffer], with [n] iterations left.  Both failure exits are a
    plain [return -1]. *)
Fixpoint map_buffers (d : driver) (i n : nat) (st : capture) : Z * capture :=
  match n with
  | O => (0, st)
  | S n' =>
      match ioctl_QUERYBUF d i with
      | None => (-1, print (ErrQUERYBUF i) st)
      | Some (len, offset) =>
          let st := set_length i len st in
          match mmap d i len offset with
          | None => (-1, print ErrMmap (set_start i MAP_FAILED st))
          | Some a =>
              let st := set_start i (Addr a) st in
              let st := set_mapped (mapped st ++ [(a, len)]) st in
              map_buffers d (S i) n' (print (InfoMapped i) st)
          end
      end
  end.

(** [static int v4l2_init_buffer(void)] *)
Definition v4l2_init_buffer (d : driver) (st : capture) : Z * capture :=
  match ioctl_REQBUFS d (Z.of_nat FRAMEBUFFER_COUNT) with
  | None => (-1, print ErrREQBUFS st)
  | Some count =>
      let st :=
        if decide (count < Z.of_nat FRAMEBUFFER_COUNT)
        then print (WarnFewerBuffers count) st   (* a warning only *)
        else st in
      map_buffers d 0 FRAMEBUFFER_COUNT st
  end.

(** Step 5 of [v4l2_init]: when [v4l2_init_buffer] fails the descriptor is
    closed and forgotten, and nothing else is released. *)
Definition v4l2_init_step5 (d : driver) (st : capture) : Z * capture :=
  let '(ret, st) := v4l2_init_buffer d st in
  if decide (ret < 0)
  then (-1, {| v4l2_fd := -1; buf_infos := buf_infos st;
               frm_width := frm_width st; frm_height := frm_height st;
               is_capturing := is_capturing st; mapped := mapped st;
               printed := printed st |})
  else (0, st).

(** One iteration of the unmapping loop of [v4l2_cleanup], the only place of
    the wrapper that calls [munmap]. *)
Definition unmap_one (st : capture) (i : nat) : capture :=
  match buf_infos st !! i with
  | Some {| start := Addr a; buf_length := len |} =>
      let st := set_mapped (filter (fun r => r ≠ (a, len)) (mapped st)) st in
      set_length i 0 (set_start i NULL st)
  | _ => st
  end.

(** [void v4l2_cleanup()]: stop the stream, unmap every buffer and close the
    descriptor, all of it only when the descriptor is open. *)
Definition v4l2_cleanup (st : capture) : capture :=
  let st := if decide (0 <= v4l2_fd st) then foldl unmap_one st (seq 0 FRAMEBUFFER_COUNT) else st in
  {| v4l2_fd := -1; buf_infos := buf_infos st;
     frm_width := 0; frm_height := 0; is_capturing := false;
     mapped := mapped st; printed := printed st |}.

(** An 8-bit channel [out] that expands the [w]-bit field of [p] starting at
    bit [pos]: its top [w] bits are the field, its low [8 - w] bits repeat
    the top bits of the field, and nothing lies above bit 7. *)
Definition replicates_high_bits (out p pos w : Z) : Prop :=
  (forall k, 0 <= k < w -> Z.testbit out (k + (8 - w)) = Z.testbit p (k + pos)) /\
  (forall k, 0 <= k < 8 - w -> Z.testbit out k = Z.testbit p (k + pos + w - (8 - w))) /\
  (forall k, 8 <= k -> Z.testbit out k = false).

(** A driver that grants the three buffers and whose second [mmap] fails. *)
Definition second_mmap_fails : driver :=
  {| ioctl_REQBUFS := fun count => Some count;
     ioctl_QUERYBUF := fun i => Some (614400, 614400 * Z.of_nat i);
     mmap := fun i len offset =>
       if decide (i = 1%nat) then None else Some (0x76000000 + offset) |}.

(** A driver that grants two of the three buffers and, as the V4L2 interface
    prescribes, refuses [VIDIOC_QUERYBUF] for an index it did not grant. *)
Definition grants_two_buffers : driver :=
  {| ioctl_REQBUFS := fun _ => Some 2;
     ioctl_QUERYBUF := fun i =>
       if decide (i < 2)%nat then Some (614400, 614400 * Z.of_nat i) else None;
     mmap := fun i len offset => Some (0x76000000 + offset) |}.

(** A driver that answers [VIDIOC_QUERYBUF] only for the buffers it granted. *)
Definition answers_only_granted (d : driver) : Prop :=
  forall count i,
    ioctl_REQBUFS d (Z.of_nat FRAMEBUFFER_COUNT) = Some count ->
    count <= Z.of_nat i -> ioctl_QUERYBUF d i = None.

(** The wrapper with the device opened on descriptor 3 at 640x480. *)
Definition opened : capture :=
  {| v4l2_fd := 3; buf_infos := buf_infos initial;
     frm_width := 640; frm_height := 480; is_capturing := false;
     mapped := []; printed := [] |}.

End V4l2.

(** ** IEEE-754 double precision *)

(** [double] is binary64: 53 bits of precision, exponents below 1024. *)
Definition double := spec_float.

(** [static_cast<double>(z)] and the implicit conversion of an integer
    operand, rounding to nearest even. *)
Definition double_of_Z (z : Z) : double := binary_normalize 53 1024 z 0 false.
Definition double_div (x y : double) : double := SFdiv 53 1024 x y.
Definition double_mul (x y : double) : double := SFmul 53 1024 x y.
Definition double_add (x y : double) : double := SFadd 53 1024 x y.
Definition double_ltb (x y : double) : bool := SFltb x y.

(** [int] arithmetic wraps on the targets of this program. *)
Definition wrap_int (z : Z) : Z := (z + 2 ^ 31) mod 2 ^ 32 - 2 ^ 31.

(** ** The recording thread, [recordingthread.cpp] *)

Module Recorder.

(** A pointer member to an FFmpeg object: null, pointing to a live object, or
    still pointing to an object that was released without clearing the
    member. *)
Inductive handle := Null | Live | Freed.

(** Where [initRecorder] gives up, or [InitOk]. *)
Inductive init_outcome :=
  | FailOutputContext | FailFindEncoder | FailCodecContext | FailOpenCodec
  | FailNewStream | FailCopyParams | FailAvioOpen | FailWriteHeader
  | FailFrameAlloc | FailFrameBuffer | FailPacketAlloc | FailSwsContext
  | InitOk.

(** What the codec and the container answer to one [encodeFrame]. *)
Inductive encode_outcome := EncodeOk | SendFailed | ReceiveFailed | WriteFailed.

(** The texts carried by [recordError]. *)
Inductive error :=
  | NoOutputContext | NoEncoder | NoCodecContext | CannotOpenCodec
  | NoStream | CannotCopyParams | CannotOpenFile | CannotWriteHeader
  | NoFrame | NoFrameBuffer | NoPacket | NoSwsContext
  | SendFrameFailed | ReceivePacketFailed | WritePacketFailed.

Inductive signal :=
  | recordError (errorMsg : error)
  | recordingTimeReached30Minutes (filePath : string).

(** [struct FrameData]: [data] is the address of the buffer obtained from
    [new unsigned char[s]]. *)
Record FrameData := { data : positive; size : Z }.

(** The members of [RecordingThread], followed by what lives outside the
    object: whether the thread runs, the buffers allocated with [new[]], the
    frames passed to [avcodec_send_frame] on the current codec context with
    the [pts] they carried, and the signals emitted so far. *)
Record recorder := {
  m_isRecording : bool;
  m_shouldExit : bool;
  m_filePath : string;
  m_frameCount : Z;
  m_width : Z;
  m_height : Z;
  m_frameQueue : list FrameData;
  m_formatContext : handle;
  m_codecContext : handle;
  m_swsContext : handle;
  m_frame : handle;
  m_packet : handle;
  m_startTime : Z;                     (* steady clock, microseconds *)
  m_lastFrameTime : Z;
  m_totalFrames : Z;
  m_totalTime : double;
  m_segmentTimer : option (option Z);  (* nullptr / stopped / active, interval in ms *)
  m_autoSegmentation : bool;
  m_maxRecordingMinutes : Z;
  isRunning : bool;
  heap : gmap positive (list Z);
  submitted : list (list Z * Z);
  emitted : list signal
}.

(** The constructor [RecordingThread::RecordingThread], at clock value [now]. *)
Definition create (now : Z) : recorder :=
  {| m_isRecording := false; m_shouldExit := false; m_filePath := "";
     m_frameCount := 0; m_width := 0; m_height := 0; m_frameQueue := [];
     m_formatContext := Null; m_codecContext := Null; m_swsContext := Null;
     m_frame := Null; m_packet := Null;
     m_startTime := now; m_lastFrameTime := now;
     m_totalFrames := 0; m_totalTime := S754_zero false;
     m_segmentTimer := None; m_autoSegmentation := true;
     m_maxRecordingMinutes := 30; isRunning := false;
     heap := ∅; submitted := []; emitted := [] |}.

(** The five FFmpeg members, in the order format, codec, sws, frame, packet. *)
Definition with_handles (f c s fr p : handle) (st : recorder) : recorder :=
  {| m_isRecording := m_isRecording st; m_shouldExit := m_shouldExit st;
     m_filePath := m_filePath st; m_frameCount := m_frameCount st;
     m_width := m_width st; m_height := m_height st;
     m_frameQueue := m_frameQueue st;
     m_formatContext := f; m_codecContext := c; m_swsContext := s;
     m_frame := fr; m_packet := p;
     m_startTime := m_startTime st; m_lastFrameTime := m_lastFrameTime st;
     m_totalFrames := m_totalFrames st; m_totalTime := m_totalTime st;
     m_segmentTimer := m_segmentTimer st;
     m_autoSegmentation := m_autoSegmentation st;
     m_maxRecordingMinutes := m_maxRecordingMinutes st;
     isRunning := isRunning st; heap := heap st;
     submitted := submitted st; emitted := emitted st |}.

Definition emit (s : signal) (st : recorder) : recorder :=
  {| m_isRecording := m_isRecording st; m_shouldExit := m_shouldExit st;
     m_filePath := m_filePath st; m_frameCount := m_frameCount st;
     m_width := m_width st; m_height := m_height st;
     m_frameQueue := m_frameQueue st;
     m_formatContext := m_formatContext st; m_codecContext := m_codecContext st;
     m_swsContext := m_swsContext st; m_frame := m_frame st;
     m_packet := m_packet st;
     m_startTime := m_startTime st; m_lastFrameTime := m_lastFrameTime st;
     m_totalFrames := m_totalFrames st; m_totalTime := m_totalTime st;
     m_segmentTimer := m_segmentTimer st;
     m_autoSegmentation := m_autoSegmentation st;
     m_maxRecordingMinutes := m_maxRecordingMinutes st;
     isRunning := isRunning st; heap := heap st;
     submitted := submitted st; emitted := emitted st ++ [s] |}.

(** The frame queue and the buffers it owns. *)
Definition with_queue (q : list FrameData) (h : gmap positive (list Z))
    (st : recorder) : recorder :=
  {| m_isRecording := m_isRecording st; m_shouldExit := m_shouldExit st;
     m_filePath := m_filePath st; m_frameCount := m_frameCount st;
     m_width := m_width st; m_height := m_height st;
     m_frameQueue := q;
     m_formatContext := m_formatContext st; m_codecContext := m_codecContext st;
     m_swsContext := m_swsContext st; m_frame := m_frame st;
     m_packet := m_packet st;
     m_startTime := m_startTime st; m_lastFrameTime := m_lastFrameTime st;
     m_totalFrames := m_totalFrames st; m_totalTime := m_totalTime st;
     m_segmentTimer := m_segmentTimer st;
     m_autoSegmentation := m_autoSegmentation st;
     m_maxRecordingMinutes := m_maxRecordingMinutes st;
     isRunning := isRunning st; heap := h;
     submitted := submitted st; emitted := emitted st |}.

(** [m_isRecording], the segment timer and the thread. *)
Definition with_control (rec : bool) (timer : option (option Z)) (run : bool)
    (st : recorder) : recorder :=
  {| m_isRecording := rec; m_shouldExit := m_shouldExit st;
     m_filePath := m_filePath st; m_frameCount := m_frameCount st;
     m_width := m_width st; m_height := m_height st;
     m_frameQueue := m_frameQueue st;
     m_formatContext := m_formatContext st; m_codecContext := m_codecContext st;
     m_swsContext := m_swsContext st; m_frame := m_frame st;
     m_packet := m_packet st;
     m_startTime := m_startTime st; m_lastFrameTime := m_lastFrameTime st;
     m_totalFrames := m_totalFrames st; m_totalTime := m_totalTime st;
     m_segmentTimer := timer;
     m_autoSegmentation := m_autoSegmentation st;
     m_maxRecordingMinutes := m_maxRecordingMinutes st;
     isRunning := run; heap := heap st;
     submitted := submitted st; emitted := emitted st |}.

(** The frame counter, the statistics and the frames handed to the codec. *)
Definition with_counters (count : Z) (last : Z) (frames : Z) (time : double)
    (sub : list (list Z * Z)) (st : recorder) : recorder :=
  {| m_isRecording := m_isRecording st; m_shouldExit := m_shouldExit st;
     m_filePath := m_filePath st; m_frameCount := count;
     m_width := m_width st; m_height := m_height st;
     m_frameQueue := m_frameQueue st;
     m_formatContext := m_formatContext st; m_codecContext := m_codecContext st;
     m_swsContext := m_swsContext st; m_frame := m_frame st;
     m_packet := m_packet st;
     m_startTime := m_startTime st; m_lastFrameTime := last;
     m_totalFrames := frames; m_totalTime := time;
     m_segmentTimer := m_segmentTimer st;
     m_autoSegmentation := m_autoSegmentation st;
     m_maxRecordingMinutes := m_maxRecordingMinutes st;
     isRunning := isRunning st; heap := heap st;
     submitted := sub; emitted := emitted st |}.

Definition is_null (h : handle) : bool :=
  match h with Null => true | _ => false end.
Definition is_live (h : handle) : bool :=
  match h with Live => true | _ => false end.

(** [bool RecordingThread::initRecorder()].  The members are assigned in
    the order of the source; each failure exit releases what the source
    releases there, and clears the members the source clears.  A handle
    says whether a member is null, live or released, not which object it
    points to: objects that a later start overwrites without releasing them
    are not tracked. *)
Definition initRecorder (o : init_outcome) (st : recorder) : bool * recorder :=
  let s := m_swsContext st in
  let fr := m_frame st in
  let p := m_packet st in
  let fresh_codec st :=
    with_counters (m_frameCount st) (m_lastFrameTime st) (m_totalFrames st)
      (m_totalTime st) [] st in
  match o with
  | FailOutputContext =>
      (false, emit (recordError NoOutputContext)
                (with_handles Null (m_codecContext st) s fr p st))
  | FailFindEncoder =>
      (false, emit (recordError NoEncoder)
                (with_handles Freed (m_codecContext st) s fr p st))
  | FailCodecContext =>
      (false, emit (recordError NoCodecContext) (with_handles Freed Null s fr p st))
  | FailOpenCodec =>
      (false, emit (recordError CannotOpenCodec)
                (with_handles Null Null s fr p (fresh_codec st)))
  | FailNewStream =>
      (false, emit (recordError NoStream)
                (with_handles Null Null s fr p (fresh_codec st)))
  | FailCopyParams =>
      (false, emit (recordError CannotCopyParams)
                (with_handles Null Null s fr p (fresh_codec st)))
  | FailAvioOpen =>
      (false, emit (recordError CannotOpenFile)
                (with_handles Null Null s fr p (fresh_codec st)))
  | FailWriteHeader =>
      (false, emit (recordError CannotWriteHeader)
                (with_handles Null Null s fr p (fresh_codec st)))
  | FailFrameAlloc =>
      (false, emit (recordError NoFrame)
                (with_handles Null Null s Null p (fresh_codec st)))
  | FailFrameBuffer =>
      (false, emit (recordError NoFrameBuffer)
                (with_handles Null Null s Null p (fresh_codec st)))
  | FailPacketAlloc =>
      (false, emit (recordError NoPacket)
                (with_handles Null Null s Null Null (fresh_codec st)))
  | FailSwsContext =>
      (false, emit (recordError NoSwsContext)
                (with_handles Freed Live Null Null Null (fresh_codec st)))
  | InitOk =>
      (true, with_handles Live Live Live Live Live (fresh_codec st))
  end.

(** [bool RecordingThread::startRecording(const QString &filePath, int width, int height)],
    called at clock value [now]; [o] is what FFmpeg answers to the
    initialisation.  The creation of the output directory is an effect on the
    file system and leaves the object untouched. *)
Definition startRecording (filePath : string) (width height : Z)
    (now : Z) (o : init_outcome) (st : recorder) : bool * recorder :=
  if m_isRecording st then (false, st)
  else
    let st :=
      {| m_isRecording := m_isRecording st; m_shouldExit := false;
         m_filePath := filePath; m_frameCount := 0;
         m_width := width; m_height := height;
         m_frameQueue := m_frameQueue st;
         m_formatContext := m_formatContext st;
         m_codecContext := m_codecContext st;
         m_swsContext := m_swsContext st; m_frame := m_frame st;
         m_packet := m_packet st;
         m_startTime := now; m_lastFrameTime := now;
         m_totalFrames := 0; m_totalTime := S754_zero false;
         m_segmentTimer := m_segmentTimer st;
         m_autoSegmentation := m_autoSegmentation st;
         m_maxRecordingMinutes := m_maxRecordingMinutes st;
         isRunning := isRunning st; heap := heap st;
         submitted := submitted st; emitted := emitted st |} in
    let '(ok, st) := initRecorder o st in
    if negb ok then (false, st)
    else
      let timer :=
        if m_autoSegmentation st
        then Some (Some (wrap_int (wrap_int (m_maxRecordingMinutes st * 60) * 1000)))
        else m_segmentTimer st in
      (true, with_control true timer true st).

(** [void RecordingThread::stopRecording()] *)
Definition stopRecording (st : recorder) : recorder :=
  if negb (m_isRecording st) then st
  else
    let timer :=
      match m_segmentTimer st with
      | Some (Some _) => Some None
      | t => t
      end in
    with_control false timer (isRunning st) st.

(** The slot connected to the segment timer. *)
Definition segmentTimeout (st : recorder) : recorder :=
  emit (recordingTimeReached30Minutes (m_filePath st)) st.

(** [FrameData(const unsigned char *src, int s)]: a new buffer of [s] bytes
    at an address that is not in use, filled from [src].  [memcpy] reads [s]
    bytes; a payload shorter than [s], which the C code would read past, is
    copied as far as it goes. *)
Definition new_FrameData (src : list Z) (s : Z) (h : gmap positive (list Z))
    : FrameData * gmap positive (list Z) :=
  let a := fresh (dom h) in
  ({| data := a; size := s |}, <[a := take (Z.to_nat s) src]> h).

(** [bool RecordingThread::addFrameToQueue(const unsigned char *frameData, int size)].
    [frameData] is [None] for a null pointer and otherwise the bytes it
    points to. *)
Definition addFrameToQueue (frameData : option (list Z)) (size : Z)
    (st : recorder) : bool * recorder :=
  match frameData with
  | Some src =>
      if negb (m_isRecording st) || bool_decide (size <= 0) then (false, st)
      else
        let '(fd, h) := new_FrameData src size (heap st) in
        (true, with_queue (m_frameQueue st ++ [fd]) h st)
  | None => (false, st)
  end.

(** [bool RecordingThread::encodeFrame(AVFrame *frame)].  Calling into a
    context that is not live is undefined and gives [None]. *)
Definition encodeFrame (e : encode_outcome) (st : recorder) : option (bool * recorder) :=
  if is_live (m_codecContext st) && is_live (m_formatContext st) && is_live (m_packet st)
  then
    Some match e with
         | SendFailed => (false, emit (recordError SendFrameFailed) st)
         | ReceiveFailed => (false, emit (recordError ReceivePacketFailed) st)
         | WriteFailed => (false, emit (recordError WritePacketFailed) st)
         | EncodeOk => (true, st)
         end
  else None.

(** [bool RecordingThread::processFrame(FrameData *frameData)], at clock
    value [now].  [sws_scale] reads [3 * m_width * m_height] bytes of the
    frame; the frame handed to the codec is recorded as the whole buffer,
    whatever its length. *)
Definition processFrame (now : Z) (e : encode_outcome) (frameData : FrameData)
    (st : recorder) : option (bool * recorder) :=
  if negb (m_isRecording st) || bool_decide (size frameData <= 0) then Some (false, st)
  else
    let elapsed :=
      double_div (double_of_Z (now - m_lastFrameTime st)) (double_of_Z 1000000) in
    payload ← heap st !! data frameData;
    if is_live (m_swsContext st) && is_live (m_frame st)
    then
      (* m_frame->pts = m_frameCount++ *)
      let pts := m_frameCount st in
      encodeFrame e
        (with_counters (wrap_int (m_frameCount st + 1)) now
           (wrap_int (m_totalFrames st + 1))
           (double_add (m_totalTime st) elapsed)
           (submitted st ++ [(payload, pts)]) st)
    else None.

(** Releasing one member in [cleanupRecorder]: skipped when null, undefined
    when the object was released before. *)
Definition release (h : handle) : option handle :=
  match h with
  | Null | Live => Some Null
  | Freed => None
  end.

(** [void RecordingThread::cleanupRecorder()]; [e] is the answer to the
    flushing [encodeFrame(nullptr)]. *)
Definition cleanupRecorder (e : encode_outcome) (st : recorder) : option recorder :=
  st ← (if negb (is_null (m_codecContext st)) && negb (is_null (m_formatContext st))
        then snd <$> encodeFrame e st
        else Some st);
  s ← release (m_swsContext st);
  p ← release (m_packet st);
  fr ← release (m_frame st);
  c ← release (m_codecContext st);
  f ← release (m_formatContext st);
  Some (with_handles f c s fr p st).

(** One turn of the [while (!m_shouldExit)] loop of [run()].  With an empty
    queue the worker cleans up if recording has stopped and then waits; with
    a frame at the head it takes it, processes it if still recording, and
    deletes it. *)
Definition run_iteration (now : Z) (e : encode_outcome) (st : recorder) : option recorder :=
  match m_frameQueue st with
  | [] => if m_isRecording st then Some st else cleanupRecorder e st
  | frameData :: rest =>
      let st := with_queue rest (heap st) st in
      st ← (if m_isRecording st then snd <$> processFrame now e frameData st
            else Some st);
      Some (with_queue (m_frameQueue st) (delete (data frameData) (heap st)) st)
  end.

(** *** A segment in progress *)

(** What the producer and the worker do while a segment is recorded. *)
Inductive action :=
  | push (src : list Z) (size : Z)
  | work (now : Z) (e : encode_outcome).

Definition step (a : action) (st : recorder) : option recorder :=
  match a with
  | push src size => Some (snd (addFrameToQueue (Some src) size st))
  | work now e => run_iteration now e st
  end.

Fixpoint steps (l : list action) (st : recorder) : option recorder :=
  match l with
  | [] => Some st
  | a :: l => st ← step a st; steps l st
  end.

(** The payloads of the pushes that carry a positive size, in push order. *)
Definition pushed (l : list action) : list (list Z) :=
  l ≫= fun a =>
    match a with
    | push src size => if decide (0 < size) then [take (Z.to_nat size) src] else []
    | work _ _ => []
    end.

(** The payloads waiting in the queue, head first. *)
Definition queued (st : recorder) : list (list Z) :=
  (fun fd => default [] (heap st !! data fd)) <$> m_frameQueue st.

(** The timestamps [0, 1, ..., n-1]. *)
Definition first_pts (n : nat) : list Z := Z.of_nat <$> seq 0 n.

Definition all_live (st : recorder) : Prop :=
  m_formatContext st = Live /\ m_codecContext st = Live /\ m_swsContext st = Live /\
  m_frame st = Live /\ m_packet st = Live.

(** A queue as [addFrameToQueue] builds it: entries of positive size whose
    buffers are allocated and distinct. *)
Definition queue_ok (st : recorder) : Prop :=
  Forall (fun fd => 0 < size fd /\ is_Some (heap st !! data fd)) (m_frameQueue st) /\
  NoDup (data <$> m_frameQueue st).

(** The state of a segment in progress: recording with live contexts, a
    queue of distinct positive-size buffers, and a frame counter that counts
    the frames handed to the codec. *)
Record segment_inv (st : recorder) : Prop := {
  inv_recording : m_isRecording st = true;
  inv_live : all_live st;
  inv_queue :
    Forall (fun fd => 0 < size fd /\ is_Some (heap st !! data fd)) (m_frameQueue st);
  inv_nodup : NoDup (data <$> m_frameQueue st);
  inv_count : m_frameCount st = wrap_int (Z.of_nat (length (submitted st)));
  inv_pts : (submitted st).*2 = wrap_int <$> first_pts (length (submitted st))
}.

(** A recorder in the middle of a segment: started at clock value 0 with
    everything initialised. *)
Definition recording_state : recorder :=
  snd (startRecording "/mnt/TFcard/20230101/record_103000.mp4" 640 480 0 InitOk (create 0)).

(** Two frames pushed, then two turns of the worker. *)
Definition two_frames : list action :=
  [push [10; 20; 30] 3; push [40; 50; 60] 3; work 125000 EncodeOk; work 250000 EncodeOk].

End Recorder.

(** ** Finalising a segment, [MonitorPage::stopRecording] *)

Module Monitor.

(** The fields of a [QDateTime] that the file names are made of. *)
Record QDateTime := {
  year : nat; month : nat; day : nat;
  hour : nat; minute : nat; second : nat
}.

Definition digit (n : nat) : ascii := ascii_of_nat (48 + n `mod` 10).

(** A number below 100 printed on two digits, with a leading zero. *)
Definition two_digits (n : nat) : string :=
  String (digit (n `div` 10)) (String (digit n) EmptyString).

(** [QDateTime::toString("HH:mm")]: the hour (00 to 23) and the minute (00 to
    59), each on two digits. *)
Definition toString_HHmm (t : QDateTime) : string :=
  two_digits (hour t) +:+ ":" +:+ two_digits (minute t).

(** [startTimeStr + "-" + endTimeStr + ".mp4"] *)
Definition newVideoFileName (startTimeStr endTimeStr : string) : string :=
  startTimeStr +:+ "-" +:+ endTimeStr +:+ ".mp4".

(** The modal dialogs of the page and the lines it logs while a segment is
    finalised. *)
Inductive message_box :=
  | warning_record_error (e : Recorder.error)
  | information_recording_done (savedTo : string).

Inductive log_line :=
  | qWarning_target_exists (target kept : string)
  | qWarning_rename_failed (source target : string)
  | qInfo_renamed (target : string).

(** The members of [MonitorPage] that recording touches, the files that
    exist on the card, and what the page has shown and logged. *)
Record page := {
  m_isRecording : bool;
  m_recordingStartTime : QDateTime;
  m_currentVideoFile : string;
  m_videoRecorder : option Recorder.recorder;
  m_recordTimer_active : bool;
  recordButton_shows_stop : bool;
  recordStatusLabel_recording : bool;
  recordTimeLabel_visible : bool;
  files : gset string;
  shown : list message_box;
  logged : list log_line
}.

Section WithQt.

(** [QFileInfo(path).dir().absolutePath()], a function of the Qt library. *)
Variable dir_absolutePath : string -> string.

(** [QFile::rename]: refused when the source is missing or the target
    exists; otherwise [os_ok] tells whether the operating system performs
    it. *)
Definition rename (os_ok : bool) (source target : string) (fs : gset string)
    : option (gset string) :=
  if bool_decide (source ∈ fs) && negb (bool_decide (target ∈ fs)) && os_ok
  then Some ({[target]} ∪ fs ∖ {[source]})
  else None.

(** [void MonitorPage::stopRecording()], with [recordingEndTime] the value of
    [QDateTime::currentDateTime()] read in it. *)
Definition stopRecording (recordingEndTime : QDateTime) (os_ok : bool)
    (st : page) : page :=
  if negb (m_isRecording st) then st
  else
    let recorder := Recorder.stopRecording <$> m_videoRecorder st in
    let startTimeStr := toString_HHmm (m_recordingStartTime st) in
    let endTimeStr := toString_HHmm recordingEndTime in
    let newName := newVideoFileName startTimeStr endTimeStr in
    let current := m_currentVideoFile st in
    let '(current', fs, lines) :=
      if bool_decide (current = "") then (current, files st, [])
      else
        let newVideoFilePath := dir_absolutePath current +:+ "/" +:+ newName in
        if bool_decide (newVideoFilePath ∈ files st)
        then (current, files st, [qWarning_target_exists newVideoFilePath current])
        else
          match rename os_ok current newVideoFilePath (files st) with
          | Some fs => (newVideoFilePath, fs, [qInfo_renamed newVideoFilePath])
          | None =>
              (current, files st, [qWarning_rename_failed current newVideoFilePath])
          end in
    {| m_isRecording := false;
       m_recordingStartTime := m_recordingStartTime st;
       m_currentVideoFile := current';
       m_videoRecorder := recorder;
       m_recordTimer_active := false;
       recordButton_shows_stop := false;
       recordStatusLabel_recording := false;
       recordTimeLabel_visible := false;
       files := fs;
       shown := shown st ++ [information_recording_done current'];
       logged := logged st ++ lines |}.

End WithQt.

(** The directory part of a path written with ['/'], for the paths the
    page builds itself ([m_recordingPath + "/" + date + "/" + file]). *)
Fixpoint parent_dir (path : string) : option string :=
  match path with
  | EmptyString => None
  | String c rest =>
      match parent_dir rest with
      | Some d => Some (String c d)
      | None => if bool_decide (c = "/"%char) then Some EmptyString else None
      end
  end.

Definition dir_of (path : string) : string := default "." (parent_dir path).

(** The path the segment is to be renamed to. *)
Definition target_path (dir_absolutePath : string -> string)
    (recordingEndTime : QDateTime) (st : page) : string :=
  dir_absolutePath (m_currentVideoFile st) +:+ "/" +:+
  newVideoFileName (toString_HHmm (m_recordingStartTime st))
                   (toString_HHmm recordingEndTime).

(** The rename rule read without a condition on the file system: whenever a
    recording with a working file is stopped and no file of the target name
    exists, the segment carries the target name afterwards. *)
Definition always_renamed_claim : Prop :=
  forall dir_absolutePath recordingEndTime os_ok st,
    m_isRecording st = true -> m_currentVideoFile st <> "" ->
    let target := target_path dir_absolutePath recordingEndTime st in
    let st' := stopRecording dir_absolutePath recordingEndTime os_ok st in
    target ∉ files st ->
    m_currentVideoFile st' = target /\ target ∈ files st'.

Definition at_time (h m : nat) : QDateTime :=
  {| year := 2023; month := 1; day := 1; hour := h; minute := m; second := 0 |}.

(** A page recording since 10:30 into its working file. *)
Definition recording_page (existing : gset string) : page :=
  {| m_isRecording := true;
     m_recordingStartTime := at_time 10 30;
     m_currentVideoFile := "/mnt/TFcard/20230101/record_103000.mp4";
     m_videoRecorder := None;
     m_recordTimer_active := true;
     recordButton_shows_stop := true;
     recordStatusLabel_recording := true;
     recordTimeLabel_visible := true;
     files := existing;
     shown := [];
     logged := [] |}.

End Monitor.

(** ** The retention manager, [storagemanager.cpp] *)

Module Storage.

(** What a refreshed [QStorageInfo] reports. *)
Record QStorageInfo := {
  isValid : bool;
  isReady : bool;
  bytesAvailable : Z;
  bytesTotal : Z
}.

(** A subdirectory of a storage root: its name, the sizes of the files below
    it (at any depth), and whether the file system lets it be removed. *)
Record subdir := { name : string; file_sizes : list Z; removable : bool }.

(** The world the manager looks at.  Every refresh of a [QStorageInfo] reads
    the report of the current [tick] and advances it, so the volume may
    change between two checks in any way.  A root directory exists when
    [dirs] has an entry for it. *)
Record world := {
  tick : nat;
  report : nat -> string -> QStorageInfo;
  dirs : gmap string (list subdir);
  can_mkpath : string -> bool
}.

Inductive failure :=
  | NoDateDirectory
  | DirectoryGone (path : string)
  | RemoveFailed (path : string).

Inductive signal :=
  | lowStorageSpace (availableBytes totalBytes : Z) (percent : double)
  | cleanupCompleted (path : string) (freedBytes : Z)
  | cleanupFailed (errorMessage : failure).

(** [m_checkTimer]: a [QTimer] keeps its interval when stopped. *)
Record QTimer := { isActive : bool; interval : Z }.

(** The members of [StorageManager], the world, and the signals emitted. *)
Record manager := {
  m_storagePath : string;
  m_minFreeSpacePercent : Z;
  m_checkTimer : QTimer;
  env : world;
  emitted : list signal
}.

(** Operations read and change the manager and return a value. *)
Definition M (A : Type) : Type := manager -> A * manager.

Definition ret {A} (x : A) : M A := fun s => (x, s).
Definition bind {A B} (m : M A) (k : A -> M B) : M B :=
  fun s => let '(x, s') := m s in k x s'.
Definition get : M manager := fun s => (s, s).
Definition put (s : manager) : M unit := fun _ => (tt, s).

Declare Scope storage_scope.
Delimit Scope storage_scope with storage.
Notation "'do' x <- m ; k" := (bind m (fun x => k))
  (at level 10, x name, m at level 100, k at level 200) : storage_scope.
Notation "m ;; k" := (bind m (fun _ => k))
  (at level 100, k at level 200, right associativity) : storage_scope.
Local Open Scope storage_scope.

Definition emit (sig : signal) : M unit :=
  fun s => (tt, {| m_storagePath := m_storagePath s;
                   m_minFreeSpacePercent := m_minFreeSpacePercent s;
                   m_checkTimer := m_checkTimer s;
                   env := env s;
                   emitted := emitted s ++ [sig] |}).

Definition set_env (w : world) : M unit :=
  fun s => (tt, {| m_storagePath := m_storagePath s;
                   m_minFreeSpacePercent := m_minFreeSpacePercent s;
                   m_checkTimer := m_checkTimer s;
                   env := w;
                   emitted := emitted s |}).

Definition set_timer (t : QTimer) : M unit :=
  fun s => (tt, {| m_storagePath := m_storagePath s;
                   m_minFreeSpacePercent := m_minFreeSpacePercent s;
                   m_checkTimer := t;
                   env := env s;
                   emitted := emitted s |}).

(** [if (!dir.exists()) dir.mkpath(".")].  [dirs] gives the listing of each
    directory the manager looks at; of a directory that is created only its
    own, empty, listing is recorded, not its entry in the listing of its
    parent nor the parents created with it. *)
Definition ensure_dir (path : string) (w : world) : world :=
  match dirs w !! path with
  | Some _ => w
  | None =>
      if can_mkpath w path
      then {| tick := tick w; report := report w;
              dirs := <[path := []]> (dirs w); can_mkpath := can_mkpath w |}
      else w
  end.

(** [StorageManager::StorageManager(const QString &storagePath, QObject *parent)] *)
Definition StorageManager (storagePath : string) (w : world) : manager :=
  {| m_storagePath := storagePath;
     m_minFreeSpacePercent := 10;
     m_checkTimer := {| isActive := false; interval := 0 |};
     env := ensure_dir storagePath w;
     emitted := [] |}.

(** [void StorageManager::setStoragePath(const QString &path)] *)
Definition setStoragePath (path : string) : M unit :=
  fun s =>
    if bool_decide (m_storagePath s = path) then (tt, s)
    else (tt, {| m_storagePath := path;
                 m_minFreeSpacePercent := m_minFreeSpacePercent s;
                 m_checkTimer := m_checkTimer s;
                 env := ensure_dir path (env s);
                 emitted := emitted s |}).

(** [void StorageManager::setMinFreeSpacePercent(int percent)] *)
Definition setMinFreeSpacePercent (percent : Z) : M unit :=
  fun s =>
    let percent :=
      if decide (percent < 0) then 0
      else if decide (percent > 100) then 100
      else percent in
    if decide (m_minFreeSpacePercent s ≠ percent)
    then (tt, {| m_storagePath := m_storagePath s;
                 m_minFreeSpacePercent := percent;
                 m_checkTimer := m_checkTimer s;
                 env := env s;
                 emitted := emitted s |})
    else (tt, s).

(** [QStorageInfo storage(m_storagePath); storage.refresh();] *)
Definition refresh : M QStorageInfo :=
  do s <- get;
  let w := env s in
  set_env {| tick := S (tick w); report := report w;
             dirs := dirs w; can_mkpath := can_mkpath w |};;
  ret (report w (tick w) (m_storagePath s)).

(** [static_cast<double>(availableBytes) / totalBytes * 100.0] *)
Definition percentage (availableBytes totalBytes : Z) : double :=
  double_mul (double_div (double_of_Z availableBytes) (double_of_Z totalBytes))
             (double_of_Z 100).

(** [bool StorageManager::checkStorageSpace()] *)
Definition checkStorageSpace : M bool :=
  do storage <- refresh;
  if negb (isValid storage) || negb (isReady storage)
  then emit (lowStorageSpace 0 0 (S754_zero false));; ret false
  else
    let availableBytes := bytesAvailable storage in
    let totalBytes := bytesTotal storage in
    if decide (totalBytes > 0)
    then
      let availablePercent := percentage availableBytes totalBytes in
      do s <- get;
      if double_ltb availablePercent (double_of_Z (m_minFreeSpacePercent s))
      then emit (lowStorageSpace availableBytes totalBytes availablePercent);;
           ret false
      else ret true
    else
      emit (lowStorageSpace availableBytes totalBytes (S754_zero false));;
      ret false.

(** [qint64] accumulation. *)
Definition wrap_qint64 (z : Z) : Z := (z + 2 ^ 63) mod 2 ^ 64 - 2 ^ 63.

(** [qint64 StorageManager::getDirSize(const QDir &dir)]: the sizes of all
    files below the directory, added up one by one. *)
Definition getDirSize (d : subdir) : Z :=
  foldl (fun totalSize sz => wrap_qint64 (totalSize + sz)) 0 (file_sizes d).

(** The characters matched by [\\d] among the 8-bit characters: ['0'] to ['9']. *)
Definition is_digit (c : ascii) : bool :=
  bool_decide (48 <= nat_of_ascii c <= 57)%nat.

(** [QRegExp("^\\d{8}$").exactMatch(dirName)] *)
Definition is_date_name (dirName : string) : bool :=
  bool_decide (String.length dirName = 8%nat)
  && forallb is_digit (String.list_ascii_of_string dirName).

(** [storageDir.entryList(QDir::Dirs | QDir::NoDotAndDotDot)] *)
Definition entryList (w : world) (path : string) : list string :=
  name <$> default [] (dirs w !! path).

(** [QString StorageManager::getOldestDateDir()]; the empty string stands
    for the null [QString] that the source returns when nothing matches.
    [std::sort] orders the names with [QString::operator<]. *)
Definition getOldestDateDir (s : manager) : string :=
  let dateDirs := entryList (env s) (m_storagePath s) in
  match dateDirs with
  | [] => ""
  | _ =>
      let validDateDirs := filter (fun dirName => is_date_name dirName) dateDirs in
      match validDateDirs with
      | [] => ""
      | _ => default "" (head (merge_sort String.le validDateDirs))
      end
  end.

(** [QDir::removeRecursively()] on the subdirectory [dirName] of [path]:
    when the file system allows it the directory disappears from its
    parent. *)
Definition removeRecursively (path dirName : string) (w : world) : bool * world :=
  let entries := default [] (dirs w !! path) in
  match filter (fun d => name d = dirName) entries with
  | d :: _ =>
      if removable d
      then (true, {| tick := tick w; report := report w;
                     dirs := <[path := filter (fun d => name d ≠ dirName) entries]> (dirs w);
                     can_mkpath := can_mkpath w |})
      else (false, w)
  | [] => (true, w)
  end.

(** [bool StorageManager::cleanupOldestDay()] *)
Definition cleanupOldestDay : M bool :=
  do s <- get;
  let oldestDirName := getOldestDateDir s in
  if bool_decide (oldestDirName = "")
  then emit (cleanupFailed NoDateDirectory);; ret false
  else
    let dirToRemove := m_storagePath s +:+ "/" +:+ oldestDirName in
    match filter (fun d => name d = oldestDirName)
                 (default [] (dirs (env s) !! m_storagePath s)) with
    | [] => emit (cleanupFailed (DirectoryGone dirToRemove));; ret false
    | d :: _ =>
        let dirSize := getDirSize d in
        let '(success, w) := removeRecursively (m_storagePath s) oldestDirName (env s) in
        set_env w;;
        (if success
         then emit (cleanupCompleted oldestDirName dirSize)
         else emit (cleanupFailed (RemoveFailed dirToRemove)));;
        ret success
    end.

(** [void StorageManager::performAutoCheck()] *)
Definition performAutoCheck : M unit :=
  do enough <- checkStorageSpace;
  if negb enough
  then
    do cleaned <- cleanupOldestDay;
    if cleaned then (do again <- checkStorageSpace; ret tt) else ret tt
  else ret tt.

(** [void StorageManager::startAutoCheck(int interval)] *)
Definition startAutoCheck (interval : Z) : M unit :=
  if decide (interval <= 0) then ret tt
  else
    performAutoCheck;;
    set_timer {| isActive := true; interval := interval |}.

(** [void StorageManager::stopAutoCheck()] *)
Definition stopAutoCheck : M unit :=
  do s <- get;
  if isActive (m_checkTimer s)
  then set_timer {| isActive := false; interval := interval (m_checkTimer s) |}
  else ret tt.

(** The [timeout] signal of [m_checkTimer], connected to [performAutoCheck];
    it only fires while the timer is active. *)
Definition timeout : M unit :=
  do s <- get;
  if isActive (m_checkTimer s) then performAutoCheck else ret tt.

(** The calls a client can make on a manager, and the timer firing. *)
Inductive operation :=
  | op_setStoragePath (path : string)
  | op_setMinFreeSpacePercent (percent : Z)
  | op_checkStorageSpace
  | op_cleanupOldestDay
  | op_startAutoCheck (interval : Z)
  | op_stopAutoCheck
  | op_timeout.

Definition perform (o : operation) (s : manager) : manager :=
  match o with
  | op_setStoragePath path => snd (setStoragePath path s)
  | op_setMinFreeSpacePercent percent => snd (setMinFreeSpacePercent percent s)
  | op_checkStorageSpace => snd (checkStorageSpace s)
  | op_cleanupOldestDay => snd (cleanupOldestDay s)
  | op_startAutoCheck interval => snd (startAutoCheck interval s)
  | op_stopAutoCheck => snd (stopAutoCheck s)
  | op_timeout => snd (timeout s)
  end.

Definition perform_all (ops : list operation) (s : manager) : manager :=
  foldl (fun s o => perform o s) s ops.

(** *** Notions used to state the behaviour of the manager *)

(** An operation that leaves the threshold alone. *)
Definition keeps_threshold {A} (m : M A) : Prop :=
  forall s, m_minFreeSpacePercent (snd (m s)) = m_minFreeSpacePercent s.

(** The reading that the next check will see. *)
Definition next_report (s : manager) : QStorageInfo :=
  report (env s) (tick (env s)) (m_storagePath s).

(** The threshold rule read in exact arithmetic: on a valid, ready volume of
    positive capacity the check succeeds exactly when
    available / total * 100 is at least the minimum. *)
Definition exact_threshold_claim : Prop :=
  forall s,
    isValid (next_report s) = true -> isReady (next_report s) = true ->
    bytesTotal (next_report s) > 0 ->
    (fst (checkStorageSpace s) = true <->
     m_minFreeSpacePercent s * bytesTotal (next_report s)
       <= 100 * bytesAvailable (next_report s)).

(** A card of 100 GiB with 29 GiB free, and a minimum of 29 percent. *)
Definition card_29_of_100 : manager :=
  {| m_storagePath := "/mnt/TFcard";
     m_minFreeSpacePercent := 29;
     m_checkTimer := {| isActive := false; interval := 0 |};
     env := {| tick := 0;
               report := fun _ _ =>
                 {| isValid := true; isReady := true;
                    bytesAvailable := 29 * 2 ^ 30; bytesTotal := 100 * 2 ^ 30 |};
               dirs := ∅;
               can_mkpath := fun _ => true |};
     emitted := [] |}.

(** The names under the root that match the date pattern. *)
Definition candidates (s : manager) : list string :=
  filter (fun dirName => is_date_name dirName) (entryList (env s) (m_storagePath s)).

Definition entries (s : manager) : list subdir :=
  default [] (dirs (env s) !! m_storagePath s).

(** The manager after one signal. *)
Definition after_signal (sig : signal) (s : manager) : manager := snd (emit sig s).

(** The manager after the subdirectory [dirName] of its root is gone. *)
Definition without_dir (dirName : string) (s : manager) : manager :=
  {| m_storagePath := m_storagePath s;
     m_minFreeSpacePercent := m_minFreeSpacePercent s;
     m_checkTimer := m_checkTimer s;
     env := {| tick := tick (env s); report := report (env s);
               dirs := <[m_storagePath s :=
                           filter (fun d => name d <> dirName) (entries s)]> (dirs (env s));
               can_mkpath := can_mkpath (env s) |};
     emitted := emitted s |}.

Definition example_root : list string :=
  ["20230101"; "20230215"; "notadate"; "20221231"].

(** The example root on a card that lets everything be removed. *)
Definition example_manager : manager :=
  {| m_storagePath := "/mnt/TFcard";
     m_minFreeSpacePercent := 10;
     m_checkTimer := {| isActive := false; interval := 0 |};
     env := {| tick := 0;
               report := fun _ _ =>
                 {| isValid := true; isReady := true;
                    bytesAvailable := 2 ^ 30; bytesTotal := 32 * 2 ^ 30 |};
               dirs := {[ "/mnt/TFcard" :=
                 [ {| name := "20230101"; file_sizes := [100; 200]; removable := true |};
                   {| name := "20230215"; file_sizes := [300]; removable := true |};
                   {| name := "notadate"; file_sizes := [5]; removable := true |};
                   {| name := "20221231"; file_sizes := [7; 8; 9]; removable := true |} ] ]};
               can_mkpath := fun _ => true |};
     emitted := [] |}.

End Storage.


(** ** The rest of the capture wrapper: opening, streaming, frames *)

Module Capture.

(** The constants of [linux/videodev2.h] that decide what the wrapper
    does. *)
Record videodev2 := {
  V4L2_CAP_VIDEO_CAPTURE : Z;
  V4L2_CAP_STREAMING : Z;
  V4L2_PIX_FMT_RGB565 : Z
}.

(** [struct camera_format] *)
Record cam_fmt := { description : string; pixelformat : Z }.

(** The requests about queueing and streaming issued to the driver. *)
Inductive stream_call :=
  | QBUF (index : nat)
  | DQBUF
  | STREAMON
  | STREAMOFF.

(** The static variables of the wrapper ([cap], with the mapped regions),
    the format table [cam_fmts], and the queueing and streaming requests
    issued so far. *)
Record wrapper := {
  cap : V4l2.capture;
  cam_fmts : list cam_fmt;
  issued : list stream_call
}.

(** The state at program start. *)
Definition initial : wrapper :=
  {| cap := V4l2.initial;
     cam_fmts := replicate 10 {| description := ""; pixelformat := 0 |};
     issued := [] |}.

(** What the kernel and the driver answer while a device is opened:
    the return value of [open], the capabilities reported by
    [VIDIOC_QUERYCAP], the formats enumerated by [VIDIOC_ENUM_FMT], the
    pixel format, width and height left in the structure by [VIDIOC_S_FMT],
    and the answers about buffers.  [None] is a negative return value. *)
Record device := {
  dev_open : Z;
  dev_QUERYCAP : option Z;
  dev_ENUM_FMT : nat -> option cam_fmt;
  dev_S_FMT : option (Z * Z * Z);
  dev_buffers : V4l2.driver
}.

Definition with_cap (c : V4l2.capture) (st : wrapper) : wrapper :=
  {| cap := c; cam_fmts := cam_fmts st; issued := issued st |}.

Definition issue (c : stream_call) (st : wrapper) : wrapper :=
  {| cap := cap st; cam_fmts := cam_fmts st; issued := issued st ++ [c] |}.

Definition set_fd (fd : Z) (c : V4l2.capture) : V4l2.capture :=
  {| V4l2.v4l2_fd := fd; V4l2.buf_infos := V4l2.buf_infos c;
     V4l2.frm_width := V4l2.frm_width c; V4l2.frm_height := V4l2.frm_height c;
     V4l2.is_capturing := V4l2.is_capturing c; V4l2.mapped := V4l2.mapped c;
     V4l2.printed := V4l2.printed c |}.

Definition set_size (w h : Z) (c : V4l2.capture) : V4l2.capture :=
  {| V4l2.v4l2_fd := V4l2.v4l2_fd c; V4l2.buf_infos := V4l2.buf_infos c;
     V4l2.frm_width := w; V4l2.frm_height := h;
     V4l2.is_capturing := V4l2.is_capturing c; V4l2.mapped := V4l2.mapped c;
     V4l2.printed := V4l2.printed c |}.

Definition set_capturing (b : bool) (c : V4l2.capture) : V4l2.capture :=
  {| V4l2.v4l2_fd := V4l2.v4l2_fd c; V4l2.buf_infos := V4l2.buf_infos c;
     V4l2.frm_width := V4l2.frm_width c; V4l2.frm_height := V4l2.frm_height c;
     V4l2.is_capturing := b; V4l2.mapped := V4l2.mapped c;
     V4l2.printed := V4l2.printed c |}.

(** The [while] loop of [v4l2_enum_formats], entered with [fmtdesc.index =
    index].  It ends when the driver refuses an index or when the index
    reaches the size of [cam_fmts]; [None] means that [fuel] turns were not
    enough. *)
Fixpoint enum_loop (d : device) (fuel index : nat) (fmts : list cam_fmt)
    : option (list cam_fmt) :=
  match fuel with
  | O => None
  | S fuel =>
      match dev_ENUM_FMT d index with
      | None => Some fmts
      | Some f =>
          if decide (index < length fmts)%nat
          then enum_loop d fuel (S index) (<[index := f]> fmts)
          else Some fmts
      end
  end.

(** [static void v4l2_enum_formats(void)] *)
Definition v4l2_enum_formats (d : device) (fuel : nat) (st : wrapper) : option wrapper :=
  fmts ← enum_loop d fuel 0 (cam_fmts st);
  Some {| cap := cap st; cam_fmts := fmts; issued := issued st |}.

(** [static int v4l2_set_format(void)].  The frame-rate request that ends
    the function ([VIDIOC_G_PARM], [VIDIOC_S_PARM]) only prints: its
    outcome changes neither the variables nor the value returned. *)
Definition v4l2_set_format (h : videodev2) (d : device) (st : wrapper) : Z * wrapper :=
  match dev_S_FMT d with
  | None => (-1, st)
  | Some (fmt, width, height) =>
      if decide (V4L2_PIX_FMT_RGB565 h ≠ fmt) then (-1, st)
      else (0, with_cap (set_size (wrap_int width) (wrap_int height) (cap st)) st)
  end.

(** [close(v4l2_fd); v4l2_fd = -1; return -1;] *)
Definition close_and_fail (st : wrapper) : Z * wrapper :=
  (-1, with_cap (set_fd (-1) (cap st)) st).

(** [int v4l2_init(const char *device)] *)
Definition v4l2_init (h : videodev2) (d : device) (st : wrapper) : Z * wrapper :=
  let st := with_cap (set_fd (dev_open d) (cap st)) st in
  if decide (0 > dev_open d) then (-1, st)
  else
    match dev_QUERYCAP d with
    | None => close_and_fail st
    | Some capabilities =>
        if decide (Z.land (V4L2_CAP_VIDEO_CAPTURE h) capabilities = 0)
        then close_and_fail st
        else if decide (Z.land (V4L2_CAP_STREAMING h) capabilities = 0)
        then close_and_fail st
        else
          match v4l2_enum_formats d (S (length (cam_fmts st))) st with
          | None => (-1, st)
          | Some st =>
              let '(ret, st) := v4l2_set_format h d st in
              if decide (0 > ret) then close_and_fail st
              else
                let '(ret, c) := V4l2.v4l2_init_step5 (dev_buffers d) (cap st) in
                (ret, with_cap c st)
          end
    end.

(** The queueing loop of [v4l2_stream_on], with [n] buffers left; [qbuf_ok i]
    tells whether [VIDIOC_QBUF] of buffer [i] succeeds. *)
Fixpoint queue_all (qbuf_ok : nat -> bool) (i n : nat) (st : wrapper) : bool * wrapper :=
  match n with
  | O => (true, st)
  | S n =>
      let st := issue (QBUF i) st in
      if qbuf_ok i then queue_all qbuf_ok (S i) n st else (false, st)
  end.

(** [static int v4l2_stream_on(void)]; the cleanup label releases nothing. *)
Definition v4l2_stream_on (qbuf_ok : nat -> bool) (streamon_ok : bool)
    (st : wrapper) : Z * wrapper :=
  let '(ok, st) := queue_all qbuf_ok 0 V4l2.FRAMEBUFFER_COUNT st in
  if ok then
    let st := issue STREAMON st in
    if streamon_ok then (0, with_cap (set_capturing true (cap st)) st)
    else (-1, st)
  else (-1, st).

(** [static void v4l2_stream_off(void)] *)
Definition v4l2_stream_off (st : wrapper) : wrapper :=
  if V4l2.is_capturing (cap st)
  then with_cap (set_capturing false (cap st)) (issue STREAMOFF st)
  else st.

(** [int v4l2_start_capture()] *)
Definition v4l2_start_capture (qbuf_ok : nat -> bool) (streamon_ok : bool)
    (st : wrapper) : Z * wrapper :=
  if decide (V4l2.v4l2_fd (cap st) < 0) then (-1, st)
  else if V4l2.is_capturing (cap st) then (0, st)
  else v4l2_stream_on qbuf_ok streamon_ok st.

(** [void v4l2_stop_capture()] *)
Definition v4l2_stop_capture (st : wrapper) : wrapper :=
  if decide (V4l2.v4l2_fd (cap st) < 0) then st else v4l2_stream_off st.

(** [void v4l2_cleanup()] *)
Definition v4l2_cleanup (st : wrapper) : wrapper :=
  let st := v4l2_stop_capture st in
  with_cap (V4l2.v4l2_cleanup (cap st)) st.

(** What [VIDIOC_DQBUF] answers: no frame ready, another error, or a filled
    buffer with its index and the pixels found in its memory. *)
Inductive dqbuf_result :=
  | DqAgain
  | DqError
  | DqBuffer (index : nat) (pixels : list Z).

(** The three pointer arguments of [v4l2_get_frame] ([None] is a null
    pointer) as they are after the call, and the value returned. *)
Record frame_result := {
  ret : Z;
  data : option (list Z);
  width : option Z;
  height : option Z
}.

(** [int v4l2_get_frame(unsigned char *data, int *width, int *height)];
    [qbuf_ok] tells whether the buffer can be handed back.  Converting from
    a buffer that is not mapped, or beyond the end of a buffer, is undefined
    and gives [None]. *)
Definition v4l2_get_frame (dq : dqbuf_result) (qbuf_ok : bool)
    (data : option (list Z)) (width height : option Z) (st : wrapper)
    : option (frame_result * wrapper) :=
  let unchanged r st :=
    Some ({| ret := r; data := data; width := width; height := height |}, st) in
  if decide (V4l2.v4l2_fd (cap st) < 0) then unchanged (-1) st
  else if negb (V4l2.is_capturing (cap st)) then unchanged (-1) st
  else
    match data, width, height with
    | Some dst, Some _, Some _ =>
        let st := issue DQBUF st in
        match dq with
        | DqAgain | DqError => unchanged (-1) st
        | DqBuffer index pixels =>
            if decide (V4l2.FRAMEBUFFER_COUNT <= index)%nat then unchanged (-1) st
            else
              match V4l2.start <$> V4l2.buf_infos (cap st) !! index with
              | Some (V4l2.Addr _) =>
                  dst ← V4l2.rgb565_to_rgb888 pixels dst
                          (wrap_int (V4l2.frm_width (cap st) * V4l2.frm_height (cap st)));
                  let st := issue (QBUF index) st in
                  Some ({| ret := if qbuf_ok then 0 else -1;
                           data := Some dst;
                           width := Some (V4l2.frm_width (cap st));
                           height := Some (V4l2.frm_height (cap st)) |}, st)
              | Some V4l2.NULL => unchanged (-1) (issue (QBUF index) st)
              | Some V4l2.MAP_FAILED | None => None
              end
        end
    | _, _, _ => unchanged (-1) st
    end.

(** The calls of [MonitorPage::startCapture] into the wrapper; the result
    tells whether the frame timer is started. *)
Definition startCapture (h : videodev2) (d : device) (qbuf_ok : nat -> bool)
    (streamon_ok : bool) (st : wrapper) : bool * wrapper :=
  let '(r, st) := v4l2_init h d st in
  if decide (r < 0) then (false, st)
  else
    let '(r, st) := v4l2_start_capture qbuf_ok streamon_ok st in
    if decide (r < 0) then (false, v4l2_cleanup st) else (true, st).

(** The calls of [MonitorPage::stopCapture] into the wrapper. *)
Definition stopCapture (st : wrapper) : wrapper :=
  v4l2_cleanup (v4l2_stop_capture st).

(** What a device must answer for [v4l2_init] to succeed: an open
    descriptor, both capabilities, the RGB565 format at some size, and
    three buffers that can be queried and mapped. *)
Definition accepted (h : videodev2) (d : device) (w hh : Z) : Prop :=
  0 <= dev_open d /\
  (exists capabilities,
     dev_QUERYCAP d = Some capabilities /\
     Z.land (V4L2_CAP_VIDEO_CAPTURE h) capabilities <> 0 /\
     Z.land (V4L2_CAP_STREAMING h) capabilities <> 0) /\
  dev_S_FMT d = Some (V4L2_PIX_FMT_RGB565 h, w, hh) /\
  fst (V4l2.v4l2_init_buffer (dev_buffers d) V4l2.initial) = 0.

(** A region [(address, length)] that one of the buffer slots records. *)
Definition held (c : V4l2.capture) (r : Z * Z) : Prop :=
  exists i, (i < V4l2.FRAMEBUFFER_COUNT)%nat /\
    V4l2.buf_infos c !! i = Some {| V4l2.start := V4l2.Addr r.1; V4l2.buf_length := r.2 |}.

(** The constants as [linux/videodev2.h] defines them. *)
Definition linux_videodev2 : videodev2 :=
  {| V4L2_CAP_VIDEO_CAPTURE := 0x00000001;
     V4L2_CAP_STREAMING := 0x04000000;
     V4L2_PIX_FMT_RGB565 := 0x50424752 |}.

(** A camera that accepts everything: RGB565 at 640x480, three buffers. *)
Definition good_camera : device :=
  {| dev_open := 3;
     dev_QUERYCAP := Some 0x04000001;
     dev_ENUM_FMT := fun i =>
       if decide (i = 0)%nat then Some {| description := "RGB565"; pixelformat := 0x50424752 |}
       else None;
     dev_S_FMT := Some (0x50424752, 640, 480);
     dev_buffers :=
       {| V4l2.ioctl_REQBUFS := fun count => Some count;
          V4l2.ioctl_QUERYBUF := fun i => Some (614400, 614400 * Z.of_nat i);
          V4l2.mmap := fun i len offset => Some (0x76000000 + offset) |} |}.

End Capture.


(** ** The life of a recorder *)

Module Session.
Import Recorder.

(** The failure exits of [initRecorder] after which every member is either
    null or points to a live object. *)
Definition unwinds (o : init_outcome) : bool :=
  match o with
  | FailFindEncoder | FailCodecContext | FailSwsContext => false
  | _ => true
  end.

(** What can happen to a recorder: the calls of its owner, and the turns of
    its worker.  A history is a sequence of whole calls and whole turns: the
    owner's calls hold [m_mutex] or [m_queueMutex] throughout, but a turn of
    the worker runs [processFrame] and [cleanupRecorder] without [m_mutex],
    so a sequence describes the worker faithfully only where no
    [startRecording] runs beside such a turn, as in [one_segment] below. *)
Inductive event :=
  | ev_start (filePath : string) (width height : Z) (now : Z) (o : init_outcome)
  | ev_stop
  | ev_push (frameData : option (list Z)) (size : Z)
  | ev_timeout
  | ev_work (now : Z) (e : encode_outcome).

Definition happen (ev : event) (st : recorder) : option recorder :=
  match ev with
  | ev_start filePath width height now o =>
      Some (snd (startRecording filePath width height now o st))
  | ev_stop => Some (stopRecording st)
  | ev_push frameData size => Some (snd (addFrameToQueue frameData size st))
  | ev_timeout => Some (segmentTimeout st)
  | ev_work now e => run_iteration now e st
  end.

Fixpoint run (evs : list event) (st : recorder) : option recorder :=
  match evs with
  | [] => Some st
  | ev :: evs => st ← happen ev st; run evs st
  end.

(** All the starts of a history take an exit of [initRecorder] that
    unwinds, or succeed. *)
Definition starts_unwind (evs : list event) : Prop :=
  Forall (fun ev => match ev with
                    | ev_start _ _ _ _ o => unwinds o = true
                    | _ => True
                    end) evs.

(** The calls made before a segment is opened: starts that take a failure
    exit of [initRecorder] that unwinds, stops and pushes.  The worker has
    not been started yet. *)
Definition before_segment (ev : event) : Prop :=
  match ev with
  | ev_start _ _ _ _ o => unwinds o = true /\ o <> InitOk
  | ev_stop | ev_push _ _ => True
  | ev_timeout | ev_work _ _ => False
  end.

(** What happens once a segment of [width] x [height] pixels is open: no
    further start, and every frame pushed with a positive size holds the
    [3 * width * height] bytes that [sws_scale] reads from its copy, all of
    them inside the payload of the call. *)
Definition within_segment (width height : Z) (ev : event) : Prop :=
  match ev with
  | ev_start _ _ _ _ _ => False
  | ev_push (Some src) size =>
      0 < size -> 3 * width * height <= size /\ size <= Z.of_nat (length src)
  | _ => True
  end.

(** A recorder that opens at most one segment: nothing, or one successful
    start at a frame size whose byte count fits an [int], followed by events
    of that segment, few enough for the frame counters, which are [int], not
    to overflow. *)
Definition one_segment (segment : list event) : Prop :=
  match segment with
  | [] => True
  | ev_start _ width height _ InitOk :: rest =>
      0 < width /\ 0 < height /\ 3 * width * height <= 2147483647 /\
      Z.of_nat (length rest) <= 2147483647 /\
      Forall (within_segment width height) rest
  | _ => False
  end.

(** A counter after a turn: left alone, or one more (in [int]). *)
Definition stepped (c c' : Z) : Prop := c' = c \/ c' = wrap_int (c + 1).

(** The two frame counters have counted at most [n] frames, without
    wrapping. *)
Definition counted (n : Z) (st : recorder) : Prop :=
  (0 <= m_frameCount st /\ m_frameCount st <= n) /\
  (0 <= m_totalFrames st /\ m_totalFrames st <= n).



(** Every member is null or live, and a live container comes with a live
    codec and a live packet. *)
Definition handles_sound (st : recorder) : Prop :=
  Forall (fun h => h = Null \/ h = Live)
    [m_formatContext st; m_codecContext st; m_swsContext st; m_frame st; m_packet st] /\
  (m_formatContext st = Live -> m_codecContext st = Live /\ m_packet st = Live).

(** The buffers allocated are exactly those of the queued frames. *)
Definition heap_is_queue (st : recorder) : Prop :=
  dom (heap st) = list_to_set (data <$> m_frameQueue st).

Definition all_null (st : recorder) : Prop :=
  m_formatContext st = Null /\ m_codecContext st = Null /\ m_swsContext st = Null /\
  m_frame st = Null /\ m_packet st = Null.

(** What holds of a recorder whatever its history. *)
Record sound (st : recorder) : Prop := {
  sound_queue : queue_ok st;
  sound_heap : heap_is_queue st;
  sound_handles : handles_sound st;
  sound_recording : m_isRecording st = true -> all_live st;
  sound_thread : isRunning st = false -> m_isRecording st = false /\ all_null st
}.

(** Every queued frame has a buffer of at least [3 * m_width * m_height]
    bytes, which is what [sws_scale] reads from it in [processFrame]. *)
Definition frames_fit (st : recorder) : Prop :=
  Forall (fun fd => exists payload,
            heap st !! data fd = Some payload /\
            3 * m_width st * m_height st <= Z.of_nat (length payload))
         (m_frameQueue st).

(** A frame of 2 x 2 pixels, 12 bytes, every byte [v]. *)
Definition small_frame (v : Z) : list Z := replicate 12 v.

(** A start that fails to open its output file. *)
Definition failed_start : list event :=
  [ev_start "/mnt/TFcard/20230101/record_102900.mp4" 2 2 0 FailAvioOpen].

(** A short segment of 2 x 2 pixels: start, two frames, one turn, stop, one
    more push, two more turns. *)
Definition short_segment : list event :=
  [ev_start "/mnt/TFcard/20230101/record_103000.mp4" 2 2 0 InitOk;
   ev_push (Some (small_frame 1)) 12; ev_push (Some (small_frame 2)) 12;
   ev_work 125000 EncodeOk; ev_stop; ev_push (Some (small_frame 3)) 12;
   ev_work 250000 EncodeOk; ev_work 375000 EncodeOk].

(** A recorder stopped with two frames still queued. *)
Definition stopped_with_two_frames : recorder :=
  default (create 0)
    (run [ev_start "/mnt/TFcard/20230101/record_103000.mp4" 2 2 0 InitOk;
          ev_push (Some (small_frame 1)) 12; ev_push (Some (small_frame 2)) 12;
          ev_stop] (create 0)).

End Session.


(** ** The monitor page: recording control wired to storage and capture *)

Module MonitorRecording.
Import Monitor.

(** A number below 10000 printed on four digits. *)
Definition four_digits (n : nat) : string :=
  two_digits (n `div` 100) +:+ two_digits n.

(** [QDateTime::toString("yyyyMMdd")] and [QDateTime::toString("HHmmss")] *)
Definition toString_yyyyMMdd (t : QDateTime) : string :=
  four_digits (year t) +:+ two_digits (month t) +:+ two_digits (day t).
Definition toString_HHmmss (t : QDateTime) : string :=
  two_digits (hour t) +:+ two_digits (minute t) +:+ two_digits (second t).

(** [QString("%1").arg(n, 2, 10, QChar('0'))] for a number that is not
    negative: its decimal digits, preceded by a zero when there is only
    one. *)
Definition arg_2_10_0 (n : Z) : string :=
  let digits := pretty (Z.to_N n) in
  if decide (String.length digits < 2)%nat then "0" +:+ digits else digits.

(** The warning boxes of [MonitorPage::startRecording]. *)
Inductive start_dialog :=
  | warning_storage_insufficient
  | warning_cannot_start.

(** The members of [MonitorPage]: those that stopping a recording touches
    ([page]), the storage manager, the wrapper of the camera, and the rest.
    [status_low_space] tells whether the status label carries the low-space
    note. *)
Record monitor := {
  page : Monitor.page;
  m_storageManager : Storage.manager;
  camera : Capture.wrapper;
  m_recordingPath : string;
  m_frameBuffer : option (list Z);
  m_frameWidth : Z;
  m_frameHeight : Z;
  m_frameTimer_active : bool;
  m_recordingSeconds : Z;
  recordTimeLabel_text : string;
  status_low_space : bool;
  m_lastFrameTime : Z;
  m_currentFPS : double;
  warned : list start_dialog
}.

Definition with_page (p : Monitor.page) (m : monitor) : monitor :=
  {| page := p; m_storageManager := m_storageManager m; camera := camera m;
     m_recordingPath := m_recordingPath m; m_frameBuffer := m_frameBuffer m;
     m_frameWidth := m_frameWidth m; m_frameHeight := m_frameHeight m;
     m_frameTimer_active := m_frameTimer_active m;
     m_recordingSeconds := m_recordingSeconds m;
     recordTimeLabel_text := recordTimeLabel_text m;
     status_low_space := status_low_space m;
     m_lastFrameTime := m_lastFrameTime m; m_currentFPS := m_currentFPS m;
     warned := warned m |}.

Definition with_manager (s : Storage.manager) (m : monitor) : monitor :=
  {| page := page m; m_storageManager := s; camera := camera m;
     m_recordingPath := m_recordingPath m; m_frameBuffer := m_frameBuffer m;
     m_frameWidth := m_frameWidth m; m_frameHeight := m_frameHeight m;
     m_frameTimer_active := m_frameTimer_active m;
     m_recordingSeconds := m_recordingSeconds m;
     recordTimeLabel_text := recordTimeLabel_text m;
     status_low_space := status_low_space m;
     m_lastFrameTime := m_lastFrameTime m; m_currentFPS := m_currentFPS m;
     warned := warned m |}.

(** The status label, the time label and the seconds counter. *)
Definition with_status (low : bool) (seconds : Z) (text : string)
    (m : monitor) : monitor :=
  {| page := page m; m_storageManager := m_storageManager m; camera := camera m;
     m_recordingPath := m_recordingPath m; m_frameBuffer := m_frameBuffer m;
     m_frameWidth := m_frameWidth m; m_frameHeight := m_frameHeight m;
     m_frameTimer_active := m_frameTimer_active m;
     m_recordingSeconds := seconds;
     recordTimeLabel_text := text;
     status_low_space := low;
     m_lastFrameTime := m_lastFrameTime m; m_currentFPS := m_currentFPS m;
     warned := warned m |}.

Definition warn (d : start_dialog) (m : monitor) : monitor :=
  {| page := page m; m_storageManager := m_storageManager m; camera := camera m;
     m_recordingPath := m_recordingPath m; m_frameBuffer := m_frameBuffer m;
     m_frameWidth := m_frameWidth m; m_frameHeight := m_frameHeight m;
     m_frameTimer_active := m_frameTimer_active m;
     m_recordingSeconds := m_recordingSeconds m;
     recordTimeLabel_text := recordTimeLabel_text m;
     status_low_space := status_low_space m;
     m_lastFrameTime := m_lastFrameTime m; m_currentFPS := m_currentFPS m;
     warned := warned m ++ [d] |}.

(** The camera side: wrapper, frame buffer, frame size, frame timer and the
    frame-rate estimate. *)
Definition with_camera (c : Capture.wrapper) (buffer : option (list Z))
    (w h : Z) (timer : bool) (last : Z) (fps : double) (m : monitor) : monitor :=
  {| page := page m; m_storageManager := m_storageManager m; camera := c;
     m_recordingPath := m_recordingPath m; m_frameBuffer := buffer;
     m_frameWidth := w; m_frameHeight := h;
     m_frameTimer_active := timer;
     m_recordingSeconds := m_recordingSeconds m;
     recordTimeLabel_text := recordTimeLabel_text m;
     status_low_space := status_low_space m;
     m_lastFrameTime := last; m_currentFPS := fps;
     warned := warned m |}.

(** The files of the card that are not below the directory [dir]. *)
Definition outside (dir : string) (fs : gset string) : gset string :=
  filter (fun f => String.prefix (dir +:+ "/") f = false) fs.

(** The page after the files of a page-level record are replaced. *)
Definition with_files (fs : gset string) (p : Monitor.page) : Monitor.page :=
  {| m_isRecording := m_isRecording p;
     m_recordingStartTime := m_recordingStartTime p;
     m_currentVideoFile := m_currentVideoFile p;
     m_videoRecorder := m_videoRecorder p;
     m_recordTimer_active := m_recordTimer_active p;
     recordButton_shows_stop := recordButton_shows_stop p;
     recordStatusLabel_recording := recordStatusLabel_recording p;
     recordTimeLabel_visible := recordTimeLabel_visible p;
     files := fs; shown := shown p; logged := logged p |}.

(** [m_storageManager->cleanupOldestDay()] on the page: the files below a
    removed directory are gone, and the [cleanupCompleted] signal runs
    [onCleanupCompleted], which checks the space again, through [check],
    when a recording carries the low-space note, and takes the note off when
    the check passes. *)
Definition cleanupOldestDay_with (check : monitor -> option (bool * monitor))
    (m : monitor) : option (bool * monitor) :=
  let oldest := Storage.getOldestDateDir (m_storageManager m) in
  let dirToRemove := Storage.m_storagePath (m_storageManager m) +:+ "/" +:+ oldest in
  let '(cleaned, sm) := Storage.cleanupOldestDay (m_storageManager m) in
  let m := with_manager sm m in
  if cleaned then
    let m := with_page (with_files (outside dirToRemove (files (page m))) (page m)) m in
    if m_isRecording (page m) && status_low_space m then
      r ← check m;
      let '(enough, m) := r in
      let m' :=
        if (enough : bool)
        then with_status false (m_recordingSeconds m) (recordTimeLabel_text m) m
        else m in
      Some (true, m')
    else Some (true, m)
  else Some (false, m).

(** [m_storageManager->checkStorageSpace()] on the page: the
    [lowStorageSpace] signal runs [onLowStorageSpace], which puts the
    low-space note on the label of a recording and cleans up the oldest day.
    The slots run inside the emitting call; [None] means that [fuel] nested
    checks were not enough. *)
Fixpoint checkStorageSpace (fuel : nat) (m : monitor) : option (bool * monitor) :=
  match fuel with
  | O => None
  | S fuel =>
      let '(enough, sm) := Storage.checkStorageSpace (m_storageManager m) in
      let m := with_manager sm m in
      if enough then Some (true, m)
      else
        let m :=
          if m_isRecording (page m)
          then with_status true (m_recordingSeconds m) (recordTimeLabel_text m) m
          else m in
        r ← cleanupOldestDay_with (checkStorageSpace fuel) m;
        Some (false, snd r)
  end.

Definition cleanupOldestDay (fuel : nat) (m : monitor) : option (bool * monitor) :=
  cleanupOldestDay_with (checkStorageSpace fuel) m.

(** [StorageManager::performAutoCheck()] with the slots of the page
    connected, as the timer of the manager runs it. *)
Definition performAutoCheck (fuel : nat) (m : monitor) : option monitor :=
  r ← checkStorageSpace fuel m;
  let '(enough, m) := r in
  if (enough : bool) then Some m
  else
    r ← cleanupOldestDay fuel m;
    let '(cleaned, m) := r in
    if (cleaned : bool) then snd <$> checkStorageSpace fuel m else Some m.

(** The directories below the storage root of the manager. *)
Definition root_entries (m : monitor) : list string :=
  Storage.entryList (Storage.env (m_storageManager m))
                    (Storage.m_storagePath (m_storageManager m)).

(** As many nested checks as there are directories to remove, and one. *)
Definition enough_fuel (m : monitor) : nat := S (length (root_entries m)).

(** What a check of the storage, with everything it triggers, may change on
    the page: directories of the root can only disappear, and only those
    named like a date; files can only disappear; the settings of the manager
    and the recording state of the page stay as they are. *)
Record narrows (m m' : monitor) : Prop := {
  narrows_path :
    Storage.m_storagePath (m_storageManager m') = Storage.m_storagePath (m_storageManager m);
  narrows_threshold :
    Storage.m_minFreeSpacePercent (m_storageManager m')
    = Storage.m_minFreeSpacePercent (m_storageManager m);
  narrows_timer :
    Storage.m_checkTimer (m_storageManager m') = Storage.m_checkTimer (m_storageManager m);
  narrows_report :
    Storage.report (Storage.env (m_storageManager m'))
    = Storage.report (Storage.env (m_storageManager m));
  narrows_entries : forall n, n ∈ root_entries m' -> n ∈ root_entries m;
  narrows_dates :
    forall n, n ∈ root_entries m -> n ∉ root_entries m' -> Storage.is_date_name n;
  narrows_length : (length (root_entries m') <= length (root_entries m))%nat;
  narrows_files : files (page m') ⊆ files (page m);
  narrows_recording : m_isRecording (page m') = m_isRecording (page m);
  narrows_file : m_currentVideoFile (page m') = m_currentVideoFile (page m);
  narrows_recorder : m_videoRecorder (page m') = m_videoRecorder (page m);
  narrows_camera : camera m' = camera m;
  narrows_warned : warned m' = warned m
}.

(** A reading of the volume on which [checkStorageSpace] reports low space
    for the minimum [min]. *)
Definition reads_low (r : Storage.QStorageInfo) (min : Z) : bool :=
  negb (Storage.isValid r) || negb (Storage.isReady r) ||
  (if decide (Storage.bytesTotal r > 0)
   then double_ltb (Storage.percentage (Storage.bytesAvailable r) (Storage.bytesTotal r))
                   (double_of_Z min)
   else true).

(** A volume that stays low whatever is removed. *)
Definition always_low (m : monitor) : Prop :=
  forall t,
    reads_low (Storage.report (Storage.env (m_storageManager m)) t
                 (Storage.m_storagePath (m_storageManager m)))
              (Storage.m_minFreeSpacePercent (m_storageManager m)) = true.

(** [recordRootDir.mkdir(dateDirName)], done when the directory is missing:
    the root gains an empty subdirectory, which the file system will later
    let be removed or not as [removable] tells.  Nothing happens when the
    root itself is missing or the creation is refused. *)
Definition mkdir (root dateDirName : string) (removable : bool)
    (w : Storage.world) : Storage.world :=
  match Storage.dirs w !! root with
  | Some entries =>
      if bool_decide (dateDirName ∈ Storage.name <$> entries) then w
      else if Storage.can_mkpath w (root +:+ "/" +:+ dateDirName)
      then {| Storage.tick := Storage.tick w; Storage.report := Storage.report w;
              Storage.dirs :=
                <[root := entries ++ [{| Storage.name := dateDirName;
                                         Storage.file_sizes := [];
                                         Storage.removable := removable |}]]>
                  (Storage.dirs w);
              Storage.can_mkpath := Storage.can_mkpath w |}
      else w
  | None => w
  end.

Definition with_env (w : Storage.world) (s : Storage.manager) : Storage.manager :=
  {| Storage.m_storagePath := Storage.m_storagePath s;
     Storage.m_minFreeSpacePercent := Storage.m_minFreeSpacePercent s;
     Storage.m_checkTimer := Storage.m_checkTimer s;
     Storage.env := w;
     Storage.emitted := Storage.emitted s |}.

(** The exits of [initRecorder] that lie after [avio_open]: the output file
    exists by then. *)
Definition file_created (o : Recorder.init_outcome) : bool :=
  match o with
  | Recorder.FailWriteHeader | Recorder.FailFrameAlloc | Recorder.FailFrameBuffer
  | Recorder.FailPacketAlloc | Recorder.FailSwsContext | Recorder.InitOk => true
  | _ => false
  end.

(** The [recordError] signals among [sigs], as the warning boxes that the
    slot of the page shows for them. *)
Definition error_boxes (sigs : list Recorder.signal) : list message_box :=
  sigs ≫= fun s =>
    match s with
    | Recorder.recordError e => [warning_record_error e]
    | _ => []
    end.

(** [record_HHmmss.mp4] below the directory of the day. *)
Definition working_file (recordingPath : string) (t : QDateTime) : string :=
  recordingPath +:+ "/" +:+ toString_yyyyMMdd t +:+ "/" +:+
  "record_" +:+ toString_HHmmss t +:+ ".mp4".

(** The second half of [MonitorPage::startRecording], once the storage has
    been found sufficient.  [now] is [QDateTime::currentDateTime()], [clock]
    the steady clock read by the recorder, [o] the answer of FFmpeg.  A
    null [m_videoRecorder] is dereferenced: [None]. *)
Definition begin_recording (now : QDateTime) (clock : Z)
    (o : Recorder.init_outcome) (removable : bool) (m : monitor) : option monitor :=
  let dateDirName := toString_yyyyMMdd now in
  let sm := m_storageManager m in
  let w := Storage.ensure_dir (m_recordingPath m) (Storage.env sm) in
  let w := mkdir (m_recordingPath m) dateDirName removable w in
  let m := with_manager (with_env w sm) m in
  let file := working_file (m_recordingPath m) now in
  recorder ← m_videoRecorder (page m);
  let '(videoStarted, recorder') :=
    Recorder.startRecording file (m_frameWidth m) (m_frameHeight m) clock o recorder in
  let boxes :=
    error_boxes (drop (length (Recorder.emitted recorder)) (Recorder.emitted recorder')) in
  let fs :=
    if negb (Recorder.m_isRecording recorder) && file_created o
    then {[file]} ∪ files (page m) else files (page m) in
  let p := page m in
  if videoStarted then
    Some (with_status false 0 "00:00:00"
      (with_page
         {| m_isRecording := true;
            m_recordingStartTime := now;
            m_currentVideoFile := file;
            m_videoRecorder := Some recorder';
            m_recordTimer_active := true;
            recordButton_shows_stop := true;
            recordStatusLabel_recording := true;
            recordTimeLabel_visible := true;
            files := fs; shown := shown p ++ boxes; logged := logged p |} m))
  else
    Some (warn warning_cannot_start
      (with_page
         {| m_isRecording := m_isRecording p;
            m_recordingStartTime := now;
            m_currentVideoFile := file;
            m_videoRecorder := Some recorder';
            m_recordTimer_active := m_recordTimer_active p;
            recordButton_shows_stop := recordButton_shows_stop p;
            recordStatusLabel_recording := recordStatusLabel_recording p;
            recordTimeLabel_visible := recordTimeLabel_visible p;
            files := fs; shown := shown p ++ boxes; logged := logged p |} m)).

(** [void MonitorPage::startRecording()] *)
Definition startRecording (fuel : nat) (now : QDateTime) (clock : Z)
    (o : Recorder.init_outcome) (removable : bool) (m : monitor) : option monitor :=
  if m_isRecording (page m) then Some m
  else
    r ← checkStorageSpace fuel m;
    let '(enough, m) := r in
    if (enough : bool) then begin_recording now clock o removable m
    else
      r ← cleanupOldestDay fuel m;
      let '(cleaned, m) := r in
      if (cleaned : bool) then
        r ← checkStorageSpace fuel m;
        let '(again, m) := r in
        if (again : bool) then begin_recording now clock o removable m
        else Some (warn warning_storage_insufficient m)
      else Some (warn warning_storage_insufficient m).

(** [void MonitorPage::stopRecording()]: the status label goes back to its
    idle text. *)
Definition stopRecording (dir_absolutePath : string -> string)
    (recordingEndTime : QDateTime) (os_ok : bool) (m : monitor) : monitor :=
  if m_isRecording (page m)
  then with_status false (m_recordingSeconds m) (recordTimeLabel_text m)
         (with_page (Monitor.stopRecording dir_absolutePath recordingEndTime os_ok (page m)) m)
  else m.

(** [void MonitorPage::onRecordingTimeReached30Minutes(const QString &filePath)] *)
Definition onRecordingTimeReached30Minutes (dir_absolutePath : string -> string)
    (fuel : nat) (now : QDateTime) (clock : Z) (o : Recorder.init_outcome)
    (removable os_ok : bool) (m : monitor) : option monitor :=
  if negb (m_isRecording (page m)) then Some m
  else startRecording fuel now clock o removable
         (stopRecording dir_absolutePath now os_ok m).

(** [void MonitorPage::updateRecordingStatus()] *)
Definition updateRecordingStatus (m : monitor) : monitor :=
  if m_isRecording (page m) then
    let seconds := wrap_int (m_recordingSeconds m + 1) in
    let hours := Z.quot seconds 3600 in
    let minutes := Z.quot (Z.rem seconds 3600) 60 in
    let secs := Z.rem seconds 60 in
    with_status (status_low_space m) seconds
      (arg_2_10_0 hours +:+ ":" +:+ arg_2_10_0 minutes +:+ ":" +:+ arg_2_10_0 secs) m
  else m.

(** The constants [0.8], [0.2] and [1.0] of the frame-rate smoothing. *)
Definition double_0_8 : double := double_div (double_of_Z 8) (double_of_Z 10).
Definition double_0_2 : double := double_div (double_of_Z 2) (double_of_Z 10).

(** [void MonitorPage::updateFrame()], at clock value [now]; the display of
    the image is left to the widgets. *)
Definition updateFrame (dq : Capture.dqbuf_result) (qbuf_ok : bool) (now : Z)
    (m : monitor) : option monitor :=
  match m_frameBuffer m with
  | None => Some m
  | Some _ =>
      r ← Capture.v4l2_get_frame dq qbuf_ok (m_frameBuffer m)
             (Some (m_frameWidth m)) (Some (m_frameHeight m)) (camera m);
      let '(res, cam) := r in
      let buffer := Capture.data res in
      let w := default 0 (Capture.width res) in
      let h := default 0 (Capture.height res) in
      if decide (Capture.ret res = 0) then
        let elapsed :=
          double_div (double_of_Z (now - m_lastFrameTime m)) (double_of_Z 1000000) in
        let fps :=
          if double_ltb (S754_zero false) elapsed
          then double_add (double_mul double_0_8 (m_currentFPS m))
                          (double_mul double_0_2 (double_div (double_of_Z 1) elapsed))
          else m_currentFPS m in
        let m := with_camera cam buffer w h (m_frameTimer_active m) now fps m in
        match m_videoRecorder (page m) with
        | Some recorder =>
            if m_isRecording (page m) then
              let recorder' :=
                snd (Recorder.addFrameToQueue buffer (wrap_int (wrap_int (w * h) * 3))
                       recorder) in
              let p := page m in
              Some (with_page
                {| m_isRecording := m_isRecording p;
                   m_recordingStartTime := m_recordingStartTime p;
                   m_currentVideoFile := m_currentVideoFile p;
                   m_videoRecorder := Some recorder';
                   m_recordTimer_active := m_recordTimer_active p;
                   recordButton_shows_stop := recordButton_shows_stop p;
                   recordStatusLabel_recording := recordStatusLabel_recording p;
                   recordTimeLabel_visible := recordTimeLabel_visible p;
                   files := files p; shown := shown p; logged := logged p |} m)
            else Some m
        | None => Some m
        end
      else
        Some (with_camera cam buffer w h (m_frameTimer_active m)
                (m_lastFrameTime m) (m_currentFPS m) m)
  end.

(** A file name without a directory part. *)
Definition no_slash (s : string) : Prop :=
  Forall (fun c => c <> "/"%char) (String.list_ascii_of_string s).

(** A page that is not recording, on the example card (1 GiB free of 32, a
    minimum of 10 percent), with a recorder that has never been started and
    the camera closed. *)
Definition idle_monitor : monitor :=
  {| page :=
       {| m_isRecording := false;
          m_recordingStartTime := at_time 10 30;
          m_currentVideoFile := "";
          m_videoRecorder := Some (Recorder.create 0);
          m_recordTimer_active := false;
          recordButton_shows_stop := false;
          recordStatusLabel_recording := false;
          recordTimeLabel_visible := false;
          files := ∅; shown := []; logged := [] |};
     m_storageManager := Storage.example_manager;
     camera := Capture.initial;
     m_recordingPath := "/mnt/TFcard";
     m_frameBuffer := None;
     m_frameWidth := 0; m_frameHeight := 0;
     m_frameTimer_active := false;
     m_recordingSeconds := 0;
     recordTimeLabel_text := "00:00:00";
     status_low_space := false;
     m_lastFrameTime := 0;
     m_currentFPS := S754_zero false;
     warned := [] |}.

(** A page recording since 10:30 on 1 January 2023, on a card that is low
    and whose only directory is the one of that day. *)
Definition recording_monitor : monitor :=
  {| page := recording_page {["/mnt/TFcard/20230101/record_103000.mp4"]};
     m_storageManager :=
       {| Storage.m_storagePath := "/mnt/TFcard";
          Storage.m_minFreeSpacePercent := 10;
          Storage.m_checkTimer := {| Storage.isActive := true; Storage.interval := 600000 |};
          Storage.env :=
            {| Storage.tick := 0;
               Storage.report := fun _ _ =>
                 {| Storage.isValid := true; Storage.isReady := true;
                    Storage.bytesAvailable := 2 ^ 30;
                    Storage.bytesTotal := 32 * 2 ^ 30 |};
               Storage.dirs := {[ "/mnt/TFcard" :=
                 [ {| Storage.name := "20230101"; Storage.file_sizes := [4096];
                      Storage.removable := true |} ] ]};
               Storage.can_mkpath := fun _ => true |};
          Storage.emitted := [] |};
     camera := Capture.initial;
     m_recordingPath := "/mnt/TFcard";
     m_frameBuffer := None;
     m_frameWidth := 640; m_frameHeight := 480;
     m_frameTimer_active := true;
     m_recordingSeconds := 0;
     recordTimeLabel_text := "00:00:00";
     status_low_space := false;
     m_lastFrameTime := 0;
     m_currentFPS := S754_zero false;
     warned := [] |}.

(** A page that shows a camera delivering frames of 2 by 1 pixels into a
    buffer of seven bytes. *)
Definition viewing_monitor : monitor :=
  with_camera
    {| Capture.cap :=
         Capture.set_capturing true
           (V4l2.set_start 1 (V4l2.Addr 0x76000000) (Capture.set_size 2 1 V4l2.opened));
       Capture.cam_fmts := []; Capture.issued := [] |}
    (Some [9; 9; 9; 9; 9; 9; 9]) 0 0 true 0 (S754_zero false) idle_monitor.

End MonitorRecording.

(** * Properties *)

(** ** The pixel converter *)

Section PixelFacts.
Import V4l2.

Lemma to_uchar_small z : 0 <= z < 256 -> to_uchar z = z.
Proof. intros H. unfold to_uchar. by apply Z.mod_small. Qed.

Lemma land_ones_range x n : 0 <= n -> 0 <= Z.land x (Z.ones n) < 2 ^ n.
Proof.
  intros Hn. rewrite Z.land_ones by done. by apply Z.mod_pos_bound, Z.pow_pos_nonneg.
Qed.

(** A property of all numbers below [n], checked one by one. *)
Lemma below_by_cases (P : Z -> Prop) `{!forall z, Decision (P z)} (n : nat) :
  Forall P (Z.of_nat <$> seq 0 n) -> forall z, 0 <= z < Z.of_nat n -> P z.
Proof.
  intros HF z Hz. rewrite Forall_forall in HF. apply HF.
  apply list_elem_of_fmap. exists (Z.to_nat z). split; [lia|].
  apply elem_of_seq. lia.
Qed.

Lemma five_bit_expansion_range r : 0 <= r < 32 ->
  0 <= Z.lor (Z.shiftl r 3) (Z.shiftr r 2) < 256.
Proof.
  apply (below_by_cases (fun r => 0 <= Z.lor (Z.shiftl r 3) (Z.shiftr r 2) < 256) 32).
  by apply (bool_decide_unpack _).
Qed.

Lemma six_bit_expansion_range g : 0 <= g < 64 ->
  0 <= Z.lor (Z.shiftl g 2) (Z.shiftr g 4) < 256.
Proof.
  apply (below_by_cases (fun g => 0 <= Z.lor (Z.shiftl g 2) (Z.shiftr g 4) < 256) 64).
  by apply (bool_decide_unpack _).
Qed.

Lemma chan_r_spec p : chan_r p = Z.land (Z.shiftr p 11) 0x1F /\ 0 <= chan_r p < 32.
Proof.
  unfold chan_r. pose proof (land_ones_range (Z.shiftr p 11) 5 ltac:(lia)) as H.
  change (Z.ones 5) with 31 in H. change (2 ^ 5) with 32 in H.
  rewrite to_uchar_small by lia. done.
Qed.

Lemma chan_g_spec p : chan_g p = Z.land (Z.shiftr p 5) 0x3F /\ 0 <= chan_g p < 64.
Proof.
  unfold chan_g. pose proof (land_ones_range (Z.shiftr p 5) 6 ltac:(lia)) as H.
  change (Z.ones 6) with 63 in H. change (2 ^ 6) with 64 in H.
  rewrite to_uchar_small by lia. done.
Qed.

Lemma chan_b_spec p : chan_b p = Z.land p 0x1F /\ 0 <= chan_b p < 32.
Proof.
  unfold chan_b. pose proof (land_ones_range p 5 ltac:(lia)) as H.
  change (Z.ones 5) with 31 in H. change (2 ^ 5) with 32 in H.
  rewrite to_uchar_small by lia. done.
Qed.

(** The three stores of one iteration write the untruncated formulas. *)
Lemma stored_R p : to_uchar (Z.lor (Z.shiftl (chan_r p) 3) (Z.shiftr (chan_r p) 2)) = spec_R p.
Proof.
  destruct (chan_r_spec p) as [E H]. rewrite to_uchar_small by by apply five_bit_expansion_range.
  by rewrite E.
Qed.
Lemma stored_G p : to_uchar (Z.lor (Z.shiftl (chan_g p) 2) (Z.shiftr (chan_g p) 4)) = spec_G p.
Proof.
  destruct (chan_g_spec p) as [E H]. rewrite to_uchar_small by by apply six_bit_expansion_range.
  by rewrite E.
Qed.
Lemma stored_B p : to_uchar (Z.lor (Z.shiftl (chan_b p) 3) (Z.shiftr (chan_b p) 2)) = spec_B p.
Proof.
  destruct (chan_b_spec p) as [E H]. rewrite to_uchar_small by by apply five_bit_expansion_range.
  by rewrite E.
Qed.

Lemma store_app_head (out : list Z) x rest v :
  store (out ++ x :: rest) (length out) v = Some (out ++ to_uchar v :: rest).
Proof.
  unfold store. rewrite decide_True by (rewrite length_app; simpl; lia).
  f_equal. rewrite insert_app_r_alt by lia. by rewrite Nat.sub_diag.
Qed.

Lemma rgb565_loop_spec todo : forall done out buf,
  length out = (3 * length done)%nat ->
  (3 * length todo <= length buf)%nat ->
  rgb565_loop (done ++ todo) (length done) (length todo) (out ++ buf)
  = Some (out ++ (todo ≫= spec_pixel) ++ drop (3 * length todo) buf).
Proof.
  induction todo as [|p todo IH]; intros done out buf Hout Hbuf.
  - simpl. by rewrite drop_0.
  - simpl length in *. cbn [rgb565_loop].
    rewrite lookup_app_r by lia. rewrite Nat.sub_diag. cbn [lookup list_lookup mbind option_bind].
    destruct buf as [|b0 [|b1 [|b2 buf]]]; simpl in Hbuf; try lia.
    replace (length done * 3 + 0)%nat with (length out) by lia.
    rewrite store_app_head. cbn [mbind option_bind].
    replace (length done * 3 + 1)%nat with (length (out ++ [spec_R p])) by (rewrite length_app; simpl; lia).
    rewrite stored_R.
    replace (out ++ spec_R p :: b1 :: b2 :: buf) with ((out ++ [spec_R p]) ++ b1 :: b2 :: buf)
      by (by rewrite <- app_assoc).
    rewrite store_app_head. cbn [mbind option_bind]. rewrite stored_G.
    replace (length done * 3 + 2)%nat with (length ((out ++ [spec_R p]) ++ [spec_G p]))
      by (rewrite !length_app; simpl; lia).
    replace ((out ++ [spec_R p]) ++ spec_G p :: b2 :: buf)
      with (((out ++ [spec_R p]) ++ [spec_G p]) ++ b2 :: buf) by (by rewrite <- !app_assoc).
    rewrite store_app_head. cbn [mbind option_bind]. rewrite stored_B.
    specialize (IH (done ++ [p]) (out ++ spec_pixel p) buf).
    rewrite !length_app in IH. simpl length in IH.
    replace (S (length done)) with (length done + 1)%nat by lia.
    replace (done ++ p :: todo) with ((done ++ [p]) ++ todo) by (by rewrite <- app_assoc).
    replace (((out ++ [spec_R p]) ++ [spec_G p]) ++ spec_B p :: buf)
      with ((out ++ spec_pixel p) ++ buf) by (unfold spec_pixel; by rewrite <- !app_assoc).
    rewrite IH by lia.
    f_equal. rewrite <- app_assoc. f_equal. cbn [mbind list_bind]. 
    rewrite <- app_assoc. f_equal. f_equal.
    replace (3 * S (length todo))%nat with (3 + 3 * length todo)%nat by lia. done.
Qed.

Lemma testbit_mask x n m : 0 <= n -> 0 <= m ->
  Z.testbit (Z.land x (Z.ones n)) m = if decide (m < n) then Z.testbit x m else false.
Proof.
  intros Hn Hm. rewrite Z.land_spec. case_decide.
  - rewrite Z.ones_spec_low by lia. by rewrite andb_true_r.
  - rewrite Z.ones_spec_high by lia. by rewrite andb_false_r.
Qed.

(** [(c << up) | (c >> down)] for a channel [c = (p >> pos) & ones w]: the
    bits from [up] on are the channel, the bits below are its top bits. *)
Lemma expansion_bits p pos w up down k :
  0 <= pos -> 0 <= k -> 0 < up -> 0 <= down -> w = up + down -> 
  let c := Z.land (Z.shiftr p pos) (Z.ones w) in
  Z.testbit (Z.lor (Z.shiftl c up) (Z.shiftr c down)) k
  = if decide (k < up) then Z.testbit p (k + down + pos)
    else if decide (k < up + w) then Z.testbit p (k - up + pos) else false.
Proof.
  intros Hpos Hk Hup Hdown Hw c. subst c.
  rewrite Z.lor_spec, Z.shiftr_spec by lia.
  rewrite (testbit_mask _ w (k + down)) by lia.
  rewrite Z.shiftr_spec by lia.
  destruct (decide (k < up)) as [Hlt|Hge].
  - rewrite Z.shiftl_spec_low by lia. rewrite decide_True by lia. done.
  - rewrite Z.shiftl_spec by lia. rewrite testbit_mask by lia.
    rewrite Z.shiftr_spec by lia.
    rewrite (decide_False (P := k + down < w)) by lia. rewrite orb_false_r.
    repeat case_decide; try lia; done.
Qed.

Lemma spec_R_bits p : replicates_high_bits (spec_R p) p 11 5.
Proof.
  unfold replicates_high_bits, spec_R. change 0x1F with (Z.ones 5).
  split_and!; intros k Hk; rewrite (expansion_bits p 11 5 3 2) by lia;
    repeat case_decide; try lia; try done; f_equal; lia.
Qed.

Lemma spec_G_bits p : replicates_high_bits (spec_G p) p 5 6.
Proof.
  unfold replicates_high_bits, spec_G. change 0x3F with (Z.ones 6).
  split_and!; intros k Hk; rewrite (expansion_bits p 5 6 2 4) by lia;
    repeat case_decide; try lia; try done; f_equal; lia.
Qed.

Lemma spec_B_bits p : replicates_high_bits (spec_B p) p 0 5.
Proof.
  unfold replicates_high_bits, spec_B. change 0x1F with (Z.ones 5).
  cbv zeta.
  replace (Z.land p (Z.ones 5)) with (Z.land (Z.shiftr p 0) (Z.ones 5))
    by (by rewrite Z.shiftr_0_r).
  split_and!; intros k Hk; rewrite (expansion_bits p 0 5 3 2) by lia;
    repeat case_decide; try lia; try done; f_equal; lia.
Qed.

Lemma bind_spec_pixel_length (src : list Z) : length (src ≫= spec_pixel) = (3 * length src)%nat.
Proof. induction src as [|p src IH]; [done|]. cbn. rewrite IH. lia. Qed.

Lemma bind_spec_pixel_lookup (src : list Z) : forall i p, src !! i = Some p ->
  (src ≫= spec_pixel) !! (3 * i)%nat = Some (spec_R p) /\
  (src ≫= spec_pixel) !! (3 * i + 1)%nat = Some (spec_G p) /\
  (src ≫= spec_pixel) !! (3 * i + 2)%nat = Some (spec_B p).
Proof.
  induction src as [|q src IH]; intros i p Hi; [done|].
  destruct i as [|i].
  - simpl in Hi. by simplify_eq.
  - simpl in Hi. destruct (IH i p Hi) as (HR & HG & HB).
    replace (3 * S i)%nat with (S (S (S (3 * i)))) by lia.
    replace (S (S (S (3 * i))) + 1)%nat with (S (S (S (3 * i + 1)))) by lia.
    replace (S (S (S (3 * i))) + 2)%nat with (S (S (S (3 * i + 2)))) by lia.
    done.
Qed.

(** C1.  The pixel converter, run on [n] RGB565 pixels and a destination of
    [3 * n] bytes, writes for every pixel [p], in input order, the three
    bytes R = (r << 3) | (r >> 2) with r = (p >> 11) & 0x1F,
    G = (g << 2) | (g >> 4) with g = (p >> 5) & 0x3F and
    B = (b << 3) | (b >> 2) with b = p & 0x1F: the result has exactly
    [3 * n] bytes, pixel [i] occupies the bytes [3 * i], [3 * i + 1] and
    [3 * i + 2], the top bits of each channel are the bits of the source
    channel and its low bits repeat the high bits of that channel. *)
Theorem rgb565_to_rgb888_correct (src dst : list Z) :
  length dst = (3 * length src)%nat ->
  rgb565_to_rgb888 src dst (Z.of_nat (length src)) = Some (src ≫= spec_pixel)
  /\ length (src ≫= spec_pixel) = (3 * length src)%nat
  /\ (forall i p, src !! i = Some p ->
        (src ≫= spec_pixel) !! (3 * i)%nat = Some (spec_R p) /\
        (src ≫= spec_pixel) !! (3 * i + 1)%nat = Some (spec_G p) /\
        (src ≫= spec_pixel) !! (3 * i + 2)%nat = Some (spec_B p))
  /\ (forall p, replicates_high_bits (spec_R p) p 11 5 /\
                 replicates_high_bits (spec_G p) p 5 6 /\
                 replicates_high_bits (spec_B p) p 0 5).
Proof.
  intros Hdst. split_and!.
  - unfold rgb565_to_rgb888. rewrite Nat2Z.id.
    pose proof (rgb565_loop_spec src [] [] dst eq_refl ltac:(lia)) as H.
    simpl in H. rewrite H. f_equal.
    rewrite drop_ge by lia. by rewrite app_nil_r.
  - apply bind_spec_pixel_length.
  - apply bind_spec_pixel_lookup.
  - intros p. split_and!; [apply spec_R_bits | apply spec_G_bits | apply spec_B_bits].
Qed.

Lemma rgb565_to_rgb888_witness :
  rgb565_to_rgb888 [0xF800; 0x07E0; 0x001F; 0x8410] (replicate 12 0) 4
  = Some [255; 0; 0; 0; 255; 0; 0; 0; 255; 132; 130; 132].
Proof.
  exact (proj1 (rgb565_to_rgb888_correct [0xF800; 0x07E0; 0x001F; 0x8410] (replicate 12 0) eq_refl)).
Defined.
End PixelFacts.

(** ** The buffer pool *)

Section BufferPool.
Import V4l2.

(** [v4l2_init_buffer] only ever adds mappings. *)
Lemma map_buffers_keeps_mappings d n : forall i st,
  mapped st `prefix_of` mapped (snd (map_buffers d i n st)).
Proof.
  induction n as [|n IH]; intros i st; [done|].
  cbn [map_buffers]. destruct (ioctl_QUERYBUF d i) as [[len off]|]; [|done].
  destruct (mmap d i len off) as [a|]; [|done].
  etrans; [|apply IH]. cbn. by apply prefix_app_r.
Qed.

Lemma v4l2_init_buffer_keeps_mappings d st :
  mapped st `prefix_of` mapped (snd (v4l2_init_buffer d st)).
Proof.
  unfold v4l2_init_buffer. destruct (ioctl_REQBUFS d _) as [count|]; [|done].
  case_decide; [|apply map_buffers_keeps_mappings].
  change (mapped st) with (mapped (print (WarnFewerBuffers count) st)).
  apply map_buffers_keeps_mappings.
Qed.

Lemma map_buffers_fails_on_refused_query d n : forall i st j,
  (i <= j < i + n)%nat -> ioctl_QUERYBUF d j = None ->
  fst (map_buffers d i n st) = -1.
Proof.
  induction n as [|n IH]; intros i st j Hj Hq; [lia|].
  cbn [map_buffers]. destruct (decide (i = j)) as [->|Hne].
  - by rewrite Hq.
  - destruct (ioctl_QUERYBUF d i) as [[len off]|]; [|done].
    destruct (mmap d i len off) as [a|]; [|done].
    apply (IH _ _ j); [lia|done].
Qed.

(** With a driver that answers only for the buffers it granted, a short
    allocation ends in an error, through the first refused query. *)
Lemma short_allocation_fails d st count :
  answers_only_granted d ->
  ioctl_REQBUFS d (Z.of_nat FRAMEBUFFER_COUNT) = Some count ->
  count < Z.of_nat FRAMEBUFFER_COUNT ->
  fst (v4l2_init_buffer d st) = -1.
Proof.
  intros Hd Hreq Hlt. unfold v4l2_init_buffer. rewrite Hreq.
  apply (map_buffers_fails_on_refused_query d FRAMEBUFFER_COUNT 0 _ (Z.to_nat (Z.max 0 count))).
  - unfold FRAMEBUFFER_COUNT in *. lia.
  - apply (Hd count); [done|lia].
Qed.

(** C7.  [v4l2_init_buffer] never unmaps anything: whatever it returns, the
    regions mapped before and during the call are still mapped.  When the
    driver grants the three buffers and the mapping of the second one
    fails, [v4l2_init_buffer] returns -1 while the first buffer is still
    mapped; [v4l2_init] then forgets the descriptor, so that [v4l2_cleanup]
    does not unmap it either.  When the driver grants two buffers only,
    [v4l2_init_buffer] prints a warning, maps both, fails on the query of
    the third and returns -1 with both still mapped. *)
Theorem init_buffer_leaves_buffers_mapped :
  (forall d st, mapped st `prefix_of` mapped (snd (v4l2_init_buffer d st))) /\
  fst (v4l2_init_buffer second_mmap_fails opened) = -1 /\
  mapped (snd (v4l2_init_buffer second_mmap_fails opened)) = [(0x76000000, 614400)] /\
  v4l2_fd (snd (v4l2_init_step5 second_mmap_fails opened)) = -1 /\
  mapped (v4l2_cleanup (snd (v4l2_init_step5 second_mmap_fails opened)))
    = [(0x76000000, 614400)] /\
  fst (v4l2_init_buffer grants_two_buffers opened) = -1 /\
  mapped (snd (v4l2_init_buffer grants_two_buffers opened))
    = [(0x76000000, 614400); (0x76000000 + 614400, 614400)] /\
  printed (snd (v4l2_init_buffer grants_two_buffers opened))
    = [WarnFewerBuffers 2; InfoMapped 0; InfoMapped 1; ErrQUERYBUF 2].
Proof.
  split; [apply v4l2_init_buffer_keeps_mappings|].
  split_and!; by vm_compute.
Qed.

End BufferPool.

(** ** Frame order and presentation timestamps *)

Section RecorderFacts.
Import Recorder.

Lemma startRecording_ok filePath width height now st :
  m_isRecording st = false ->
  exists st1, startRecording filePath width height now InitOk st = (true, st1) /\
    m_isRecording st1 = true /\ all_live st1 /\ m_frameCount st1 = 0 /\
    submitted st1 = [] /\ m_frameQueue st1 = m_frameQueue st /\ heap st1 = heap st /\
    m_filePath st1 = filePath /\ m_width st1 = width /\ m_height st1 = height.
Proof.
  intros H. unfold startRecording. rewrite H. cbn.
  eexists. split; [reflexivity|]. cbn. unfold all_live. cbn. tauto.
Qed.

Lemma first_pts_snoc n : first_pts (S n) = first_pts n ++ [Z.of_nat n].
Proof. unfold first_pts. by rewrite seq_S, fmap_app. Qed.

Lemma step_push_inv src sz st :
  segment_inv st ->
  exists st', step (push src sz) st = Some st' /\ segment_inv st' /\
    submitted st' = submitted st /\
    queued st' = queued st ++ pushed [push src sz].
Proof.
  intros [Hrec Hlive Hq Hnd Hc Hp]. cbn [step addFrameToQueue]. rewrite Hrec. cbn [negb orb].
  unfold pushed. cbn [mbind list_bind]. rewrite app_nil_r.
  case_bool_decide as Hsz.
  - eexists. split; [reflexivity|]. cbn [snd]. rewrite decide_False by lia.
    rewrite app_nil_r. by split.
  - rewrite decide_True by lia. unfold new_FrameData. cbn [snd].
    set (a := fresh (dom (heap st))).
    assert (Hfresh : heap st !! a = None).
    { apply not_elem_of_dom. apply is_fresh. }
    eexists. split; [reflexivity|]. split; [|split; [done|]].
    + split; cbn; try done.
      * apply Forall_app. split.
        -- eapply Forall_impl; [exact Hq|]. intros fd [? [p Hfd]]. split; [done|].
           exists p. rewrite lookup_insert_ne; [done|]. intros E. congruence.
        -- apply Forall_singleton. cbn. split; [lia|]. rewrite lookup_insert_eq. by eexists.
      * rewrite fmap_app. apply NoDup_app. split; [done|]. split.
        -- intros x Hx. cbn. rewrite list_elem_of_singleton. intros ->.
           apply list_elem_of_fmap in Hx as (fd & -> & Hfd).
           rewrite Forall_forall in Hq. destruct (Hq fd Hfd) as [_ [p Hp']]. congruence.
        -- cbn. apply NoDup_singleton.
    + unfold queued. cbn. rewrite fmap_app. cbn. rewrite lookup_insert_eq. cbn.
      f_equal. apply Forall_fmap_ext_1. eapply Forall_impl; [exact Hq|].
      intros fd [_ [p Hfd]]. cbn. rewrite lookup_insert_ne; [done|]. intros E. congruence.
Qed.

Lemma wrap_int_succ z : wrap_int (wrap_int z + 1) = wrap_int (z + 1).
Proof.
  unfold wrap_int.
  replace ((z + 2 ^ 31) mod 2 ^ 32 - 2 ^ 31 + 1 + 2 ^ 31)
    with ((z + 2 ^ 31) mod 2 ^ 32 + 1) by lia.
  rewrite Zplus_mod_idemp_l. f_equal. f_equal. lia.
Qed.

Lemma wrap_int_small z : - 2 ^ 31 <= z < 2 ^ 31 -> wrap_int z = z.
Proof. intros H. unfold wrap_int. rewrite Z.mod_small; lia. Qed.

Lemma processFrame_live now e fd p st :
  m_isRecording st = true -> all_live st -> 0 < size fd ->
  heap st !! data fd = Some p ->
  exists b sigs,
    processFrame now e fd st =
      Some (b, {| m_isRecording := m_isRecording st; m_shouldExit := m_shouldExit st;
                  m_filePath := m_filePath st;
                  m_frameCount := wrap_int (m_frameCount st + 1);
                  m_width := m_width st; m_height := m_height st;
                  m_frameQueue := m_frameQueue st;
                  m_formatContext := Live; m_codecContext := Live;
                  m_swsContext := Live; m_frame := Live; m_packet := Live;
                  m_startTime := m_startTime st; m_lastFrameTime := now;
                  m_totalFrames := wrap_int (m_totalFrames st + 1);
                  m_totalTime :=
                    double_add (m_totalTime st)
                      (double_div (double_of_Z (now - m_lastFrameTime st))
                                  (double_of_Z 1000000));
                  m_segmentTimer := m_segmentTimer st;
                  m_autoSegmentation := m_autoSegmentation st;
                  m_maxRecordingMinutes := m_maxRecordingMinutes st;
                  isRunning := isRunning st; heap := heap st;
                  submitted := submitted st ++ [(p, m_frameCount st)];
                  emitted := emitted st ++ sigs |}).
Proof.
  intros Hrec (Hf & Hc & Hs & Hfr & Hp) Hsz Hh.
  unfold processFrame. rewrite Hrec. cbn [negb orb].
  rewrite bool_decide_eq_false_2 by lia. rewrite Hh. cbn [mbind option_bind].
  rewrite Hs, Hfr. cbn [is_live andb].
  unfold encodeFrame, with_counters. cbn. rewrite Hf, Hc, Hp. cbn [is_live andb].
  destruct e; cbn.
  - exists true, []. by rewrite ?Hrec, ?Hs, ?Hfr, ?app_nil_r.
  - exists false, [recordError SendFrameFailed]. by rewrite ?Hrec, ?Hs, ?Hfr.
  - exists false, [recordError ReceivePacketFailed]. by rewrite ?Hrec, ?Hs, ?Hfr.
  - exists false, [recordError WritePacketFailed]. by rewrite ?Hrec, ?Hs, ?Hfr.
Qed.

Lemma step_work_inv now e st :
  segment_inv st ->
  exists st', step (work now e) st = Some st' /\ segment_inv st' /\
    (submitted st').*1 ++ queued st' = (submitted st).*1 ++ queued st /\
    length (m_frameQueue st') = pred (length (m_frameQueue st)) /\
    length (submitted st') = (length (submitted st)
                              + (if m_frameQueue st is [] then 0 else 1))%nat.
Proof.
  intros [Hrec Hlive Hq Hnd Hc Hp]. cbn [step]. unfold run_iteration.
  destruct (m_frameQueue st) as [|fd rest] eqn:Eq.
  - rewrite Hrec. exists st. split; [done|]. split; [by split; rewrite ?Eq|].
    rewrite Eq. split; [done|]. split; [done|]. cbn. lia.
  - cbn [m_isRecording with_queue]. rewrite Hrec.
    apply Forall_cons in Hq as [[Hsz [p Hh]] Hq].
    rewrite fmap_cons in Hnd. apply NoDup_cons in Hnd as [Hnotin Hnd].
    destruct (processFrame_live now e fd p (with_queue rest (heap st) st))
      as (b & sigs & E); try done.
    rewrite E. cbn [fmap option_fmap option_map mbind option_bind snd].
    eexists. split; [reflexivity|].
    assert (Hrest : Forall (fun fd' => 0 < size fd' /\
                     heap st !! data fd' = delete (data fd) (heap st) !! data fd' /\
                     is_Some (heap st !! data fd')) rest).
    { apply Forall_forall. intros fd' Hin.
      rewrite Forall_forall in Hq. destruct (Hq fd' Hin) as [? ?].
      split; [done|]. split; [|done].
      rewrite lookup_delete_ne; [done|]. intros E'.
      apply Hnotin. apply list_elem_of_fmap. exists fd'. done. }
    split; [|split; [|split]].
    + split; cbn; try done.
      * eapply Forall_impl; [exact Hrest|]. intros fd' (? & <- & ?). done.
      * rewrite length_app. cbn. rewrite Hc, wrap_int_succ. f_equal. lia.
      * rewrite fmap_app, length_app. cbn [fmap list_fmap snd length]. rewrite Hp.
        replace (length (submitted st) + 1)%nat with (S (length (submitted st))) by lia.
        change (Z.of_nat <$> seq 0 ?n) with (first_pts n).
        rewrite first_pts_snoc, fmap_app. cbn [fmap list_fmap]. by rewrite Hc.
    + unfold queued. cbn. rewrite Eq. rewrite fmap_app, fmap_cons. cbn.
      rewrite Hh. cbn. rewrite <- app_assoc. cbn. f_equal. f_equal.
      apply Forall_fmap_ext_1. eapply Forall_impl; [exact Hrest|].
      intros fd' (_ & <- & _). done.
    + done.
    + cbn. rewrite length_app. done.
Qed.

Lemma pushed_cons a l : pushed (a :: l) = pushed [a] ++ pushed l.
Proof. unfold pushed. cbn. by rewrite app_nil_r. Qed.

Lemma steps_inv actions : forall st,
  segment_inv st ->
  exists st', steps actions st = Some st' /\ segment_inv st' /\
    (submitted st').*1 ++ queued st' = (submitted st).*1 ++ queued st ++ pushed actions.
Proof.
  induction actions as [|a actions IH]; intros st Hinv.
  - exists st. by rewrite !app_nil_r.
  - rewrite pushed_cons. destruct a as [src sz|now e].
    + destruct (step_push_inv src sz st Hinv) as (st1 & E1 & Hinv1 & Hs1 & Hq1).
      destruct (IH st1 Hinv1) as (st' & E' & Hinv' & H').
      exists st'. cbn [steps]. rewrite E1. cbn [mbind option_bind].
      split; [done|]. split; [done|].
      rewrite H', Hs1, Hq1. by rewrite <- !app_assoc.
    + destruct (step_work_inv now e st Hinv) as (st1 & E1 & Hinv1 & H1 & _).
      destruct (IH st1 Hinv1) as (st' & E' & Hinv' & H').
      exists st'. cbn [steps]. rewrite E1. cbn [mbind option_bind].
      split; [done|]. split; [done|].
      change (pushed [work now e]) with (@nil (list Z)). cbn [app].
      rewrite H'. rewrite !app_assoc. by rewrite H1.
Qed.

(** Working on drains the queue, one frame per turn. *)
Lemma steps_work_drains ws : forall st,
  segment_inv st -> (length (m_frameQueue st) <= length ws)%nat ->
  exists st', steps (uncurry work <$> ws) st = Some st' /\ m_frameQueue st' = [].
Proof.
  induction ws as [|[now e] ws IH]; intros st Hinv Hlen.
  - exists st. split; [done|]. destruct (m_frameQueue st); [done|]. cbn in Hlen. lia.
  - destruct (step_work_inv now e st Hinv) as (st1 & E1 & Hinv1 & _ & Hl & _).
    destruct (IH st1 Hinv1) as (st' & E' & Hq'). { cbn in Hlen. lia. }
    exists st'. cbn [fmap list_fmap uncurry steps]. cbn [steps] in *.
    change (step (work now e) st) with (run_iteration now e st) in *.
    cbn [step] in E1. rewrite E1. done.
Qed.

Lemma first_pts_in_range n :
  Z.of_nat n <= 2 ^ 31 -> wrap_int <$> first_pts n = first_pts n.
Proof.
  intros Hn. unfold first_pts. rewrite <- list_fmap_compose.
  apply list_fmap_ext. intros i k Hk. cbn.
  apply lookup_seq in Hk as [-> Hlt]. apply wrap_int_small. lia.
Qed.

(** C4.  After a successful start of a segment the frame counter is 0 and
    nothing has been handed to the codec.  Whatever frames are pushed while
    recording, and however the pushes are interleaved with the turns of the
    worker, the run is defined, the frames handed to the codec followed by
    the frames still queued are the frames that were waiting at the start
    followed by the pushed frames in push order, and the presentation
    timestamps handed out are 0, 1, 2, ... in that order (as long as the
    count fits in an [int]).  Once the queue is empty the worker has
    processed exactly those frames (the pushed frames, when none was waiting
    at the start), and working on for as many turns as frames are queued
    empties the queue. *)
Theorem frames_encoded_in_push_order filePath width height now st0 actions :
  m_isRecording st0 = false ->
  queue_ok st0 ->
  exists st1 st2,
    startRecording filePath width height now InitOk st0 = (true, st1) /\
    m_frameCount st1 = 0 /\ submitted st1 = [] /\
    steps actions st1 = Some st2 /\
    (submitted st2).*1 ++ queued st2 = queued st0 ++ pushed actions /\
    (Z.of_nat (length (submitted st2)) <= 2 ^ 31 ->
       (submitted st2).*2 = first_pts (length (submitted st2))) /\
    (m_frameQueue st2 = [] ->
       (submitted st2).*1 = queued st0 ++ pushed actions /\
       (m_frameQueue st0 = [] ->
          (submitted st2).*1 = pushed actions /\
          length (submitted st2) = length (pushed actions))) /\
    (forall ws, (length (m_frameQueue st2) <= length ws)%nat ->
       exists st3, steps (uncurry work <$> ws) st2 = Some st3 /\
                   m_frameQueue st3 = []).
Proof.
  intros Hrec [Hq0 Hnd0].
  destruct (startRecording_ok filePath width height now st0 Hrec)
    as (st1 & E1 & Hrec1 & Hlive1 & Hc1 & Hs1 & Hq1 & Hh1 & _).
  assert (Hinv1 : segment_inv st1).
  { split; try done.
    - by rewrite Hq1, Hh1.
    - by rewrite Hq1.
    - by rewrite Hs1.
    - by rewrite Hs1. }
  destruct (steps_inv actions st1 Hinv1) as (st2 & E2 & Hinv2 & H2).
  assert (Hmain : (submitted st2).*1 ++ queued st2 = queued st0 ++ pushed actions).
  { rewrite H2, Hs1. unfold queued. by rewrite Hq1, Hh1. }
  exists st1, st2. split_and!; try done.
  - intros Hn. rewrite (inv_pts _ Hinv2). by apply first_pts_in_range.
  - intros Hq2.
    assert (E : (submitted st2).*1 = queued st0 ++ pushed actions).
    { rewrite <- Hmain. unfold queued at 1. rewrite Hq2. cbn. by rewrite app_nil_r. }
    split; [done|]. intros Hempty.
    assert (E' : (submitted st2).*1 = pushed actions).
    { rewrite E. unfold queued. by rewrite Hempty. }
    split; [done|]. by rewrite <- E', length_fmap.
  - intros ws Hws. by apply steps_work_drains.
Qed.

Lemma frames_encoded_in_push_order_witness :
  exists st1 st2,
    startRecording "/mnt/TFcard/20230101/record_103000.mp4" 1 1 0 InitOk (create 0)
      = (true, st1) /\
    steps two_frames st1 = Some st2 /\
    submitted st2 = [([10; 20; 30], 0); ([40; 50; 60], 1)].
Proof.
  destruct (frames_encoded_in_push_order
              "/mnt/TFcard/20230101/record_103000.mp4" 1 1 0 (create 0) two_frames
              eq_refl (conj (Forall_nil_2 _) (NoDup_nil_2)))
    as (st1 & st2 & E1 & _ & _ & E2 & _).
  exists st1, st2. split; [done|]. split; [done|].
  assert (E : (submitted <$> steps two_frames
     (snd (startRecording "/mnt/TFcard/20230101/record_103000.mp4" 1 1 0 InitOk (create 0))))
     = Some [([10; 20; 30], 0); ([40; 50; 60], 1)]) by (by vm_compute).
  rewrite E1 in E. cbn [snd] in E. rewrite E2 in E. by injection E.
Defined.
End RecorderFacts.

(** ** Starting twice, and pushing frames *)

Section StartAndPush.
Import Recorder.

(** C5.  When the pipeline is already recording, [startRecording] returns
    false and leaves the whole state as it was: path, dimensions,
    counters, timers, codec and container members, queue and signals. *)
Theorem startRecording_while_recording filePath width height now o st :
  m_isRecording st = true ->
  startRecording filePath width height now o st = (false, st).
Proof. intros H. unfold startRecording. by rewrite H. Qed.

Lemma startRecording_while_recording_witness :
  m_isRecording recording_state = true /\
  startRecording "/mnt/TFcard/20230101/record_110000.mp4" 320 240 77 FailOpenCodec
    recording_state = (false, recording_state).
Proof.
  split; [reflexivity|].
  apply startRecording_while_recording. reflexivity.
Defined.

(** C6.  [addFrameToQueue] returns false and changes nothing when the
    pipeline is not recording, when the frame pointer is null or when the
    size is not positive: the queue, the buffers and the signals are what
    they were.  Otherwise it returns true, the queue afterwards is the queue
    before with one more entry at its end, of the given size, whose buffer
    is at an address that was not in use and that no queued frame refers
    to; every buffer there was is still there with its bytes, no signal is
    emitted, nothing is submitted to the encoder and the pipeline is still
    recording.  The new buffer holds the first [size] bytes of the payload:
    when the payload has that many bytes, which the copy takes for granted,
    the buffer has exactly [size] bytes and byte [i] of it is byte [i] of
    the payload. *)
Theorem addFrameToQueue_spec frameData size st :
  (m_isRecording st = false \/ frameData = None \/ size <= 0 ->
     addFrameToQueue frameData size st = (false, st)) /\
  (forall src, m_isRecording st = true -> frameData = Some src -> 0 < size ->
     exists fd,
       addFrameToQueue frameData size st
         = (true, with_queue (m_frameQueue st ++ [fd])
                    (<[data fd := take (Z.to_nat size) src]> (heap st)) st) /\
       Recorder.size fd = size /\
       (data fd ∉ dom (heap st)) /\
       Forall (fun fd' => data fd' ∈ dom (heap st) -> data fd' <> data fd) (m_frameQueue st)) /\
  (forall src, m_isRecording st = true -> frameData = Some src -> 0 < size ->
     let st' := snd (addFrameToQueue frameData size st) in
     fst (addFrameToQueue frameData size st) = true /\
     (exists fd,
        m_frameQueue st' = m_frameQueue st ++ [fd] /\
        Recorder.size fd = size /\
        heap st !! data fd = None /\
        heap st' !! data fd = Some (take (Z.to_nat size) src) /\
        (forall a, a <> data fd -> heap st' !! a = heap st !! a) /\
        (size <= Z.of_nat (length src) ->
         exists bytes,
           heap st' !! data fd = Some bytes /\
           Z.of_nat (length bytes) = size /\
           forall i, (i < Z.to_nat size)%nat -> bytes !! i = src !! i)) /\
     length (m_frameQueue st') = S (length (m_frameQueue st)) /\
     emitted st' = emitted st /\ submitted st' = submitted st /\
     m_isRecording st' = true).
Proof.
  split_and!.
  - intros H. unfold addFrameToQueue. destruct frameData as [src|]; [|done].
    destruct H as [H|[H|H]]; [by rewrite H|done|].
    rewrite (bool_decide_eq_true_2 (size <= 0)) by done. by rewrite orb_true_r.
  - intros src Hrec -> Hsz. unfold addFrameToQueue, new_FrameData. rewrite Hrec.
    rewrite bool_decide_eq_false_2 by lia. cbn [negb orb].
    eexists {| data := fresh (dom (heap st)); Recorder.size := size |}.
    split; [reflexivity|]. cbn. split; [done|]. split; [apply is_fresh|].
    apply Forall_forall. intros fd' _ Hin E. rewrite E in Hin.
    by apply is_fresh in Hin.
  - intros src Hrec -> Hsz. unfold addFrameToQueue, new_FrameData. rewrite Hrec.
    rewrite bool_decide_eq_false_2 by lia. cbn [negb orb fst snd].
    split_and!; try done.
    + exists {| data := fresh (dom (heap st)); Recorder.size := size |}.
      cbn. split_and!; try done.
      * apply not_elem_of_dom, is_fresh.
      * apply lookup_insert_eq.
      * intros a Ha. by apply lookup_insert_ne.
      * intros Hlen. eexists. split; [apply lookup_insert_eq|]. split.
        -- rewrite length_take. lia.
        -- intros i Hi. by apply lookup_take_lt.
    + cbn. rewrite length_app. cbn. lia.
Qed.

Lemma addFrameToQueue_spec_witness :
  addFrameToQueue None 3 recording_state = (false, recording_state) /\
  exists fd, addFrameToQueue (Some [1; 2; 3]) 3 recording_state
    = (true, with_queue [fd] {[ data fd := [1; 2; 3] ]} recording_state).
Proof.
  destruct (addFrameToQueue_spec None 3 recording_state) as [H _].
  split; [apply H; tauto|].
  destruct (addFrameToQueue_spec (Some [1; 2; 3]) 3 recording_state) as (_ & H' & _).
  destruct (H' [1; 2; 3] eq_refl eq_refl ltac:(lia)) as (fd & E & _).
  exists fd. rewrite E. reflexivity.
Defined.
End StartAndPush.

(** ** Renaming a finished segment *)

Section SegmentRename.
Import Monitor.

Lemma recorder_stop_emits_nothing r :
  Recorder.emitted (Recorder.stopRecording r) = Recorder.emitted r.
Proof. unfold Recorder.stopRecording. by destruct (Recorder.m_isRecording r). Qed.

(** C8, as stated, fails: the file system may refuse the rename.  On a page
    recording since 10:30 into [record_103000.mp4], stopped at 11:00 with no
    file named [10:30-11:00.mp4] in the way, a refused rename leaves the
    working name in place and no file of the target name; the page logs a
    warning and shows the completion box with the working name. *)
Lemma stopRecording_rename_refused_counterexample :
  let st := recording_page {[ "/mnt/TFcard/20230101/record_103000.mp4" ]} in
  let st' := stopRecording dir_of (at_time 11 0) false st in
  (m_isRecording st = true /\
   m_currentVideoFile st = "/mnt/TFcard/20230101/record_103000.mp4" /\
   target_path dir_of (at_time 11 0) st = "/mnt/TFcard/20230101/10:30-11:00.mp4" /\
   ("/mnt/TFcard/20230101/10:30-11:00.mp4" ∉ files st) /\
   m_currentVideoFile st' = "/mnt/TFcard/20230101/record_103000.mp4" /\
   files st' = {[ "/mnt/TFcard/20230101/record_103000.mp4" ]} /\
   "/mnt/TFcard/20230101/10:30-11:00.mp4" ∉ files st') /\
  ~ always_renamed_claim.
Proof.
  cbv zeta. split.
  - split_and!; try reflexivity; by apply (bool_decide_unpack _).
  - intros H.
    specialize (H dir_of (at_time 11 0) false
                  (recording_page {[ "/mnt/TFcard/20230101/record_103000.mp4" ]})
                  eq_refl ltac:(done)).
    cbv zeta in H. destruct H as [H _].
    + by apply (bool_decide_unpack _).
    + discriminate H.
Qed.

(** C8, amended.  When a recording with a working file is stopped, the
    target name is the start time and the end time in HH:mm format joined
    by ['-'] with the extension [.mp4], in the directory of the working file
    (start 10:30 and end 11:00 give [10:30-11:00.mp4]).  If a file of that
    name exists, nothing is renamed, the working file name is kept and the
    page only logs a warning and shows the usual completion box.  If it does
    not exist, the working file exists and the file system performs the
    rename, the file carries the target name afterwards.  If it does not
    exist and the rename fails, because the working file is missing or the
    file system refuses, the working file name is kept, no file appears or
    disappears, and the page logs a warning and shows the completion box
    with the working name.  In every case the recorder emits no error and
    the page is no longer recording. *)
Theorem stopRecording_renames dir_absolutePath recordingEndTime os_ok st :
  m_isRecording st = true ->
  m_currentVideoFile st <> "" ->
  let current := m_currentVideoFile st in
  let target := target_path dir_absolutePath recordingEndTime st in
  let st' := stopRecording dir_absolutePath recordingEndTime os_ok st in
  (target ∈ files st ->
     m_currentVideoFile st' = current /\ files st' = files st /\
     shown st' = shown st ++ [information_recording_done current] /\
     logged st' = logged st ++ [qWarning_target_exists target current]) /\
  (target ∉ files st -> current ∈ files st -> os_ok = true ->
     m_currentVideoFile st' = target /\
     files st' = {[target]} ∪ files st ∖ {[current]} /\
     shown st' = shown st ++ [information_recording_done target] /\
     logged st' = logged st ++ [qInfo_renamed target]) /\
  (target ∉ files st -> current ∉ files st \/ os_ok = false ->
     m_currentVideoFile st' = current /\ files st' = files st /\
     shown st' = shown st ++ [information_recording_done current] /\
     logged st' = logged st ++ [qWarning_rename_failed current target]) /\
  (Recorder.emitted <$> m_videoRecorder st' = Recorder.emitted <$> m_videoRecorder st) /\
  m_isRecording st' = false /\
  newVideoFileName "10:30" "11:00" = "10:30-11:00.mp4" /\
  (hour (m_recordingStartTime st) = 10%nat -> minute (m_recordingStartTime st) = 30%nat ->
   hour recordingEndTime = 11%nat -> minute recordingEndTime = 0%nat ->
   target = dir_absolutePath current +:+ "/10:30-11:00.mp4").
Proof.
  intros Hrec Hcur. cbv zeta. unfold stopRecording, target_path. rewrite Hrec. cbn [negb].
  rewrite bool_decide_eq_false_2 by done.
  split_and!.
  - intros Hin. rewrite bool_decide_eq_true_2 by done. done.
  - intros Hout Hsrc ->. rewrite bool_decide_eq_false_2 by done.
    unfold rename. rewrite bool_decide_eq_true_2 by done.
    rewrite bool_decide_eq_false_2 by done. done.
  - intros Hout Hfail. rewrite bool_decide_eq_false_2 by done.
    unfold rename. destruct Hfail as [Hsrc| ->].
    + rewrite (bool_decide_eq_false_2 (_ ∈ files st)) by done. done.
    + by rewrite andb_false_r.
  - case_bool_decide; [|destruct (rename _ _ _ _)]; cbn;
      destruct (m_videoRecorder st); cbn; by rewrite ?recorder_stop_emits_nothing.
  - case_bool_decide; [|destruct (rename _ _ _ _)]; done.
  - done.
  - unfold toString_HHmm. intros -> -> -> ->. done.
Qed.

Lemma stopRecording_renames_witness :
  let st := recording_page {[ "/mnt/TFcard/20230101/record_103000.mp4" ]} in
  let st' := stopRecording dir_of (at_time 11 0) true st in
  m_currentVideoFile st' = "/mnt/TFcard/20230101/10:30-11:00.mp4" /\
  files st' = {[ "/mnt/TFcard/20230101/10:30-11:00.mp4" ]}
              ∪ {[ "/mnt/TFcard/20230101/record_103000.mp4" ]}
              ∖ {[ "/mnt/TFcard/20230101/record_103000.mp4" ]}.
Proof.
  cbv zeta.
  pose proof (stopRecording_renames dir_of (at_time 11 0) true
                (recording_page {[ "/mnt/TFcard/20230101/record_103000.mp4" ]})
                eq_refl ltac:(done)) as (_ & H & _).
  destruct H as (H1 & H2 & _).
  - by apply (bool_decide_unpack _).
  - by apply (bool_decide_unpack _).
  - reflexivity.
  - split; [exact H1 | exact H2].
Defined.
End SegmentRename.

(** ** The free-space threshold and the periodic check *)

Section StorageFacts.
Import Storage.
Local Open Scope storage_scope.

Lemma keeps_ret {A} (x : A) : keeps_threshold (ret x).
Proof. done. Qed.
Lemma keeps_get : keeps_threshold get.
Proof. done. Qed.
Lemma keeps_emit sig : keeps_threshold (emit sig).
Proof. done. Qed.
Lemma keeps_set_env w : keeps_threshold (set_env w).
Proof. done. Qed.
Lemma keeps_set_timer t : keeps_threshold (set_timer t).
Proof. done. Qed.
Lemma keeps_bind {A B} (m : M A) (k : A -> M B) :
  keeps_threshold m -> (forall x, keeps_threshold (k x)) -> keeps_threshold (bind m k).
Proof.
  intros Hm Hk s. unfold bind. specialize (Hm s).
  destruct (m s) as [x s']. simpl in *. by rewrite Hk.
Qed.
Lemma keeps_if {A} (b : bool) (m1 m2 : M A) :
  keeps_threshold m1 -> keeps_threshold m2 -> keeps_threshold (if b then m1 else m2).
Proof. by destruct b. Qed.
Lemma keeps_decide {A} P `{Decision P} (m1 m2 : M A) :
  keeps_threshold m1 -> keeps_threshold m2 -> keeps_threshold (if decide P then m1 else m2).
Proof. by case_decide. Qed.

Create HintDb threshold.
Hint Resolve keeps_ret keeps_get keeps_emit keeps_set_env keeps_set_timer
  keeps_if keeps_decide : threshold.
Hint Extern 2 (keeps_threshold (bind _ _)) => apply keeps_bind; [|intros ?] : threshold.

Lemma keeps_refresh : keeps_threshold refresh.
Proof. unfold refresh. auto 10 with threshold. Qed.
Hint Resolve keeps_refresh : threshold.

Lemma keeps_checkStorageSpace : keeps_threshold checkStorageSpace.
Proof. unfold checkStorageSpace. auto 12 with threshold. Qed.
Hint Resolve keeps_checkStorageSpace : threshold.

Lemma keeps_cleanupOldestDay : keeps_threshold cleanupOldestDay.
Proof.
  unfold cleanupOldestDay. apply keeps_bind; [auto with threshold|]. intros s.
  apply keeps_if; [auto with threshold|].
  destruct (filter _ _); [auto with threshold|].
  destruct (removeRecursively _ _ _) as [[] w]; auto 10 with threshold.
Qed.
Hint Resolve keeps_cleanupOldestDay : threshold.

Lemma keeps_performAutoCheck : keeps_threshold performAutoCheck.
Proof. unfold performAutoCheck. auto 12 with threshold. Qed.
Hint Resolve keeps_performAutoCheck : threshold.

Lemma keeps_startAutoCheck i : keeps_threshold (startAutoCheck i).
Proof. unfold startAutoCheck. auto 12 with threshold. Qed.
Lemma keeps_stopAutoCheck : keeps_threshold stopAutoCheck.
Proof. unfold stopAutoCheck. auto 12 with threshold. Qed.
Lemma keeps_timeout : keeps_threshold timeout.
Proof. unfold timeout. auto 12 with threshold. Qed.
Lemma keeps_setStoragePath p : keeps_threshold (setStoragePath p).
Proof. intros s. unfold setStoragePath. by case_bool_decide. Qed.

Lemma setMinFreeSpacePercent_clamps p s :
  m_minFreeSpacePercent (snd (setMinFreeSpacePercent p s)) = Z.min 100 (Z.max 0 p).
Proof.
  unfold setMinFreeSpacePercent.
  repeat case_decide; simpl; lia.
Qed.

Lemma perform_threshold_range o s :
  0 <= m_minFreeSpacePercent s <= 100 ->
  0 <= m_minFreeSpacePercent (perform o s) <= 100.
Proof.
  intros H. destruct o; simpl.
  - by rewrite keeps_setStoragePath.
  - rewrite setMinFreeSpacePercent_clamps. lia.
  - by rewrite keeps_checkStorageSpace.
  - by rewrite keeps_cleanupOldestDay.
  - by rewrite keeps_startAutoCheck.
  - by rewrite keeps_stopAutoCheck.
  - by rewrite keeps_timeout.
Qed.

(** C9.  [setMinFreeSpacePercent p] stores [min 100 (max 0 p)]; a new
    manager has the threshold 10; after any sequence of operations on a new
    manager the threshold lies between 0 and 100. *)
Theorem threshold_clamped_and_in_range :
  (forall p s, m_minFreeSpacePercent (snd (setMinFreeSpacePercent p s))
               = Z.min 100 (Z.max 0 p))
  /\ (forall path w, m_minFreeSpacePercent (StorageManager path w) = 10)
  /\ (forall ops path w,
        0 <= m_minFreeSpacePercent (perform_all ops (StorageManager path w)) <= 100).
Proof.
  split_and!.
  - apply setMinFreeSpacePercent_clamps.
  - done.
  - intros ops path w. unfold perform_all.
    assert (H : 0 <= m_minFreeSpacePercent (StorageManager path w) <= 100) by (simpl; lia).
    revert H. generalize (StorageManager path w).
    induction ops as [|o ops IH]; intros s H; [done|].
    simpl. apply IH. by apply perform_threshold_range.
Qed.

Lemma checkStorageSpace_unfold s :
  checkStorageSpace s =
  let storage := next_report s in
  let w := env s in
  let s1 := {| m_storagePath := m_storagePath s;
               m_minFreeSpacePercent := m_minFreeSpacePercent s;
               m_checkTimer := m_checkTimer s;
               env := {| tick := S (tick w); report := report w;
                         dirs := dirs w; can_mkpath := can_mkpath w |};
               emitted := emitted s |} in
  let low a t p := {| m_storagePath := m_storagePath s;
               m_minFreeSpacePercent := m_minFreeSpacePercent s;
               m_checkTimer := m_checkTimer s;
               env := env s1;
               emitted := emitted s ++ [lowStorageSpace a t p] |} in
  if negb (isValid storage) || negb (isReady storage)
  then (false, low 0 0 (S754_zero false))
  else if decide (bytesTotal storage > 0)
       then if double_ltb (percentage (bytesAvailable storage) (bytesTotal storage))
                          (double_of_Z (m_minFreeSpacePercent s))
            then (false, low (bytesAvailable storage) (bytesTotal storage)
                             (percentage (bytesAvailable storage) (bytesTotal storage)))
            else (true, s1)
       else (false, low (bytesAvailable storage) (bytesTotal storage) (S754_zero false)).
Proof.
  unfold checkStorageSpace, refresh, bind, get, set_env, ret, emit, next_report. simpl.
  destruct (negb _ || negb _); [done|].
  case_decide; [|done].
  by destruct (double_ltb _ _).
Qed.

(** The outcomes of [checkStorageSpace].  It never changes the path, the
    threshold, the timer or the directories.  On an invalid or unready
    volume it returns false and emits [lowStorageSpace 0 0 0.0]; on a valid,
    ready volume whose total is not positive it returns false, without
    dividing, and emits the event with the figures read and 0.0; otherwise
    it returns true exactly when the percentage computed in double
    precision is not below the minimum. *)
Lemma checkStorageSpace_cases s :
  let storage := next_report s in
  let available := bytesAvailable storage in
  let total := bytesTotal storage in
  let percent := percentage available total in
  let result := fst (checkStorageSpace s) in
  let s' := snd (checkStorageSpace s) in
  (m_storagePath s' = m_storagePath s /\
   m_minFreeSpacePercent s' = m_minFreeSpacePercent s /\
   m_checkTimer s' = m_checkTimer s /\ dirs (env s') = dirs (env s)) /\
  (isValid storage = false \/ isReady storage = false ->
     result = false /\
     emitted s' = emitted s ++ [lowStorageSpace 0 0 (S754_zero false)]) /\
  (isValid storage = true -> isReady storage = true -> total <= 0 ->
     result = false /\
     emitted s' = emitted s ++ [lowStorageSpace available total (S754_zero false)]) /\
  (isValid storage = true -> isReady storage = true -> total > 0 ->
     (result = true <->
      double_ltb percent (double_of_Z (m_minFreeSpacePercent s)) = false) /\
     (result = true -> emitted s' = emitted s) /\
     (result = false ->
      emitted s' = emitted s ++ [lowStorageSpace available total percent])).
Proof.
  cbv zeta. rewrite checkStorageSpace_unfold. cbv zeta.
  destruct (isValid (next_report s)), (isReady (next_report s)); simpl;
    repeat case_decide;
    try destruct (double_ltb _ _) eqn:E; simpl;
    split_and!; try done; try lia; intros; try done; try lia;
    try (split_and!; done); try (destruct_or!; done).
Qed.

(** C2.  The rule of the claim is the rule of the function's own
    documentation (true when the available percentage is greater than or
    equal to the threshold), and the code does not follow it.  On a valid,
    ready card of 100 GiB with 29 GiB available and a minimum of 29, the
    available share is exactly 29 percent of the total, yet
    [checkStorageSpace] returns false and emits [lowStorageSpace] with the
    two byte counts and the percentage 28.999999999999996, which is what
    the division and the product give in double precision.  So the rule
    read in exact arithmetic does not hold of the code. *)
Theorem checkStorageSpace_false_at_exact_threshold :
  let s := card_29_of_100 in
  let storage := next_report s in
  isValid storage = true /\ isReady storage = true /\
  bytesAvailable storage = 29 * 2 ^ 30 /\ bytesTotal storage = 100 * 2 ^ 30 /\
  m_minFreeSpacePercent s = 29 /\
  100 * bytesAvailable storage = m_minFreeSpacePercent s * bytesTotal storage /\
  fst (checkStorageSpace s) = false /\
  emitted (snd (checkStorageSpace s))
  = [lowStorageSpace (29 * 2 ^ 30) (100 * 2 ^ 30) (S754_finite false 8162774324609023 (-48))] /\
  double_ltb (S754_finite false 8162774324609023 (-48))
    (double_of_Z 29) = true /\
  ~ exact_threshold_claim.
Proof.
  cbv zeta.
  repeat (split; [vm_compute; reflexivity|]).
  intros H. specialize (H card_29_of_100 eq_refl eq_refl ltac:(done)).
  destruct H as [_ H].
  assert (Hc : fst (checkStorageSpace card_29_of_100) = false) by (by vm_compute).
  rewrite Hc in H. discriminate H. by vm_compute.
Qed.

Lemma checkStorageSpace_tick s :
  tick (env (snd (checkStorageSpace s))) = S (tick (env s)).
Proof.
  rewrite checkStorageSpace_unfold. cbv zeta.
  destruct (negb _ || negb _); [done|]. case_decide; [|done].
  by destruct (double_ltb _ _).
Qed.

Lemma cleanupOldestDay_tick s :
  tick (env (snd (cleanupOldestDay s))) = tick (env s).
Proof.
  unfold cleanupOldestDay, bind, get, ret, emit, set_env. simpl.
  case_bool_decide; [done|].
  destruct (filter _ _) as [|d l] eqn:E; [done|].
  unfold removeRecursively. rewrite E.
  destruct (removable d); done.
Qed.

Lemma performAutoCheck_tick s :
  (tick (env s) < tick (env (snd (performAutoCheck s))))%nat.
Proof.
  unfold performAutoCheck, bind, ret.
  pose proof (checkStorageSpace_tick s) as H1.
  destruct (checkStorageSpace s) as [[] s1]; simpl in *; [lia|].
  pose proof (cleanupOldestDay_tick s1) as H2.
  destruct (cleanupOldestDay s1) as [[] s2]; simpl in *; [|lia].
  pose proof (checkStorageSpace_tick s2) as H3.
  destruct (checkStorageSpace s2) as [? s3]; simpl in *. lia.
Qed.

(** C10.  For an interval that is not positive, [startAutoCheck] changes
    nothing at all.  For a positive interval it runs one check cycle (the
    volume is read at least once) and then arms the timer with that
    interval, changing nothing else after the cycle. *)
Theorem startAutoCheck_guard interval s :
  (interval <= 0 -> startAutoCheck interval s = (tt, s)) /\
  (interval > 0 ->
     let s1 := snd (performAutoCheck s) in
     let s' := snd (startAutoCheck interval s) in
     (tick (env s) < tick (env s1))%nat /\
     m_checkTimer s' = {| isActive := true; interval := interval |} /\
     m_storagePath s' = m_storagePath s1 /\
     m_minFreeSpacePercent s' = m_minFreeSpacePercent s1 /\
     env s' = env s1 /\ emitted s' = emitted s1).
Proof.
  unfold startAutoCheck. split; intros H.
  - by rewrite decide_True.
  - rewrite decide_False by lia. cbv zeta. split; [apply performAutoCheck_tick|].
    unfold bind. by destruct (performAutoCheck s) as [[] s1].
Qed.

Lemma startAutoCheck_guard_witness :
  startAutoCheck 0 card_29_of_100 = (tt, card_29_of_100) /\
  m_checkTimer (snd (startAutoCheck 3600000 card_29_of_100))
  = {| isActive := true; interval := 3600000 |}.
Proof.
  split.
  - apply (proj1 (startAutoCheck_guard 0 card_29_of_100)). lia.
  - apply (proj2 (startAutoCheck_guard 3600000 card_29_of_100)). lia.
Defined.
End StorageFacts.

(** ** Choosing the directory to delete *)

Section RetentionFacts.
Import Storage.
Local Open Scope storage_scope.

Lemma is_date_name_nonempty n : is_date_name n -> n <> "".
Proof. intros H ->. done. Qed.

Lemma head_merge_sort_min (l : list string) :
  l <> [] ->
  exists m, head (merge_sort String.le l) = Some m /\ m ∈ l /\
            forall n, n ∈ l -> String.le m n.
Proof.
  intros Hl.
  pose proof (StronglySorted_merge_sort String.le l) as Hs.
  pose proof (merge_sort_Permutation String.le l) as Hp.
  destruct (merge_sort String.le l) as [|m rest].
  - apply Permutation_nil_l in Hp. by subst.
  - exists m. split; [done|]. split.
    + rewrite <- Hp. left.
    + intros n Hn. rewrite <- Hp in Hn.
      apply StronglySorted_inv in Hs as [_ Hall].
      apply elem_of_cons in Hn as [->|Hn]; [done|].
      rewrite Forall_forall in Hall. by apply Hall.
Qed.

Lemma getOldestDateDir_none s : candidates s = [] -> getOldestDateDir s = "".
Proof.
  unfold candidates, getOldestDateDir. intros H.
  destruct (entryList _ _); [done|]. by rewrite H.
Qed.

Lemma getOldestDateDir_min s :
  candidates s <> [] ->
  getOldestDateDir s ∈ candidates s /\
  forall n, n ∈ candidates s -> String.le (getOldestDateDir s) n.
Proof.
  unfold candidates, getOldestDateDir. intros H.
  destruct (entryList _ _) as [|x l] eqn:E; [done|].
  destruct (head_merge_sort_min _ H) as (m & Hm & Hin & Hle).
  destruct (filter _ (x :: l)) as [|y l'] eqn:E'; [done|].
  by rewrite Hm.
Qed.

Lemma candidates_spec s n :
  n ∈ candidates s <-> n ∈ entryList (env s) (m_storagePath s) /\ is_date_name n.
Proof. unfold candidates. rewrite list_elem_of_filter. tauto. Qed.

Lemma cleanupOldestDay_no_candidates s :
  candidates s = [] ->
  cleanupOldestDay s = (false, after_signal (cleanupFailed NoDateDirectory) s).
Proof.
  intros H. unfold cleanupOldestDay, bind, get. simpl.
  by rewrite (getOldestDateDir_none s H).
Qed.

Lemma cleanupOldestDay_candidate s :
  candidates s <> [] ->
  exists d,
    d ∈ entries s /\ name d = getOldestDateDir s /\
    cleanupOldestDay s =
      if removable d
      then (true, after_signal (cleanupCompleted (getOldestDateDir s) (getDirSize d))
                    (without_dir (getOldestDateDir s) s))
      else (false, after_signal
                     (cleanupFailed (RemoveFailed
                        (m_storagePath s +:+ "/" +:+ getOldestDateDir s))) s).
Proof.
  intros H. destruct (getOldestDateDir_min s H) as [Hin _].
  apply candidates_spec in Hin as [Hin Hdate].
  unfold entryList in Hin. apply list_elem_of_fmap in Hin as (d & Hd & Hdin).
  set (m := getOldestDateDir s) in *.
  assert (Hf : d ∈ filter (fun d => name d = m) (entries s)).
  { apply list_elem_of_filter. done. }
  destruct (filter (fun d => name d = m) (entries s)) as [|d0 l] eqn:E.
  { by apply not_elem_of_nil in Hf. }
  assert (Hd0 : d0 ∈ filter (fun d => name d = m) (entries s)) by (rewrite E; left).
  apply list_elem_of_filter in Hd0 as [Hn0 Hin0].
  exists d0. split; [done|]. split; [done|].
  unfold cleanupOldestDay, bind, get. simpl. fold m.
  rewrite bool_decide_eq_false_2 by (by apply is_date_name_nonempty).
  unfold entries in E. rewrite E.
  unfold removeRecursively. rewrite E.
  destruct (removable d0); reflexivity.
Qed.

Lemma entryList_without_dir dirName s :
  entryList (env (without_dir dirName s)) (m_storagePath s)
  = filter (fun n => n <> dirName) (entryList (env s) (m_storagePath s)).
Proof.
  unfold entryList, without_dir. simpl. rewrite lookup_insert_eq. simpl.
  fold (entries s). induction (entries s) as [|d l IH]; [done|].
  rewrite fmap_cons, !filter_cons. repeat case_decide; try done; by rewrite ?fmap_cons, IH.
Qed.

Lemma cleanupOldestDay_only_removes_oldest s n :
  n ∈ entryList (env s) (m_storagePath s) ->
  n ∉ entryList (env (snd (cleanupOldestDay s))) (m_storagePath s) ->
  n = getOldestDateDir s /\ is_date_name n.
Proof.
  intros Hin Hout.
  destruct (decide (candidates s = [])) as [He|Hne].
  - rewrite cleanupOldestDay_no_candidates in Hout by done. done.
  - destruct (cleanupOldestDay_candidate s Hne) as (d & _ & _ & E).
    rewrite E in Hout. destruct (removable d); cbn [snd] in Hout; [|done].
    change (env (after_signal ?x ?y)) with (env y) in Hout.
    rewrite entryList_without_dir in Hout.
    rewrite list_elem_of_filter in Hout.
    destruct (decide (n = getOldestDateDir s)) as [->|Hneq]; [|tauto].
    split; [done|].
    destruct (getOldestDateDir_min s Hne) as [Hc _].
    by apply candidates_spec in Hc as [_ ?].
Qed.

Lemma is_date_name_spec n :
  is_date_name n <->
  String.length n = 8%nat /\
  forall c, c ∈ String.list_ascii_of_string n ->
            (nat_of_ascii "0" <= nat_of_ascii c <= nat_of_ascii "9")%nat.
Proof.
  unfold is_date_name. rewrite andb_True, bool_decide_spec.
  rewrite forallb_True, Forall_forall. unfold is_digit.
  setoid_rewrite bool_decide_spec. done.
Qed.

Lemma example_oldest s :
  entryList (env s) (m_storagePath s) ≡ₚ example_root ->
  getOldestDateDir s = "20221231".
Proof.
  intros Hp.
  assert (Hc : forall n, n ∈ candidates s <-> n ∈ ["20230101"; "20230215"; "20221231"]).
  { intros n. rewrite candidates_spec, Hp. unfold example_root.
    rewrite !elem_of_cons, !elem_of_nil. split.
    - intros [[->|[->|[->|[->|[]]]]] Hd]; first [tauto | done].
    - intros [->|[->|[->|[]]]]; (split; [tauto|done]). }
  assert (Hold : "20221231" ∈ candidates s).
  { apply Hc. rewrite !elem_of_cons. tauto. }
  assert (Hne : candidates s <> []).
  { intros E. rewrite E in Hold. by apply not_elem_of_nil in Hold. }
  destruct (getOldestDateDir_min s Hne) as [Hin Hmin].
  specialize (Hmin "20221231" Hold).
  apply Hc in Hin. rewrite !elem_of_cons, elem_of_nil in Hin.
  destruct Hin as [E|[E|[E|[]]]]; rewrite E in *; done.
Qed.

(** C3.  [cleanupOldestDay] considers exactly the subdirectories whose name
    is made of 8 decimal digits.  When there is none it returns false, the
    one signal it emits is [cleanupFailed], and the directories are left as
    they were.  Otherwise the directory it selects is one of them and is the
    smallest of them in lexicographic order, and the outcome of the call is
    the removal of that directory or the failure to remove it: it returns
    true exactly when the file system lets the directory be removed; then
    the one signal it emits is [cleanupCompleted] with the name and the size
    of the directory, and the root lists what it listed before without that
    name; when the removal fails the one signal is [cleanupFailed] and
    nothing is removed.  On the root [20230101, 20230215, notadate,
    20221231] the selected directory is [20221231].  A directory that is
    gone after the call is the selected one, so its name matches the
    pattern. *)
Theorem cleanupOldestDay_selects_oldest s :
  let names := entryList (env s) (m_storagePath s) in
  let result := fst (cleanupOldestDay s) in
  let s' := snd (cleanupOldestDay s) in
  (forall n, n ∈ candidates s <-> n ∈ names /\ is_date_name n) /\
  (forall n, is_date_name n <->
     String.length n = 8%nat /\
     forall c, c ∈ String.list_ascii_of_string n ->
               (nat_of_ascii "0" <= nat_of_ascii c <= nat_of_ascii "9")%nat) /\
  (candidates s = [] ->
     cleanupOldestDay s = (false, after_signal (cleanupFailed NoDateDirectory) s)) /\
  (candidates s = [] ->
     result = false /\
     emitted s' = emitted s ++ [cleanupFailed NoDateDirectory] /\
     env s' = env s) /\
  (candidates s <> [] ->
     exists d, d ∈ entries s /\ name d = getOldestDateDir s /\
       result = removable d /\
       (removable d = true ->
          emitted s'
          = emitted s ++ [cleanupCompleted (getOldestDateDir s) (getDirSize d)] /\
          entryList (env s') (m_storagePath s)
          = filter (fun n => n <> getOldestDateDir s) names) /\
       (removable d = false ->
          emitted s'
          = emitted s ++ [cleanupFailed (RemoveFailed
                            (m_storagePath s +:+ "/" +:+ getOldestDateDir s))] /\
          env s' = env s)) /\
  (candidates s <> [] ->
     getOldestDateDir s ∈ candidates s /\
     (forall n, n ∈ candidates s -> String.le (getOldestDateDir s) n) /\
     exists d, d ∈ entries s /\ name d = getOldestDateDir s /\
       cleanupOldestDay s =
         if removable d
         then (true, after_signal
                       (cleanupCompleted (getOldestDateDir s) (getDirSize d))
                       (without_dir (getOldestDateDir s) s))
         else (false, after_signal
                        (cleanupFailed (RemoveFailed
                           (m_storagePath s +:+ "/" +:+ getOldestDateDir s))) s)) /\
  (names ≡ₚ example_root -> getOldestDateDir s = "20221231") /\
  (forall n, n ∈ names ->
     n ∉ entryList (env (snd (cleanupOldestDay s))) (m_storagePath s) ->
     n = getOldestDateDir s /\ is_date_name n).
Proof.
  cbv zeta. split_and!.
  - apply candidates_spec.
  - apply is_date_name_spec.
  - apply cleanupOldestDay_no_candidates.
  - intros H. by rewrite cleanupOldestDay_no_candidates.
  - intros H. destruct (cleanupOldestDay_candidate s H) as (d & Hd & Hn & E).
    exists d. rewrite E. split_and!; [done|done|by destruct (removable d)| |].
    + intros ->. split; [done|]. cbn [snd].
      change (env (after_signal ?x ?y)) with (env y).
      apply entryList_without_dir.
    + by intros ->.
  - intros H. destruct (getOldestDateDir_min s H) as [H1 H2].
    split_and!; [done|done|]. by apply cleanupOldestDay_candidate.
  - apply example_oldest.
  - apply cleanupOldestDay_only_removes_oldest.
Qed.

Lemma cleanupOldestDay_selects_oldest_witness :
  getOldestDateDir example_manager = "20221231" /\
  candidates example_manager <> [].
Proof.
  assert (Hne : candidates example_manager <> []) by (by vm_compute).
  split; [|done].
  pose proof (cleanupOldestDay_selects_oldest example_manager)
    as (_ & _ & _ & _ & _ & _ & H & _).
  apply H. change (example_root ≡ₚ example_root). done.
Defined.
End RetentionFacts.

(** ** Opening the camera *)

Section CaptureFacts.
Import Capture.

Lemma enum_loop_spec d : forall fuel index fmts,
  (length fmts - index < fuel)%nat ->
  exists fmts',
    enum_loop d fuel index fmts = Some fmts' /\
    length fmts' = length fmts /\
    (forall i, (i < index)%nat -> fmts' !! i = fmts !! i) /\
    (forall i f, (index <= i < length fmts)%nat ->
       (forall j, (index <= j <= i)%nat -> is_Some (dev_ENUM_FMT d j)) ->
       dev_ENUM_FMT d i = Some f -> fmts' !! i = Some f) /\
    (forall i j, (index <= j <= i)%nat -> dev_ENUM_FMT d j = None ->
       fmts' !! i = fmts !! i).
Proof.
  induction fuel as [|fuel IH]; intros index fmts Hfuel.
  - lia.
  - cbn [enum_loop]. destruct (dev_ENUM_FMT d index) as [f|] eqn:E.
    + case_decide as Hlt.
      * destruct (IH (S index) (<[index := f]> fmts)) as (fmts' & -> & Hlen & Hlow & Hset & Hkeep).
        { rewrite length_insert. lia. }
        rewrite length_insert in Hlen, Hset.
        exists fmts'. split; [done|]. split; [done|]. split_and!.
        -- intros i Hi. rewrite Hlow by lia. by rewrite list_lookup_insert_ne by lia.
        -- intros i g Hi Hall Hg. destruct (decide (i = index)) as [->|Hne].
           ++ rewrite Hlow by lia. rewrite list_lookup_insert_eq by lia. congruence.
           ++ apply Hset; [lia| |done]. intros j Hj. apply Hall. lia.
        -- intros i j Hj Hnone. destruct (decide (j = index)) as [->|Hne]; [congruence|].
           rewrite (Hkeep i j) by (done || lia).
           rewrite list_lookup_insert_ne; [done|lia].
      * exists fmts. split_and!; try done.
        intros i g Hi. lia.
    + exists fmts. split_and!; try done.
      intros i g Hi Hall Hg. destruct (Hall index ltac:(lia)) as [? ?]. congruence.
Qed.

Lemma v4l2_enum_formats_keeps d fuel st :
  (length (cam_fmts st) < fuel)%nat ->
  exists st',
    v4l2_enum_formats d fuel st = Some st' /\
    cap st' = cap st /\ issued st' = issued st.
Proof.
  intros Hfuel. unfold v4l2_enum_formats.
  destruct (enum_loop_spec d fuel 0 (cam_fmts st)) as (fmts' & -> & _); [lia|].
  by eexists.
Qed.

(** X1.  [v4l2_enum_formats] always returns: with one more turn than the
    table has entries the loop ends.  It never writes outside the table
    (its length is kept), stores format [i] at index [i] as long as the
    driver has answered every index up to [i], leaves every entry from the
    first refused index on as it was, and touches neither the capture state
    nor the requests issued. *)
Theorem v4l2_enum_formats_bounded d fuel st :
  (length (cam_fmts st) < fuel)%nat ->
  exists st',
    v4l2_enum_formats d fuel st = Some st' /\
    cap st' = cap st /\ issued st' = issued st /\
    length (cam_fmts st') = length (cam_fmts st) /\
    (forall i f, (i < length (cam_fmts st))%nat ->
       (forall j, (j <= i)%nat -> is_Some (dev_ENUM_FMT d j)) ->
       dev_ENUM_FMT d i = Some f -> cam_fmts st' !! i = Some f) /\
    (forall i j, (j <= i)%nat -> dev_ENUM_FMT d j = None ->
       cam_fmts st' !! i = cam_fmts st !! i).
Proof.
  intros Hfuel. unfold v4l2_enum_formats.
  destruct (enum_loop_spec d fuel 0 (cam_fmts st)) as (fmts' & -> & Hlen & _ & Hset & Hkeep);
    [lia|].
  eexists. split; [reflexivity|]. cbn. split_and!; try done.
  - intros i f Hi Hall Hf. apply Hset; [lia| |done]. intros j Hj. apply Hall. lia.
  - intros i j Hj. apply Hkeep. lia.
Qed.

Lemma v4l2_enum_formats_bounded_witness :
  exists st', v4l2_enum_formats good_camera 11 initial = Some st' /\
    cam_fmts st' !! 0%nat = Some {| description := "RGB565"; pixelformat := 0x50424752 |}.
Proof.
  destruct (v4l2_enum_formats_bounded good_camera 11 initial) as (st' & E & _ & _ & _ & H & _).
  { cbn. lia. }
  exists st'. split; [done|]. apply H.
  - cbn. lia.
  - intros j Hj. assert (j = 0%nat) as -> by lia. by eexists.
  - reflexivity.
Defined.

Lemma map_buffers_ret_indep d n : forall i st1 st2,
  fst (V4l2.map_buffers d i n st1) = fst (V4l2.map_buffers d i n st2).
Proof.
  induction n as [|n IH]; intros i st1 st2; [done|].
  cbn [V4l2.map_buffers]. destruct (V4l2.ioctl_QUERYBUF d i) as [[len off]|]; [|done].
  destruct (V4l2.mmap d i len off); [apply IH|done].
Qed.

Lemma v4l2_init_buffer_ret d st1 st2 :
  fst (V4l2.v4l2_init_buffer d st1) = fst (V4l2.v4l2_init_buffer d st2) /\
  (fst (V4l2.v4l2_init_buffer d st1) = 0 \/ fst (V4l2.v4l2_init_buffer d st1) = -1).
Proof.
  unfold V4l2.v4l2_init_buffer. destruct (V4l2.ioctl_REQBUFS d _); [|by split; [|right]].
  split; [apply map_buffers_ret_indep|].
  generalize (if decide (z < Z.of_nat V4l2.FRAMEBUFFER_COUNT)
              then V4l2.print (V4l2.WarnFewerBuffers z) st1 else st1).
  generalize 0%nat. unfold V4l2.FRAMEBUFFER_COUNT.
  generalize 3%nat. intros n. induction n as [|n IH]; intros i c; [by left|].
  cbn [V4l2.map_buffers]. destruct (V4l2.ioctl_QUERYBUF d i) as [[len off]|]; [|by right].
  destruct (V4l2.mmap d i len off); [apply IH|by right].
Qed.

Lemma map_buffers_keeps_fd d n : forall i st,
  V4l2.v4l2_fd (snd (V4l2.map_buffers d i n st)) = V4l2.v4l2_fd st /\
  V4l2.frm_width (snd (V4l2.map_buffers d i n st)) = V4l2.frm_width st /\
  V4l2.frm_height (snd (V4l2.map_buffers d i n st)) = V4l2.frm_height st /\
  V4l2.is_capturing (snd (V4l2.map_buffers d i n st)) = V4l2.is_capturing st.
Proof.
  induction n as [|n IH]; intros i st; [done|].
  cbn [V4l2.map_buffers]. destruct (V4l2.ioctl_QUERYBUF d i) as [[len off]|]; [|done].
  destruct (V4l2.mmap d i len off); [|done].
  destruct (IH (S i) (V4l2.print (V4l2.InfoMapped i)
     (V4l2.set_mapped (V4l2.mapped (V4l2.set_start i (V4l2.Addr z) (V4l2.set_length i len st)) ++ [(z, len)])
        (V4l2.set_start i (V4l2.Addr z) (V4l2.set_length i len st))))) as (-> & -> & -> & ->).
  done.
Qed.

Lemma v4l2_init_buffer_keeps_fd d st :
  V4l2.v4l2_fd (snd (V4l2.v4l2_init_buffer d st)) = V4l2.v4l2_fd st /\
  V4l2.frm_width (snd (V4l2.v4l2_init_buffer d st)) = V4l2.frm_width st /\
  V4l2.frm_height (snd (V4l2.v4l2_init_buffer d st)) = V4l2.frm_height st /\
  V4l2.is_capturing (snd (V4l2.v4l2_init_buffer d st)) = V4l2.is_capturing st.
Proof.
  unfold V4l2.v4l2_init_buffer. destruct (V4l2.ioctl_REQBUFS d _); [|done].
  case_decide; [|apply map_buffers_keeps_fd].
  exact (map_buffers_keeps_fd d V4l2.FRAMEBUFFER_COUNT 0
           (V4l2.print (V4l2.WarnFewerBuffers z) st)).
Qed.

(** X2.  [v4l2_init] returns 0 or -1.  It returns 0 exactly when the device
    opens, reports both the capture and the streaming capability, accepts
    RGB565 at some size and lets the three buffers be queried and mapped;
    then the descriptor is the one returned by [open] and the frame size is
    the one the driver left in the format structure.  On every failure the
    descriptor variable is negative afterwards.  No queueing or streaming
    request is issued and the capturing flag is not touched. *)
Theorem v4l2_init_outcome h d st :
  let r := fst (v4l2_init h d st) in
  let st' := snd (v4l2_init h d st) in
  (r = 0 \/ r = -1) /\
  (r = 0 <-> exists w hh, accepted h d w hh) /\
  (forall w hh, accepted h d w hh ->
     V4l2.v4l2_fd (cap st') = dev_open d /\
     V4l2.frm_width (cap st') = wrap_int w /\
     V4l2.frm_height (cap st') = wrap_int hh) /\
  (r <> 0 -> V4l2.v4l2_fd (cap st') < 0) /\
  issued st' = issued st /\
  V4l2.is_capturing (cap st') = V4l2.is_capturing (cap st).
Proof.
  cbv zeta. unfold v4l2_init, accepted, close_and_fail.
  assert (Hrefuse : forall (r : Z) (st' : wrapper),
    r = -1 -> V4l2.v4l2_fd (cap st') < 0 -> issued st' = issued st ->
    V4l2.is_capturing (cap st') = V4l2.is_capturing (cap st) ->
    ~ (exists w hh, accepted h d w hh) ->
    (r = 0 \/ r = -1) /\
    (r = 0 <-> exists w hh, accepted h d w hh) /\
    (forall w hh, accepted h d w hh ->
       V4l2.v4l2_fd (cap st') = dev_open d /\
       V4l2.frm_width (cap st') = wrap_int w /\
       V4l2.frm_height (cap st') = wrap_int hh) /\
    (r <> 0 -> V4l2.v4l2_fd (cap st') < 0) /\
    issued st' = issued st /\
    V4l2.is_capturing (cap st') = V4l2.is_capturing (cap st)).
  { intros r st' -> Hfd Hiss Hcp Hno. split_and!; try done; try (by right).
    intros w hh Ha. destruct Hno. by exists w, hh. }
  unfold accepted in Hrefuse.
  case_decide as Hopen.
  { apply Hrefuse; [done|cbn; lia|done|done|]. intros (w & hh & ? & _). lia. }
  destruct (dev_QUERYCAP d) as [caps|] eqn:Ecap.
  2:{ apply Hrefuse; [done|done|done|done|].
      intros (w & hh & _ & (c & ? & _) & _). done. }
  case_decide as Hvc.
  { apply Hrefuse; [done|done|done|done|].
    intros (w & hh & _ & (c & ? & ? & _) & _). congruence. }
  case_decide as Hs.
  { apply Hrefuse; [done|done|done|done|].
    intros (w & hh & _ & (c & ? & ? & ?) & _). congruence. }
  destruct (v4l2_enum_formats_keeps d (S (length (cam_fmts st)))
              (with_cap (set_fd (dev_open d) (cap st)) st))
    as (st1 & E1 & Hcap1 & Hiss1); [cbn; lia|].
  cbn [cam_fmts with_cap] in *. rewrite E1.
  unfold v4l2_set_format. destruct (dev_S_FMT d) as [[[fmt w] hh]|] eqn:Efmt.
  2:{ apply Hrefuse; [done|done|done|cbn; by rewrite Hcap1|].
      intros (w & hh & _ & _ & ? & _). done. }
  case_decide as Hfmt.
  { apply Hrefuse; [done|done|done|cbn; by rewrite Hcap1|].
    intros (w' & hh' & _ & _ & ? & _). congruence. }
  rewrite decide_False by lia.
  unfold V4l2.v4l2_init_step5.
  set (c1 := cap (with_cap _ st1)).
  pose proof (v4l2_init_buffer_ret (dev_buffers d) c1 V4l2.initial) as [Hret Hcases].
  pose proof (v4l2_init_buffer_keeps_fd (dev_buffers d) c1) as (Hfd & Hw & Hh & Hc).
  destruct (V4l2.v4l2_init_buffer (dev_buffers d) c1) as [ret c2] eqn:Ebuf.
  cbn [fst snd] in *.
  assert (Hc1 : V4l2.v4l2_fd c1 = dev_open d /\ V4l2.frm_width c1 = wrap_int w /\
                V4l2.frm_height c1 = wrap_int hh /\
                V4l2.is_capturing c1 = V4l2.is_capturing (cap st)).
  { subst c1. cbn. rewrite Hcap1. done. }
  destruct Hc1 as (Hfd1 & Hw1 & Hh1 & Hcp1).
  case_decide as Hneg.
  - destruct Hcases as [?|Hm]; [lia|].
    apply Hrefuse; [done|done|done|cbn; congruence|].
    intros (w' & hh' & _ & _ & _ & Hb). rewrite <- Hret in Hb. lia.
  - destruct Hcases as [Hz|?]; [|lia]. cbn. split_and!; try done; try (by left).
    + split; [|done]. intros _. exists w, hh. split_and!; try done; try lia.
      all: first [by exists caps | by rewrite <- Hfmt | by rewrite <- Hret].
    + intros w' hh' (_ & _ & Hf & _). rewrite <- Hfmt in Hf. simplify_eq.
      rewrite Hfd, Hw, Hh. done.
    + congruence.
Qed.

Lemma v4l2_init_outcome_witness :
  fst (v4l2_init linux_videodev2 good_camera initial) = 0 /\
  V4l2.frm_width (cap (snd (v4l2_init linux_videodev2 good_camera initial))) = 640.
Proof.
  pose proof (v4l2_init_outcome linux_videodev2 good_camera initial) as (_ & H1 & H2 & _).
  assert (Ha : accepted linux_videodev2 good_camera 640 480).
  { split_and!; try done. by exists 0x04000001. }
  split.
  - apply H1. by exists 640, 480.
  - by destruct (H2 640 480 Ha) as (_ & -> & _).
Defined.
End CaptureFacts.

(** ** Bounds of the pixel conversion *)

Section ConversionBounds.
Import V4l2.

Lemma store_length dst k v dst' : store dst k v = Some dst' -> length dst' = length dst.
Proof.
  unfold store. case_decide; [|done]. intros [= <-]. by rewrite length_insert.
Qed.

Lemma store_defined dst k v : (k < length dst)%nat -> is_Some (store dst k v).
Proof. intros H. unfold store. rewrite decide_True by done. by eexists. Qed.

Lemma store_undefined dst k v : (length dst <= k)%nat -> store dst k v = None.
Proof. intros H. unfold store. rewrite decide_False by lia. done. Qed.

Lemma rgb565_loop_undefined_iff src n : forall i dst,
  rgb565_loop src i n dst = None <->
  (0 < n)%nat /\ ((length src < i + n)%nat \/ (length dst < 3 * (i + n))%nat).
Proof.
  induction n as [|n IH]; intros i dst; cbn [rgb565_loop].
  - split; [done|lia].
  - destruct (src !! i) as [p|] eqn:Ep; cbn [mbind option_bind].
    2:{ apply lookup_ge_None in Ep. split; [lia|done]. }
    apply lookup_lt_Some in Ep.
    destruct (decide (length dst < 3 * i + 3)%nat) as [Hshort|Hlong].
    + split; [lia|intros _].
      destruct (store dst (i * 3 + 0) _) as [d1|] eqn:E1; cbn [mbind option_bind]; [|done].
      pose proof (store_length _ _ _ _ E1) as L1.
      destruct (store d1 (i * 3 + 1) _) as [d2|] eqn:E2; cbn [mbind option_bind]; [|done].
      pose proof (store_length _ _ _ _ E2) as L2.
      rewrite store_undefined; [done|].
      unfold store in E1, E2. repeat case_decide; try done. lia.
    + destruct (store_defined dst (i * 3 + 0)
        (Z.lor (Z.shiftl (chan_r p) 3) (Z.shiftr (chan_r p) 2)) ltac:(lia)) as [d1 E1].
      rewrite E1. cbn [mbind option_bind]. pose proof (store_length _ _ _ _ E1) as L1.
      destruct (store_defined d1 (i * 3 + 1)
        (Z.lor (Z.shiftl (chan_g p) 2) (Z.shiftr (chan_g p) 4)) ltac:(lia)) as [d2 E2].
      rewrite E2. cbn [mbind option_bind]. pose proof (store_length _ _ _ _ E2) as L2.
      destruct (store_defined d2 (i * 3 + 2)
        (Z.lor (Z.shiftl (chan_b p) 3) (Z.shiftr (chan_b p) 2)) ltac:(lia)) as [d3 E3].
      rewrite E3. cbn [mbind option_bind]. pose proof (store_length _ _ _ _ E3) as L3.
      rewrite IH. lia.
Qed.

Lemma rgb565_loop_ext src src' n : forall i dst,
  (forall k, (i <= k < i + n)%nat -> src !! k = src' !! k) ->
  rgb565_loop src i n dst = rgb565_loop src' i n dst.
Proof.
  induction n as [|n IH]; intros i dst Hagree; cbn [rgb565_loop]; [done|].
  rewrite <- (Hagree i) by lia.
  destruct (src !! i) as [p|]; cbn [mbind option_bind]; [|done].
  destruct (store dst _ _) as [d1|]; cbn [mbind option_bind]; [|done].
  destruct (store d1 _ _) as [d2|]; cbn [mbind option_bind]; [|done].
  destruct (store d2 _ _) as [d3|]; cbn [mbind option_bind]; [|done].
  apply IH. intros k Hk. apply Hagree. lia.
Qed.

Lemma rgb565_to_rgb888_prefix src dst pixels :
  0 <= pixels <= Z.of_nat (length src) ->
  3 * pixels <= Z.of_nat (length dst) ->
  rgb565_to_rgb888 src dst pixels
  = Some ((take (Z.to_nat pixels) src ≫= spec_pixel) ++ drop (3 * Z.to_nat pixels) dst).
Proof.
  intros Hsrc Hdst. unfold rgb565_to_rgb888.
  rewrite (rgb565_loop_ext src (take (Z.to_nat pixels) src)).
  2:{ intros k Hk. by rewrite lookup_take_lt by lia. }
  pose proof (rgb565_loop_spec (take (Z.to_nat pixels) src) [] [] dst eq_refl) as H.
  rewrite length_take, Nat.min_l in H by lia. apply H. lia.
Qed.

(** X3.  For a pixel count whose byte count [3 * pixels] fits an [int], so
    that the index arithmetic [i * 3 + 2] of the loop does not overflow,
    [rgb565_to_rgb888] reads past its source or writes past its destination
    exactly when it is asked for at least one pixel and the source holds
    fewer pixels than asked or the destination fewer than three bytes per
    pixel; for a count that is zero or negative it is always defined. *)
Theorem rgb565_to_rgb888_undefined_iff src dst pixels :
  3 * pixels <= 2147483647 ->
  (rgb565_to_rgb888 src dst pixels = None <->
   0 < pixels /\ (Z.of_nat (length src) < pixels \/ Z.of_nat (length dst) < 3 * pixels)).
Proof.
  intros _. unfold rgb565_to_rgb888. rewrite rgb565_loop_undefined_iff. lia.
Qed.

Lemma rgb565_to_rgb888_undefined_iff_witness :
  3 * 2 <= 2147483647 /\
  rgb565_to_rgb888 [63488; 2016] [0; 0; 0; 0; 0] 2 = None /\
  rgb565_to_rgb888 [63488; 2016] [0; 0; 0; 0; 0; 0] 2 <> None.
Proof.
  split; [lia|]. split.
  - apply (rgb565_to_rgb888_undefined_iff [63488; 2016] [0; 0; 0; 0; 0] 2); [lia|].
    simpl. lia.
  - intros H.
    apply (rgb565_to_rgb888_undefined_iff [63488; 2016] [0; 0; 0; 0; 0; 0] 2) in H; [|lia].
    simpl in H. lia.
Defined.

End ConversionBounds.

(** ** Starting the stream *)

Section StreamFacts.
Import Capture.

(** The queueing loop hands the buffers over in index order and stops at the
    first refusal. *)
Lemma queue_all_spec qbuf_ok n : forall i st,
  exists k,
    (k <= n)%nat /\
    cap (snd (queue_all qbuf_ok i n st)) = cap st /\
    issued (snd (queue_all qbuf_ok i n st)) = issued st ++ (QBUF <$> seq i k) /\
    (forall j, (i <= j)%nat -> (S j < i + k)%nat -> qbuf_ok j = true) /\
    (if fst (queue_all qbuf_ok i n st)
     then k = n /\ forall j, (i <= j < i + n)%nat -> qbuf_ok j = true
     else (0 < k)%nat /\ qbuf_ok (i + k - 1)%nat = false).
Proof.
  induction n as [|n IH]; intros i st; cbn [queue_all].
  - exists 0%nat. cbn. rewrite app_nil_r. split_and!; try done; intros; lia.
  - destruct (qbuf_ok i) eqn:E.
    + destruct (IH (S i) (issue (QBUF i) st)) as (k & Hk & Hcap & Hiss & Hall & Hend).
      exists (S k). split; [lia|]. split; [done|]. split.
      { rewrite Hiss. cbn. by rewrite <- app_assoc. }
      split.
      { intros j Hj1 Hj2. destruct (decide (j = i)) as [->|]; [done|]. apply Hall; lia. }
      destruct (fst (queue_all qbuf_ok (S i) n (issue (QBUF i) st))).
      * destruct Hend as [-> Hend]. split; [done|].
        intros j Hj. destruct (decide (j = i)) as [->|]; [done|]. apply Hend; lia.
      * destruct Hend as [Hpos Hend]. split; [lia|].
        by replace (i + S k - 1)%nat with (S i + k - 1)%nat by lia.
    + exists 1%nat. cbn. split_and!; try done; try (intros; lia).
      by replace (i + 1 - 1)%nat with i by lia.
Qed.

(** X4.  [v4l2_start_capture] returns 0 or -1; 0 exactly when the device is
    open and either the stream already runs or all three buffers are queued
    and [VIDIOC_STREAMON] succeeds.  After 0 the capturing flag is set; after
    -1 the capture state is what it was: nothing is unmapped or closed.
    Buffers are queued in index order up to the first refusal, and
    [VIDIOC_STREAMON] is issued only after all three were queued, never on a
    closed device or a running stream. *)
Theorem v4l2_start_capture_outcome qbuf_ok streamon_ok st :
  let r := fst (v4l2_start_capture qbuf_ok streamon_ok st) in
  let st' := snd (v4l2_start_capture qbuf_ok streamon_ok st) in
  let requests := drop (length (issued st)) (issued st') in
  (r = 0 \/ r = -1) /\
  (r = 0 <->
     0 <= V4l2.v4l2_fd (cap st) /\
     (V4l2.is_capturing (cap st) = true \/
      (forall i, (i < V4l2.FRAMEBUFFER_COUNT)%nat -> qbuf_ok i = true) /\
      streamon_ok = true)) /\
  (r = 0 -> V4l2.is_capturing (cap st') = true) /\
  (r = -1 -> cap st' = cap st) /\
  V4l2.v4l2_fd (cap st') = V4l2.v4l2_fd (cap st) /\
  V4l2.buf_infos (cap st') = V4l2.buf_infos (cap st) /\
  V4l2.mapped (cap st') = V4l2.mapped (cap st) /\
  issued st' = issued st ++ requests /\
  (forall i, QBUF i ∈ requests <->
     0 <= V4l2.v4l2_fd (cap st) /\ V4l2.is_capturing (cap st) = false /\
     (i < V4l2.FRAMEBUFFER_COUNT)%nat /\
     forall j, (j < i)%nat -> qbuf_ok j = true) /\
  (STREAMON ∈ requests <->
     0 <= V4l2.v4l2_fd (cap st) /\ V4l2.is_capturing (cap st) = false /\
     forall i, (i < V4l2.FRAMEBUFFER_COUNT)%nat -> qbuf_ok i = true).
Proof.
  cbv zeta. unfold v4l2_start_capture.
  case_decide as Hfd.
  { cbn [fst snd]. rewrite drop_all, app_nil_r.
    split_and!; try done; try (by right).
    - split; [done|lia].
    - intros i. rewrite elem_of_nil. split; [done|lia].
    - rewrite elem_of_nil. split; [done|lia]. }
  destruct (V4l2.is_capturing (cap st)) eqn:Hcap.
  { cbn [fst snd]. rewrite drop_all, app_nil_r.
    split_and!; try done; try (by left).
    - split; [intros _; split; [lia|by left]|done].
    - intros i. rewrite elem_of_nil. split; [done|]. by intros (_ & ? & _).
    - rewrite elem_of_nil. split; [done|]. by intros (_ & ? & _). }
  unfold v4l2_stream_on.
  destruct (queue_all_spec qbuf_ok V4l2.FRAMEBUFFER_COUNT 0 st)
    as (k & Hk & Hc & Hiss & Hall & Hend).
  destruct (queue_all qbuf_ok 0 V4l2.FRAMEBUFFER_COUNT st) as [ok st1].
  cbn [fst snd] in *.
  assert (HQ : forall (l : list stream_call) i,
            (forall x, x ∈ l -> x = STREAMON) ->
            QBUF i ∈ (QBUF <$> seq 0 k) ++ l <->
            0 <= V4l2.v4l2_fd (cap st) /\ false = false /\
            (i < V4l2.FRAMEBUFFER_COUNT)%nat /\
            (forall j : nat, (j < i)%nat -> qbuf_ok j = true)).
  { intros l i Hl. rewrite elem_of_app, list_elem_of_fmap. split.
    - intros [(j & [= <-] & Hj)|Hin]; [|by apply Hl in Hin].
      apply elem_of_seq in Hj. split_and!; try done; try lia.
      intros j' Hj'. apply Hall; lia.
    - intros (_ & _ & Hi & Hbefore). left. exists i. split; [done|].
      apply elem_of_seq. split; [lia|]. cbn.
      destruct ok; [lia|]. destruct Hend as [Hpos Hlast].
      destruct (decide (i < k)%nat) as [|Hge]; [done|].
      rewrite Hbefore in Hlast by lia. done. }
  assert (HS : forall l, STREAMON ∈ (QBUF <$> seq 0 k) ++ l <-> STREAMON ∈ l).
  { intros l. rewrite elem_of_app, list_elem_of_fmap. split; [|by right].
    by intros [(j & ? & _)|?]. }
  destruct ok.
  - destruct Hend as [-> Hend].
    assert (Hthree : forall i, (i < V4l2.FRAMEBUFFER_COUNT)%nat -> qbuf_ok i = true).
    { intros i Hi. apply Hend. lia. }
    destruct streamon_ok; cbn [fst snd issue issued cap with_cap set_capturing
      V4l2.is_capturing V4l2.v4l2_fd V4l2.buf_infos V4l2.mapped];
      rewrite Hiss, <- app_assoc, drop_app_length, ?Hc.
    + split_and!; try done; try (by left).
      * split; [intros _; split; [lia|by right]|done].
      * intros i. apply HQ. intros x Hx. by apply list_elem_of_singleton in Hx.
      * rewrite HS, list_elem_of_singleton. split; [intros _; split; [lia|done]|done].
    + split_and!; try done; try (by right).
      * split; [done|]. intros (_ & [?|[_ ?]]); done.
      * intros i. apply HQ. intros x Hx. by apply list_elem_of_singleton in Hx.
      * rewrite HS, list_elem_of_singleton. split; [intros _; split; [lia|done]|done].
  - destruct Hend as [Hpos Hlast]. cbn [fst snd].
    rewrite Hiss, drop_app_length, ?Hc.
    split_and!; try done; try (by right).
    + split; [done|]. intros (_ & [?|[Hthree _]]); [done|].
      rewrite Hthree in Hlast; [done|lia].
    + intros i. specialize (HQ [] i). rewrite app_nil_r in HQ. apply HQ.
      intros x Hx. by apply elem_of_nil in Hx.
    + specialize (HS []). rewrite app_nil_r in HS. rewrite HS, elem_of_nil.
      split; [done|]. intros (_ & _ & Hthree). rewrite Hthree in Hlast; [done|lia].
Qed.
End StreamFacts.

(** ** Fetching a frame *)

Section FrameFacts.
Import Capture.

Lemma rgb565_to_rgb888_partial src dst pixels :
  pixels <= Z.of_nat (length src) ->
  3 * pixels <= Z.of_nat (length dst) ->
  V4l2.rgb565_to_rgb888 src dst pixels
  = Some ((take (Z.to_nat pixels) src ≫= V4l2.spec_pixel) ++ drop (3 * Z.to_nat pixels) dst).
Proof.
  intros Hsrc Hdst. destruct (decide (0 <= pixels)) as [Hpos|Hneg].
  - by apply rgb565_to_rgb888_prefix.
  - unfold V4l2.rgb565_to_rgb888. replace (Z.to_nat pixels) with 0%nat by lia. done.
Qed.

Lemma get_frame_ready index pixels qbuf_ok dst w h a st :
  0 <= V4l2.v4l2_fd (cap st) ->
  V4l2.is_capturing (cap st) = true ->
  (index < V4l2.FRAMEBUFFER_COUNT)%nat ->
  V4l2.start <$> V4l2.buf_infos (cap st) !! index = Some (V4l2.Addr a) ->
  let n := wrap_int (V4l2.frm_width (cap st) * V4l2.frm_height (cap st)) in
  n <= Z.of_nat (length pixels) ->
  3 * n <= Z.of_nat (length dst) ->
  v4l2_get_frame (DqBuffer index pixels) qbuf_ok (Some dst) (Some w) (Some h) st
  = Some ({| ret := if qbuf_ok then 0 else -1;
             data := Some ((take (Z.to_nat n) pixels ≫= V4l2.spec_pixel)
                           ++ drop (3 * Z.to_nat n) dst);
             width := Some (V4l2.frm_width (cap st));
             height := Some (V4l2.frm_height (cap st)) |},
           issue (QBUF index) (issue DQBUF st)).
Proof.
  intros Hfd Hcap Hindex Hstart n Hsrc Hdst. unfold v4l2_get_frame.
  rewrite decide_False by lia. rewrite Hcap. cbn [negb].
  rewrite decide_False by lia. cbn [cap issue]. rewrite Hstart.
  fold n. rewrite rgb565_to_rgb888_partial by done. done.
Qed.

(** X5.  On an open, capturing device, when the driver hands out a mapped
    buffer below [FRAMEBUFFER_COUNT] that holds at least width x height
    pixels and the caller's buffer has room for them, [v4l2_get_frame]
    writes the RGB888 expansion of the first width x height pixels at the
    start of the caller's buffer and leaves the bytes behind them alone,
    stores the frame size, and hands the buffer back with [VIDIOC_QBUF]
    right after [VIDIOC_DQBUF].  It returns 0 if that succeeds and -1
    otherwise, although the frame has been written by then. *)
Theorem v4l2_get_frame_converts index pixels qbuf_ok dst w h a st :
  0 <= V4l2.v4l2_fd (cap st) ->
  V4l2.is_capturing (cap st) = true ->
  (index < V4l2.FRAMEBUFFER_COUNT)%nat ->
  V4l2.start <$> V4l2.buf_infos (cap st) !! index = Some (V4l2.Addr a) ->
  let n := wrap_int (V4l2.frm_width (cap st) * V4l2.frm_height (cap st)) in
  n <= Z.of_nat (length pixels) ->
  3 * n <= Z.of_nat (length dst) ->
  v4l2_get_frame (DqBuffer index pixels) qbuf_ok (Some dst) (Some w) (Some h) st
  = Some ({| ret := if qbuf_ok then 0 else -1;
             data := Some ((take (Z.to_nat n) pixels ≫= V4l2.spec_pixel)
                           ++ drop (3 * Z.to_nat n) dst);
             width := Some (V4l2.frm_width (cap st));
             height := Some (V4l2.frm_height (cap st)) |},
           issue (QBUF index) (issue DQBUF st)).
Proof. apply get_frame_ready. Qed.

Lemma v4l2_get_frame_converts_witness :
  let st := {| cap := set_capturing true
                 (V4l2.set_start 1 (V4l2.Addr 0x76000000) (set_size 2 1 V4l2.opened));
               cam_fmts := []; issued := [] |} in
  v4l2_get_frame (DqBuffer 1 [0xF800; 0x001F; 0xFFFF]) false
    (Some [9; 9; 9; 9; 9; 9; 9]) (Some 0) (Some 0) st
  = Some ({| ret := -1; data := Some [255; 0; 0; 0; 0; 255; 9];
             width := Some 2; height := Some 1 |},
          issue (QBUF 1) (issue DQBUF st)).
Proof.
  cbv zeta.
  refine (v4l2_get_frame_converts 1 [0xF800; 0x001F; 0xFFFF] false
            [9; 9; 9; 9; 9; 9; 9] 0 0 0x76000000 _ _ _ _ _ _ _).
  - cbn. lia.
  - reflexivity.
  - unfold V4l2.FRAMEBUFFER_COUNT. lia.
  - reflexivity.
  - vm_compute. discriminate.
  - vm_compute. discriminate.
Defined.

Local Ltac frame_case index pixels :=
  try done; try (by right); try (by intros []);
  try (intros ? Hno; by destruct (Hno index pixels));
  try (intros ? ? _ [= <- <-] ?; first [lia|done]).

(** X6.  Whenever [v4l2_get_frame] returns, the capture state is unchanged
    and the value is 0 or -1.  On a closed or idle device, or with a null
    argument, it issues no request and leaves the outputs alone.  When
    nothing can be dequeued, or the index dequeued is out of range, the only
    request is [VIDIOC_DQBUF], the outputs are left alone and the buffer is
    not handed back.  A buffer with an index in range is always handed back,
    also when its start pointer is null.  The value 0 means that a mapped
    buffer in range was converted, queued again, and the frame size
    stored. *)
Theorem v4l2_get_frame_outcome dq qbuf_ok data w h st res st' :
  v4l2_get_frame dq qbuf_ok data w h st = Some (res, st') ->
  let requests := drop (length (issued st)) (issued st') in
  let ready := 0 <= V4l2.v4l2_fd (cap st) /\ V4l2.is_capturing (cap st) = true /\
               is_Some data /\ is_Some w /\ is_Some h in
  cap st' = cap st /\
  issued st' = issued st ++ requests /\
  (ret res = 0 \/ ret res = -1) /\
  (~ ready -> requests = [] /\
     res = {| ret := -1; data := data; width := w; height := h |}) /\
  (ready -> (forall index pixels, dq <> DqBuffer index pixels) ->
     requests = [DQBUF] /\
     res = {| ret := -1; data := data; width := w; height := h |}) /\
  (forall index pixels, ready -> dq = DqBuffer index pixels ->
     (V4l2.FRAMEBUFFER_COUNT <= index)%nat ->
     requests = [DQBUF] /\
     res = {| ret := -1; data := data; width := w; height := h |}) /\
  (forall index pixels, ready -> dq = DqBuffer index pixels ->
     (index < V4l2.FRAMEBUFFER_COUNT)%nat ->
     requests = [DQBUF; QBUF index]) /\
  (ret res = 0 ->
     ready /\ qbuf_ok = true /\
     width res = Some (V4l2.frm_width (cap st)) /\
     height res = Some (V4l2.frm_height (cap st)) /\
     exists index pixels a,
       dq = DqBuffer index pixels /\ (index < V4l2.FRAMEBUFFER_COUNT)%nat /\
       V4l2.start <$> V4l2.buf_infos (cap st) !! index = Some (V4l2.Addr a)).
Proof.
  cbv zeta. unfold v4l2_get_frame. intros E.
  case_decide as Hfd.
  { simplify_eq. rewrite drop_all, app_nil_r. cbn.
    split_and!; try done; try (by right); try (intros; lia); try (intros ? ? (? & _); lia). }
  destruct (V4l2.is_capturing (cap st)) eqn:Hcap; cbn [negb] in E.
  2:{ simplify_eq. rewrite drop_all, app_nil_r. cbn.
      split_and!; try done; try (by right); try (by intros (_ & ? & _));
        try (by intros ? ? (_ & ? & _)). }
  destruct data as [dst|]; [destruct w as [w|]; [destruct h as [h|]|]|].
  2,3,4: simplify_eq; rewrite drop_all, app_nil_r; cbn;
    split_and!; try done; try (by right);
    try (by intros (_ & _ & ? & ? & ?); repeat match goal with H : is_Some None |- _ => destruct H end);
    try (by intros ? ? (_ & _ & ? & ? & ?); repeat match goal with H : is_Some None |- _ => destruct H end).
  assert (Hready : 0 <= V4l2.v4l2_fd (cap st) /\ true = true /\
                   is_Some (Some dst) /\ is_Some (Some w) /\ is_Some (Some h)).
  { split_and!; try done; try lia. }
  destruct dq as [| |index pixels].
  1,2: simplify_eq; cbn; rewrite drop_app_length;
    split_and!; try done; try (by right); try (by intros []); try (by intros ? ? ? ?).
  case_decide as Hindex.
  { simplify_eq. cbn. rewrite drop_app_length.
    split_and!; frame_case index pixels. }
  cbn [cap issue] in E.
  destruct (V4l2.buf_infos (cap st) !! index) as [[[| |a] len]|] eqn:Ebuf; cbn in E; try done.
  { simplify_eq. cbn. rewrite <- app_assoc, drop_app_length. cbn.
    split_and!; frame_case index pixels. }
  destruct (V4l2.rgb565_to_rgb888 pixels dst _) as [out|]; cbn in E; [|done].
  simplify_eq. cbn. rewrite <- app_assoc, drop_app_length. cbn.
  split_and!; frame_case index pixels.
  - destruct qbuf_ok; [by left|by right].
  - intros Hret. destruct qbuf_ok; [|done]. split_and!; try done; try lia.
    exists index, pixels, a. split_and!; try done; try lia.
    by rewrite Ebuf.
Qed.

Lemma v4l2_get_frame_outcome_witness :
  exists res st', v4l2_get_frame DqAgain true (Some [1; 2; 3]) (Some 0) (Some 0)
     {| cap := set_capturing true V4l2.opened; cam_fmts := []; issued := [] |}
     = Some (res, st') /\
     res = {| ret := -1; data := Some [1; 2; 3]; width := Some 0; height := Some 0 |} /\
     issued st' = [DQBUF].
Proof.
  eexists _, _. split; [reflexivity|].
  pose proof (v4l2_get_frame_outcome DqAgain true (Some [1; 2; 3]) (Some 0) (Some 0)
     {| cap := set_capturing true V4l2.opened; cam_fmts := []; issued := [] |} _ _ eq_refl)
    as (_ & Hiss & _ & _ & Hnot & _).
  destruct Hnot as [Hreq Hres].
  - cbn. split_and!; try done; by eexists.
  - intros; discriminate.
  - split; [exact Hres|]. rewrite Hiss, Hreq. reflexivity.
Defined.
End FrameFacts.

(** ** A capture session releases its buffers *)

Section NoLeak.
Import Capture.

Lemma map_buffers_tracks d n : forall i st,
  (i + n <= length (V4l2.buf_infos st))%nat ->
  fst (V4l2.map_buffers d i n st) = 0 ->
  let st' := snd (V4l2.map_buffers d i n st) in
  length (V4l2.buf_infos st') = length (V4l2.buf_infos st) /\
  (forall j, (j < i)%nat -> V4l2.buf_infos st' !! j = V4l2.buf_infos st !! j) /\
  (forall r, r ∈ V4l2.mapped st' ->
     r ∈ V4l2.mapped st \/
     exists j, (i <= j < i + n)%nat /\
       V4l2.buf_infos st' !! j
       = Some {| V4l2.start := V4l2.Addr r.1; V4l2.buf_length := r.2 |}).
Proof.
  induction n as [|n IH]; intros i st Hlen Hret; cbn [V4l2.map_buffers] in *.
  - cbn. split_and!; try done. intros r Hr. by left.
  - destruct (V4l2.ioctl_QUERYBUF d i) as [[len off]|]; [|done].
    destruct (V4l2.mmap d i len off) as [a|]; [|done].
    match type of Hret with
    | context [V4l2.map_buffers d (S i) n ?s] => remember s as st1 eqn:Est1
    end.
    assert (Hlen1 : length (V4l2.buf_infos st1) = length (V4l2.buf_infos st)).
    { subst st1. cbn. by rewrite !length_alter. }
    destruct (IH (S i) st1) as (L & Hlow & Hmap); [lia|done|].
    cbv zeta. split; [congruence|]. split.
    + intros j Hj. rewrite Hlow by lia.
      subst st1. cbn.
      rewrite !list_lookup_alter_ne by lia. done.
    + intros r Hr. destruct (Hmap r Hr) as [Hin|(j & Hj & E)].
      * subst st1. cbn in Hin. apply elem_of_app in Hin as [Hin|Hin]; [by left|].
        apply list_elem_of_singleton in Hin. subst r. right. exists i. split; [lia|].
        rewrite Hlow by lia. cbn.
        rewrite !list_lookup_alter_eq.
        destruct (V4l2.buf_infos st !! i) as [b|] eqn:Eb; [done|].
        apply lookup_ge_None in Eb. lia.
      * right. exists j. split; [lia|done].
Qed.

Lemma unmap_one_facts st i :
  length (V4l2.buf_infos (V4l2.unmap_one st i)) = length (V4l2.buf_infos st) /\
  (forall j, j <> i -> V4l2.buf_infos (V4l2.unmap_one st i) !! j = V4l2.buf_infos st !! j) /\
  (forall r, r ∈ V4l2.mapped (V4l2.unmap_one st i) -> r ∈ V4l2.mapped st) /\
  (forall r, V4l2.buf_infos st !! i
             = Some {| V4l2.start := V4l2.Addr r.1; V4l2.buf_length := r.2 |} ->
             r ∉ V4l2.mapped (V4l2.unmap_one st i)).
Proof.
  unfold V4l2.unmap_one.
  destruct (V4l2.buf_infos st !! i) as [[[| |a] len]|] eqn:E; try done.
  cbn. rewrite !length_alter. split; [done|]. split.
  { intros j Hj. by rewrite !list_lookup_alter_ne by done. }
  split.
  { intros r Hr. by apply list_elem_of_filter in Hr as [_ Hr]. }
  intros [a' len'] [= <- <-] Hr. by apply list_elem_of_filter in Hr as [Hr _].
Qed.

Lemma unmap_loop_releases l : forall st,
  NoDup l ->
  forall r, r ∈ V4l2.mapped (foldl V4l2.unmap_one st l) ->
    r ∈ V4l2.mapped st /\
    forall i, i ∈ l ->
      V4l2.buf_infos st !! i
      <> Some {| V4l2.start := V4l2.Addr r.1; V4l2.buf_length := r.2 |}.
Proof.
  induction l as [|i l IH]; intros st Hnd r Hr; cbn [foldl] in Hr.
  - split; [done|]. intros i Hi. by apply elem_of_nil in Hi.
  - apply NoDup_cons in Hnd as [Hi Hnd].
    destruct (unmap_one_facts st i) as (_ & Hother & Hsub & Hgone).
    destruct (IH _ Hnd r Hr) as [Hin Hrest]. split; [by apply Hsub|].
    intros j Hj E. apply elem_of_cons in Hj as [->|Hj].
    + by apply (Hgone r).
    + apply (Hrest j Hj). rewrite Hother; [done|]. intros ->. done.
Qed.

Lemma unmap_loop_keeps_fd l : forall st,
  V4l2.printed (foldl V4l2.unmap_one st l) = V4l2.printed st.
Proof.
  induction l as [|i l IH]; intros st; cbn [foldl]; [done|].
  rewrite IH. unfold V4l2.unmap_one.
  by destruct (V4l2.buf_infos st !! i) as [[[| |a] len]|].
Qed.

Lemma v4l2_cleanup_releases c r :
  r ∈ V4l2.mapped (V4l2.v4l2_cleanup c) ->
  r ∈ V4l2.mapped c /\ (0 <= V4l2.v4l2_fd c -> ~ held c r).
Proof.
  unfold V4l2.v4l2_cleanup. cbn [V4l2.mapped]. case_decide as Hfd; [|intros; split; [done|lia]].
  intros Hr. apply unmap_loop_releases in Hr as [Hin Hno]; [|apply NoDup_seq].
  split; [done|]. intros _ (i & Hi & E). apply (Hno i); [|done].
  apply elem_of_seq. lia.
Qed.

Lemma v4l2_stop_capture_keeps st :
  V4l2.v4l2_fd (cap (v4l2_stop_capture st)) = V4l2.v4l2_fd (cap st) /\
  V4l2.buf_infos (cap (v4l2_stop_capture st)) = V4l2.buf_infos (cap st) /\
  V4l2.mapped (cap (v4l2_stop_capture st)) = V4l2.mapped (cap st) /\
  (0 <= V4l2.v4l2_fd (cap st) -> V4l2.is_capturing (cap (v4l2_stop_capture st)) = false) /\
  issued (v4l2_stop_capture st)
  = issued st ++ (if decide (0 <= V4l2.v4l2_fd (cap st))
                  then if V4l2.is_capturing (cap st) then [STREAMOFF] else []
                  else []).
Proof.
  unfold v4l2_stop_capture, v4l2_stream_off. case_decide as Hfd.
  - rewrite decide_False by lia. rewrite app_nil_r. split_and!; try done. lia.
  - rewrite decide_True by lia.
    destruct (V4l2.is_capturing (cap st)) eqn:E; cbn; rewrite ?app_nil_r; done.
Qed.

Lemma capture_cleanup_releases st r :
  r ∈ V4l2.mapped (cap (v4l2_cleanup st)) ->
  r ∈ V4l2.mapped (cap st) /\ (0 <= V4l2.v4l2_fd (cap st) -> ~ held (cap st) r).
Proof.
  unfold v4l2_cleanup. cbn [cap with_cap]. intros Hr.
  destruct (v4l2_stop_capture_keeps st) as (Hfd & Hbuf & Hmap & _).
  apply v4l2_cleanup_releases in Hr as [Hin Hno]. rewrite Hmap in Hin. split; [done|].
  intros Hpos (i & Hi & E). apply Hno; [lia|]. exists i. by rewrite Hbuf.
Qed.

Lemma v4l2_init_success h d st :
  fst (v4l2_init h d st) = 0 ->
  exists c1,
    V4l2.buf_infos c1 = V4l2.buf_infos (cap st) /\
    V4l2.mapped c1 = V4l2.mapped (cap st) /\
    0 <= V4l2.v4l2_fd c1 /\
    fst (V4l2.v4l2_init_buffer (dev_buffers d) c1) = 0 /\
    cap (snd (v4l2_init h d st)) = snd (V4l2.v4l2_init_buffer (dev_buffers d) c1) /\
    issued (snd (v4l2_init h d st)) = issued st.
Proof.
  unfold v4l2_init, close_and_fail. case_decide as Hopen; [done|].
  destruct (dev_QUERYCAP d) as [caps|]; [|done].
  case_decide; [done|]. case_decide; [done|].
  destruct (v4l2_enum_formats _ _ _) as [st1|] eqn:E1; [|done].
  unfold v4l2_enum_formats in E1. cbn [cam_fmts with_cap cap issued] in E1.
  destruct (enum_loop _ _ _ _) as [fmts|]; [|done]. cbn in E1. simplify_eq.
  unfold v4l2_set_format. destruct (dev_S_FMT d) as [[[fmt w] hh]|]; [|done].
  case_decide; [done|]. rewrite decide_False by lia.
  unfold V4l2.v4l2_init_step5. cbn [cap with_cap].
  match goal with |- context [V4l2.v4l2_init_buffer _ ?c] => set (c1 := c) end.
  pose proof (v4l2_init_buffer_ret (dev_buffers d) c1 c1) as [_ Hcases].
  destruct (V4l2.v4l2_init_buffer (dev_buffers d) c1) as [ret c2] eqn:Ebuf.
  cbn [fst snd] in *. case_decide; [done|]. intros _.
  exists c1. rewrite Ebuf. split_and!; try done; cbn; lia.
Qed.

Lemma v4l2_init_buffer_tracks d c :
  length (V4l2.buf_infos c) = V4l2.FRAMEBUFFER_COUNT ->
  fst (V4l2.v4l2_init_buffer d c) = 0 ->
  forall r, r ∈ V4l2.mapped (snd (V4l2.v4l2_init_buffer d c)) ->
    r ∈ V4l2.mapped c \/ held (snd (V4l2.v4l2_init_buffer d c)) r.
Proof.
  unfold V4l2.v4l2_init_buffer. destruct (V4l2.ioctl_REQBUFS d _) as [count|]; [|done].
  intros Hlen Hret r Hr.
  match type of Hret with
  | context [V4l2.map_buffers d 0 _ ?s] => remember s as c0 eqn:Ec0
  end.
  assert (Hsame : V4l2.buf_infos c0 = V4l2.buf_infos c /\ V4l2.mapped c0 = V4l2.mapped c).
  { subst c0. by case_decide. }
  destruct Hsame as [Hb Hm].
  destruct (map_buffers_tracks d V4l2.FRAMEBUFFER_COUNT 0 c0) as (_ & _ & Htrack);
    [rewrite Hb; lia|done|].
  destruct (Htrack r Hr) as [Hin|(j & Hj & E)]; [left; by rewrite <- Hm|].
  right. exists j. split; [lia|done].
Qed.

Lemma v4l2_start_capture_keeps qbuf_ok streamon_ok st :
  let st' := snd (v4l2_start_capture qbuf_ok streamon_ok st) in
  V4l2.v4l2_fd (cap st') = V4l2.v4l2_fd (cap st) /\
  V4l2.buf_infos (cap st') = V4l2.buf_infos (cap st) /\
  V4l2.mapped (cap st') = V4l2.mapped (cap st) /\
  (fst (v4l2_start_capture qbuf_ok streamon_ok st) = 0 ->
   V4l2.is_capturing (cap st') = true).
Proof.
  cbv zeta. unfold v4l2_start_capture. case_decide; [done|].
  destruct (V4l2.is_capturing (cap st)) eqn:Hcap; [done|].
  unfold v4l2_stream_on.
  destruct (queue_all_spec qbuf_ok V4l2.FRAMEBUFFER_COUNT 0 st) as (k & _ & Hc & _).
  destruct (queue_all qbuf_ok 0 V4l2.FRAMEBUFFER_COUNT st) as [[] st1]; cbn [fst snd] in *.
  - destruct streamon_ok; cbn; rewrite Hc; done.
  - rewrite Hc. done.
Qed.

(** X7.  When [v4l2_init] succeeds, [MonitorPage::startCapture] followed by
    [MonitorPage::stopCapture] leaves no buffer mapped that was not mapped
    before, the descriptor closed and the stream off, whether or not the
    stream could be started.  If it was started, stopping issues exactly one
    [VIDIOC_STREAMOFF]; if it was not, [startCapture] has already released
    the buffers and closed the device, and stopping issues nothing. *)
Theorem capture_session_releases_buffers h d qbuf_ok streamon_ok st :
  length (V4l2.buf_infos (cap st)) = V4l2.FRAMEBUFFER_COUNT ->
  fst (v4l2_init h d st) = 0 ->
  let started := startCapture h d qbuf_ok streamon_ok st in
  let final := stopCapture (snd started) in
  (forall r, r ∈ V4l2.mapped (cap final) -> r ∈ V4l2.mapped (cap st)) /\
  V4l2.v4l2_fd (cap final) = -1 /\
  V4l2.is_capturing (cap final) = false /\
  (fst started = true <-> fst (v4l2_start_capture qbuf_ok streamon_ok (snd (v4l2_init h d st))) = 0) /\
  (fst started = true ->
     V4l2.is_capturing (cap (snd started)) = true /\
     issued final = issued (snd started) ++ [STREAMOFF]) /\
  (fst started = false ->
     V4l2.v4l2_fd (cap (snd started)) = -1 /\
     issued final = issued (snd started) /\
     forall r, r ∈ V4l2.mapped (cap (snd started)) -> r ∈ V4l2.mapped (cap st)).
Proof.
  intros Hlen Hinit. cbv zeta.
  destruct (v4l2_init_success h d st Hinit) as (c1 & Hb1 & Hm1 & Hfd1 & Hret1 & Hcap1 & Hiss1).
  pose proof (v4l2_init_buffer_tracks (dev_buffers d) c1 ltac:(congruence) Hret1) as Htrack.
  pose proof (v4l2_init_buffer_keeps_fd (dev_buffers d) c1) as (Hfd2 & _).
  unfold startCapture.
  destruct (v4l2_init h d st) as [r0 st1]. cbn [fst snd] in *. subst r0.
  rewrite decide_False by lia.
  destruct (v4l2_start_capture_keeps qbuf_ok streamon_ok st1) as (Hfd3 & Hb3 & Hm3 & Hon).
  assert (Hstart : fst (v4l2_start_capture qbuf_ok streamon_ok st1) = 0 \/
                   fst (v4l2_start_capture qbuf_ok streamon_ok st1) = -1).
  { unfold v4l2_start_capture, v4l2_stream_on. repeat case_match; cbn; auto. }
  destruct (v4l2_start_capture qbuf_ok streamon_ok st1) as [r st2]. cbn [fst snd] in *.
  assert (Hheld : forall x, x ∈ V4l2.mapped (cap st2) ->
                    x ∈ V4l2.mapped (cap st) \/ held (cap st2) x).
  { intros x Hx. rewrite Hm3, Hcap1 in Hx. destruct (Htrack x Hx) as [?|(i & Hi & E)].
    - left. by rewrite <- Hm1.
    - right. exists i. by rewrite Hb3, Hcap1. }
  assert (Hfd : 0 <= V4l2.v4l2_fd (cap st2)) by (rewrite Hfd3, Hcap1; lia).
  assert (Hrel : forall x, x ∈ V4l2.mapped (cap (v4l2_cleanup st2)) ->
                   x ∈ V4l2.mapped (cap st)).
  { intros x Hx. apply capture_cleanup_releases in Hx as [Hin Hno].
    destruct (Hheld x Hin) as [?|Hh]; [done|]. by destruct (Hno Hfd). }
  destruct Hstart as [-> | ->].
  - rewrite decide_False by lia. cbn [fst snd]. specialize (Hon eq_refl).
    destruct (v4l2_stop_capture_keeps st2) as (Hfd4 & Hb4 & Hm4 & Hoff & Hiss4).
    rewrite decide_True, Hon in Hiss4 by done.
    split_and!; try done.
    + intros x Hx. unfold stopCapture in Hx.
      apply capture_cleanup_releases in Hx as [Hin Hno]. rewrite Hm4 in Hin.
      destruct (Hheld x Hin) as [?|(i & Hi & E)]; [done|].
      destruct Hno; [lia|]. exists i. by rewrite Hb4.
    + intros _. split; [done|]. unfold stopCapture, v4l2_cleanup. cbn [issued with_cap].
      destruct (v4l2_stop_capture_keeps (v4l2_stop_capture st2)) as (_ & _ & _ & _ & ->).
      rewrite Hfd4, decide_True, Hoff, app_nil_r by done. done.
  - rewrite decide_True by lia. cbn [fst snd].
    split_and!; done.
Qed.

Lemma capture_session_releases_buffers_witness :
  let started := startCapture linux_videodev2 good_camera (fun _ => true) true initial in
  fst started = true /\
  V4l2.mapped (cap (stopCapture (snd started))) = [].
Proof.
  cbv zeta.
  pose proof (capture_session_releases_buffers linux_videodev2 good_camera
                (fun _ => true) true initial eq_refl eq_refl) as (Hrel & _ & _ & Hiff & _).
  split.
  - apply Hiff. reflexivity.
  - destruct (V4l2.mapped (cap (stopCapture _))) as [|r l]; [done|].
    specialize (Hrel r ltac:(by left)). cbn in Hrel. by apply elem_of_nil in Hrel.
Defined.

End NoLeak.

(** ** The life of a recorder *)

Section Lifecycle.
Import Recorder Session.

Lemma sound_create now : sound (create now).
Proof.
  split; cbn; try done.
  - split; constructor.
  - split; [|done]. repeat constructor.
Qed.

Lemma null_or_live_release h : h = Null \/ h = Live -> release h = Some Null.
Proof. by intros [-> | ->]. Qed.

Lemma sound_startRecording filePath width height now o st :
  unwinds o = true -> sound st ->
  sound (snd (startRecording filePath width height now o st)).
Proof.
  intros Ho Hsound. pose proof Hsound as [Hq Hh [Hall Hfmt] Hrec Hthr].
  unfold startRecording.
  destruct (m_isRecording st) eqn:Erec; [done|].
  apply Forall_cons in Hall as [Hf Hall]. apply Forall_cons in Hall as [Hc Hall].
  apply Forall_cons in Hall as [Hs Hall]. apply Forall_cons in Hall as [Hfr Hall].
  apply Forall_cons in Hall as [Hp _].
  destruct o; try done; cbn; split; cbn; try done.
  all: try (split; cbn;
            [repeat (apply Forall_cons; split; [first [done|by left|by right]|]);
             apply Forall_nil_2
            |done]).
  all: try (intros Hrun; destruct (Hthr Hrun) as (_ & ? & ? & ? & ? & ?);
            split; [done|]; split_and!; done).
Qed.

Lemma sound_stopRecording st : sound st -> sound (stopRecording st).
Proof.
  intros Hsound. pose proof Hsound as [Hq Hh Hhd Hrec Hthr]. unfold stopRecording.
  destruct (m_isRecording st) eqn:Erec; cbn; [|done].
  split; cbn; try done. intros Hrun. by destruct (Hthr Hrun).
Qed.

Lemma sound_addFrameToQueue frameData size st :
  sound st -> sound (snd (addFrameToQueue frameData size st)).
Proof.
  intros Hsound. pose proof Hsound as [[Hq Hnd] Hh Hhd Hrec Hthr]. unfold addFrameToQueue.
  destruct frameData as [src|]; [|done].
  destruct (m_isRecording st) eqn:Erec; cbn [negb orb]; [|exact Hsound].
  case_bool_decide; [exact Hsound|]. cbn.
  pose proof (is_fresh (dom (heap st))) as Hfresh.
  assert (Hnew : fresh (dom (heap st)) ∉ data <$> m_frameQueue st).
  { intros Hin. apply Hfresh. unfold heap_is_queue in Hh. rewrite Hh at 2.
    rewrite elem_of_list_to_set. exact Hin. }
  split; cbn; try done.
  - split; cbn.
    + apply Forall_app. split.
      * eapply Forall_impl; [exact Hq|]. intros fd [? [p Hp]]. split; [done|].
        cbn. exists p. rewrite lookup_insert_ne; [done|]. intros E.
        apply Hfresh. rewrite E. apply elem_of_dom. by exists p.
      * constructor; [|constructor]. cbn. split; [lia|].
        rewrite lookup_insert_eq. by eexists.
    + rewrite fmap_app. apply NoDup_app. split; [done|]. split.
      * intros x Hx Hx'. cbn in Hx'. apply list_elem_of_singleton in Hx'. by subst.
      * cbn. apply NoDup_singleton.
  - unfold heap_is_queue in *. cbn. rewrite dom_insert_L, Hh, fmap_app.
    cbn. rewrite list_to_set_app_L. cbn.
    by rewrite (right_id_L ∅ (∪)), (comm_L (∪)).
  - intros _. exact (Hrec eq_refl).
  - intros Hrun. by destruct (Hthr Hrun).
Qed.

Lemma sound_segmentTimeout st : sound st -> sound (segmentTimeout st).
Proof. intros [Hq Hh Hhd Hrec Hthr]. by split. Qed.

Lemma cleanupRecorder_sound e st :
  handles_sound st ->
  exists st' sigs,
    cleanupRecorder e st = Some st' /\ all_null st' /\
    m_isRecording st' = m_isRecording st /\ isRunning st' = isRunning st /\
    m_frameQueue st' = m_frameQueue st /\ heap st' = heap st /\
    submitted st' = submitted st /\ m_segmentTimer st' = m_segmentTimer st /\
    emitted st' = emitted st ++ sigs.
Proof.
  intros [Hall Hfmt].
  apply Forall_cons in Hall as [Hf Hall]. apply Forall_cons in Hall as [Hc Hall].
  apply Forall_cons in Hall as [Hs Hall]. apply Forall_cons in Hall as [Hfr Hall].
  apply Forall_cons in Hall as [Hp _].
  unfold cleanupRecorder, encodeFrame.
  destruct Hf as [Hf|Hf]; rewrite Hf.
  - rewrite andb_false_r. cbn [mbind option_bind].
    rewrite (null_or_live_release _ Hs), (null_or_live_release _ Hp),
      (null_or_live_release _ Hfr), (null_or_live_release _ Hc), Hf.
    cbn. eexists _, []. rewrite app_nil_r. split; [reflexivity|]. by split_and!.
  - destruct (Hfmt Hf) as [Hc' Hp']. rewrite Hc', Hp'. cbn [is_null is_live negb andb].
    assert (Hrel : release (m_swsContext st) = Some Null /\ release (m_frame st) = Some Null).
    { split; by apply null_or_live_release. }
    destruct Hrel as [Hrs Hrf].
    destruct e; cbn; rewrite ?Hrs, ?Hrf, ?Hc', ?Hp', ?Hf; cbn.
    + eexists _, []. rewrite app_nil_r. split; [reflexivity|]. by split_and!.
    + eexists _, [_]. split; [reflexivity|]. by split_and!.
    + eexists _, [_]. split; [reflexivity|]. by split_and!.
    + eexists _, [_]. split; [reflexivity|]. by split_and!.
Qed.

Lemma dequeue_ok st st2 fd rest :
  m_frameQueue st = fd :: rest -> queue_ok st -> heap_is_queue st ->
  m_frameQueue st2 = rest -> heap st2 = delete (data fd) (heap st) ->
  queue_ok st2 /\ heap_is_queue st2.
Proof.
  unfold queue_ok, heap_is_queue. intros Eq [Hq Hnd] Hh -> ->.
  rewrite Eq in *. apply Forall_cons in Hq as [_ Hq].
  rewrite fmap_cons in Hnd, Hh. apply NoDup_cons in Hnd as [Hnotin Hnd].
  split; [split; [|done]|].
  - apply Forall_forall. intros fd' Hin. rewrite Forall_forall in Hq.
    destruct (Hq fd' Hin) as [? ?]. split; [done|].
    rewrite lookup_delete_ne; [done|]. intros E. apply Hnotin.
    apply list_elem_of_fmap. by exists fd'.
  - rewrite dom_delete_L, Hh. cbn.
    apply set_eq. intros x. rewrite elem_of_difference, elem_of_union,
      elem_of_singleton, !elem_of_list_to_set.
    split; [by intros [[?|?] ?]|]. intros Hx. split; [by right|]. by intros ->.
Qed.

Lemma sound_run_iteration now e st :
  sound st -> exists st', run_iteration now e st = Some st' /\ sound st'.
Proof.
  intros Hsound. pose proof Hsound as [Hq Hh Hhd Hrec Hthr]. unfold run_iteration.
  destruct (m_frameQueue st) as [|fd rest] eqn:Eq.
  - destruct (m_isRecording st) eqn:Erec; [by exists st|].
    destruct (cleanupRecorder_sound e st Hhd)
      as (st' & sigs & -> & Hnull & Hr & Hrun & Hq' & Hh' & _).
    exists st'. split; [done|]. split.
    + destruct Hq as [Hq1 Hq2]. split; rewrite Hq', ?Hh'; [|done].
      by rewrite Eq.
    + unfold heap_is_queue. by rewrite Hq', Hh'.
    + destruct Hnull as (Hn1 & Hn2 & Hn3 & Hn4 & Hn5). unfold handles_sound.
      rewrite Hn1, Hn2, Hn3, Hn4, Hn5. split; [|done].
      repeat (apply Forall_cons; split; [by left|]). apply Forall_nil_2.
    + by rewrite Hr, Erec.
    + intros _. split; [by rewrite Hr|done].
  - cbn [m_isRecording with_queue].
    destruct (m_isRecording st) eqn:Erec.
    + pose proof Hq as [Hq1 _]. rewrite Eq in Hq1.
      apply Forall_cons in Hq1 as [[Hsz [p Hp]] _].
      destruct (processFrame_live now e fd p (with_queue rest (heap st) st))
        as (b & sigs & E); try done; [exact (Hrec eq_refl)|].
      rewrite E. cbn [fmap option_fmap option_map mbind option_bind snd].
      eexists. split; [reflexivity|].
      match goal with |- sound ?s =>
        destruct (dequeue_ok st s fd rest Eq Hq Hh eq_refl eq_refl) as [Hq2 Hh2]
      end.
      split; try done.
      * split; [|done]. repeat (apply Forall_cons; split; [by right|]). apply Forall_nil_2.
      * cbn. intros Hrun. by destruct (Hthr Hrun).
    + cbn [mbind option_bind]. eexists. split; [reflexivity|].
      match goal with |- sound ?s =>
        destruct (dequeue_ok st s fd rest Eq Hq Hh eq_refl eq_refl) as [Hq2 Hh2]
      end.
      split; try done.
      * cbn. by rewrite Erec.
      * cbn. intros Hrun. by destruct (Hthr Hrun).
Qed.

Lemma sound_happen ev st :
  match ev with ev_start _ _ _ _ o => unwinds o = true | _ => True end ->
  sound st -> exists st', happen ev st = Some st' /\ sound st'.
Proof.
  intros Hev Hsound. destruct ev; cbn [happen].
  - eexists. split; [done|]. by apply sound_startRecording.
  - eexists. split; [done|]. by apply sound_stopRecording.
  - eexists. split; [done|]. by apply sound_addFrameToQueue.
  - eexists. split; [done|]. by apply sound_segmentTimeout.
  - by apply sound_run_iteration.
Qed.

Lemma sound_run evs : forall st,
  starts_unwind evs -> sound st -> exists st', run evs st = Some st' /\ sound st'.
Proof.
  induction evs as [|ev evs IH]; intros st Hevs Hsound; [by exists st|].
  apply Forall_cons in Hevs as [Hev Hevs].
  destruct (sound_happen ev st Hev Hsound) as (st1 & E1 & Hsound1).
  destruct (IH st1 Hevs Hsound1) as (st' & E' & Hsound').
  exists st'. cbn [run]. rewrite E1. done.
Qed.



Lemma idle_turn now e st :
  sound st -> m_isRecording st = false ->
  exists st',
    run_iteration now e st = Some st' /\ sound st' /\ m_isRecording st' = false /\
    submitted st' = submitted st /\ m_frameQueue st' = drop 1 (m_frameQueue st) /\
    (m_frameQueue st = [] -> all_null st').
Proof.
  intros Hsound Erec. destruct (sound_run_iteration now e st Hsound) as (st' & E & Hsound').
  exists st'. split; [done|]. split; [done|].
  pose proof Hsound as [Hq Hh Hhd Hrec Hthr]. unfold run_iteration in E.
  destruct (m_frameQueue st) as [|fd rest] eqn:Eq.
  - rewrite Erec in E.
    destruct (cleanupRecorder_sound e st Hhd)
      as (st1 & sigs & E1 & Hnull & Hr & _ & Hq1 & _ & Hs1 & _).
    rewrite E1 in E. simplify_eq. rewrite Hr, Hq1, Hs1, Eq. done.
  - cbn [m_isRecording with_queue] in E. rewrite Erec in E.
    cbn [mbind option_bind] in E. simplify_eq. cbn. rewrite drop_0. done.
Qed.

Lemma encodeFrame_keeps e st b st' :
  encodeFrame e st = Some (b, st') ->
  m_width st' = m_width st /\ m_height st' = m_height st /\
  m_frameQueue st' = m_frameQueue st /\ heap st' = heap st /\
  m_frameCount st' = m_frameCount st /\ m_totalFrames st' = m_totalFrames st.
Proof.
  unfold encodeFrame. destruct (_ && _); [|done].
  destruct e; intros [= <- <-]; done.
Qed.

Lemma cleanupRecorder_keeps e st st' :
  cleanupRecorder e st = Some st' ->
  m_width st' = m_width st /\ m_height st' = m_height st /\
  m_frameQueue st' = m_frameQueue st /\ heap st' = heap st /\
  m_frameCount st' = m_frameCount st /\ m_totalFrames st' = m_totalFrames st.
Proof.
  unfold cleanupRecorder. intros H.
  assert (Hfirst : exists st1,
            (if negb (is_null (m_codecContext st)) && negb (is_null (m_formatContext st))
             then snd <$> encodeFrame e st else Some st) = Some st1 /\
            m_width st1 = m_width st /\ m_height st1 = m_height st /\
            m_frameQueue st1 = m_frameQueue st /\ heap st1 = heap st /\
            m_frameCount st1 = m_frameCount st /\ m_totalFrames st1 = m_totalFrames st).
  { destruct (_ && _).
    - destruct (encodeFrame e st) as [[b st1]|] eqn:E; [|done].
      exists st1. split; [done|]. by eapply encodeFrame_keeps.
    - by exists st. }
  destruct Hfirst as (st1 & E1 & Hw & Hh & Hq & Hheap & Hc & Ht). rewrite E1 in H.
  cbn [mbind option_bind] in H.
  destruct (release (m_swsContext st1)); cbn [mbind option_bind] in H; [|done].
  destruct (release (m_packet st1)); cbn [mbind option_bind] in H; [|done].
  destruct (release (m_frame st1)); cbn [mbind option_bind] in H; [|done].
  destruct (release (m_codecContext st1)); cbn [mbind option_bind] in H; [|done].
  destruct (release (m_formatContext st1)); cbn [mbind option_bind] in H; [|done].
  simplify_eq. done.
Qed.

Lemma processFrame_keeps now e fd st b st' :
  processFrame now e fd st = Some (b, st') ->
  m_width st' = m_width st /\ m_height st' = m_height st /\
  m_frameQueue st' = m_frameQueue st /\ heap st' = heap st /\
  stepped (m_frameCount st) (m_frameCount st') /\
  stepped (m_totalFrames st) (m_totalFrames st').
Proof.
  unfold processFrame, stepped. destruct (_ || _); [intros [= <- <-]; by split_and!; try left|].
  destruct (heap st !! data fd); cbn [mbind option_bind]; [|done].
  destruct (_ && _); [|done]. intros H.
  apply encodeFrame_keeps in H as (-> & -> & -> & -> & -> & ->). cbn.
  split_and!; try done; by right.
Qed.

Lemma run_iteration_keeps now e st st' :
  run_iteration now e st = Some st' ->
  m_width st' = m_width st /\ m_height st' = m_height st /\
  m_frameQueue st' = drop 1 (m_frameQueue st) /\
  (forall a, a ∉ data <$> take 1 (m_frameQueue st) -> heap st' !! a = heap st !! a) /\
  stepped (m_frameCount st) (m_frameCount st') /\
  stepped (m_totalFrames st) (m_totalFrames st').
Proof.
  unfold run_iteration. destruct (m_frameQueue st) as [|fd rest] eqn:Eq.
  - destruct (m_isRecording st).
    + intros [= <-]. rewrite Eq. split_and!; try done; by left.
    + intros H. apply cleanupRecorder_keeps in H as (? & ? & Hq & -> & -> & ->).
      rewrite Hq, Eq. split_and!; try done; by left.
  - cbn [m_isRecording with_queue]. destruct (m_isRecording st).
    + destruct (processFrame now e fd _) as [[b st1]|] eqn:E;
        cbn [fmap option_fmap option_map mbind option_bind snd]; [|done].
      apply processFrame_keeps in E as (Hw & Hh & Hq & Hheap & Hc & Ht).
      cbn in Hw, Hh, Hq, Hheap, Hc, Ht.
      intros [= <-]. cbn. rewrite Hq, Hheap, drop_0. split_and!; try done.
      intros a Ha. apply lookup_delete_ne. intros <-. apply Ha. left.
    + cbn [mbind option_bind]. intros [= <-]. cbn. rewrite drop_0.
      split_and!; try done; try (by left).
      intros a Ha. apply lookup_delete_ne. intros <-. apply Ha. left.
Qed.

Lemma stepped_counted c c' n :
  0 <= c <= n -> n < 2147483647 -> stepped c c' -> 0 <= c' <= n + 1.
Proof.
  intros Hc Hn [-> | ->]; [lia|].
  unfold wrap_int. rewrite Z.mod_small; lia.
Qed.

(** One event of an open segment keeps the frame size and the fit of the
    queued frames, and counts at most one frame. *)
Lemma fit_happen width height n ev st :
  within_segment width height ev -> sound st ->
  m_width st = width -> m_height st = height -> frames_fit st ->
  counted n st -> n < 2147483647 ->
  exists st',
    happen ev st = Some st' /\ sound st' /\
    m_width st' = width /\ m_height st' = height /\ frames_fit st' /\
    counted (n + 1) st'.
Proof.
  intros Hev Hsound Hw Hh Hfit [Hc Ht] Hn.
  assert (Hsame : counted (n + 1) st) by (unfold counted; lia).
  destruct (sound_happen ev st) as (st' & E & Hsound'); [by destruct ev|done|].
  exists st'. split; [done|]. split; [done|].
  destruct ev as [? ? ? ? ?| |frameData size| |now e]; cbn [happen] in E.
  - done.
  - simplify_eq. unfold stopRecording, frames_fit, counted in *.
    by destruct (m_isRecording st); cbn.
  - simplify_eq. unfold addFrameToQueue. destruct frameData as [src|]; [|done].
    destruct (negb (m_isRecording st) || bool_decide (size <= 0)) eqn:Erej; [done|].
    apply orb_false_elim in Erej as [_ Hsz]. apply bool_decide_eq_false in Hsz.
    cbn in Hev. destruct Hev as [Hlow Hhigh]; [lia|].
    cbn. split; [done|]. split; [done|]. split; [|exact Hsame].
    unfold frames_fit. cbn.
    pose proof (is_fresh (dom (heap st))) as Hfresh.
    apply Forall_app. split.
    + eapply Forall_impl; [exact Hfit|]. cbn. intros fd (p & Hp & Hlen).
      exists p. split; [|done]. rewrite lookup_insert_ne; [done|].
      intros Ea. apply Hfresh. rewrite Ea. apply elem_of_dom. by exists p.
    + constructor; [|constructor]. cbn. eexists. split; [apply lookup_insert_eq|].
      rewrite length_take. lia.
  - simplify_eq. done.
  - apply run_iteration_keeps in E as (Hw' & Hh' & Hq' & Hheap' & Hc' & Ht').
    split; [congruence|]. split; [congruence|]. split.
    2:{ split; [exact (stepped_counted _ _ n Hc Hn Hc')|exact (stepped_counted _ _ n Ht Hn Ht')]. }
    unfold frames_fit. rewrite Hq', Hw', Hh'.
    pose proof Hsound as [[_ Hnd] _ _ _ _].
    destruct (m_frameQueue st) as [|fd rest] eqn:Eq; [by rewrite drop_nil|].
    cbn [drop]. rewrite drop_0. unfold frames_fit in Hfit. rewrite Eq in Hfit.
    apply Forall_cons in Hfit as [_ Hfit].
    rewrite fmap_cons in Hnd. apply NoDup_cons in Hnd as [Hnotin _].
    apply Forall_forall. intros fd' Hin. rewrite Forall_forall in Hfit.
    destruct (Hfit fd' Hin) as (p & Hp & Hlen). exists p. split; [|done].
    rewrite Hheap'; [done|]. cbn. intros Ha. apply list_elem_of_singleton in Ha.
    apply Hnotin. rewrite <- Ha. apply list_elem_of_fmap. by exists fd'.
Qed.

Lemma fit_run width height evs : forall n st,
  Forall (within_segment width height) evs -> sound st ->
  m_width st = width -> m_height st = height -> frames_fit st ->
  counted n st -> n + Z.of_nat (length evs) <= 2147483647 ->
  exists st',
    run evs st = Some st' /\ sound st' /\ frames_fit st' /\
    counted (n + Z.of_nat (length evs)) st'.
Proof.
  induction evs as [|ev evs IH]; intros n st Hevs Hsound Hw Hh Hfit Hcnt Hn.
  { exists st. cbn [length]. rewrite Z.add_0_r. done. }
  apply Forall_cons in Hevs as [Hev Hevs]. cbn [length] in *.
  destruct (fit_happen width height n ev st Hev Hsound Hw Hh Hfit Hcnt)
    as (st1 & E1 & Hsound1 & Hw1 & Hh1 & Hfit1 & Hcnt1); [lia|].
  destruct (IH (n + 1) st1 Hevs Hsound1 Hw1 Hh1 Hfit1 Hcnt1)
    as (st' & E' & Hsound' & Hfit' & Hcnt'); [lia|].
  exists st'. cbn [run]. rewrite E1. cbn [mbind option_bind].
  split; [done|]. split; [done|]. split; [done|].
  replace (n + Z.of_nat (S (length evs))) with (n + 1 + Z.of_nat (length evs)) by lia.
  done.
Qed.

(** Before a segment is opened the recorder stays idle with an empty queue
    and counters at zero. *)
Lemma idle_run evs : forall st,
  Forall before_segment evs -> sound st ->
  m_isRecording st = false -> m_frameQueue st = [] -> counted 0 st ->
  exists st',
    run evs st = Some st' /\ sound st' /\
    m_isRecording st' = false /\ m_frameQueue st' = [] /\ counted 0 st'.
Proof.
  induction evs as [|ev evs IH]; intros st Hevs Hsound Hrec Hq Hcnt; [by exists st|].
  apply Forall_cons in Hevs as [Hev Hevs].
  destruct (sound_happen ev st) as (st1 & E1 & Hsound1);
    [destruct ev; try done; by destruct Hev|done|].
  assert (Hidle : m_isRecording st1 = false /\ m_frameQueue st1 = [] /\ counted 0 st1).
  { destruct ev as [? ? ? ? o| |frameData size| |]; cbn [happen] in E1; try done.
    - simplify_eq. destruct Hev as [_ Ho]. unfold startRecording, counted. rewrite Hrec.
      destruct o; try done; cbn; done.
    - simplify_eq. unfold stopRecording. by rewrite Hrec.
    - simplify_eq. unfold addFrameToQueue. destruct frameData; [|done].
      by rewrite Hrec. }
  destruct Hidle as (Hrec1 & Hq1 & Hcnt1).
  destruct (IH st1 Hevs Hsound1 Hrec1 Hq1 Hcnt1) as (st' & E' & H').
  exists st'. cbn [run]. rewrite E1. done.
Qed.

Lemma run_app evs1 evs2 st :
  run (evs1 ++ evs2) st = (st1 ← run evs1 st; run evs2 st1).
Proof.
  revert st. induction evs1 as [|ev evs1 IH]; intros st; [done|].
  cbn [app run]. destruct (happen ev st); cbn [mbind option_bind]; [apply IH|done].
Qed.

Lemma one_segment_run now failed segment :
  Forall before_segment failed -> one_segment segment ->
  exists st,
    run (failed ++ segment) (create now) = Some st /\ sound st /\ frames_fit st /\
    counted (Z.of_nat (length segment)) st.
Proof.
  intros Hfailed Hseg.
  destruct (idle_run failed (create now) Hfailed (sound_create now) eq_refl eq_refl)
    as (st0 & E0 & Hsound0 & Hrec0 & Hq0 & Hcnt0); [done|].
  rewrite run_app, E0. cbn [mbind option_bind].
  destruct segment as [|ev rest].
  { exists st0. split; [done|]. split; [done|]. split; [|done].
    unfold frames_fit. by rewrite Hq0. }
  destruct ev as [filePath width height t o| | | |]; try done.
  destruct o; try done. destruct Hseg as (Hw & Hh & Hmax & Hlen & Hrest).
  cbn [run happen mbind option_bind].
  destruct (fit_run width height rest 0
              (snd (startRecording filePath width height t InitOk st0)))
    as (st & E & Hsound & Hfit & Hcnt); try done.
  - by apply sound_startRecording.
  - unfold startRecording. by rewrite Hrec0.
  - unfold startRecording. by rewrite Hrec0.
  - unfold frames_fit, startRecording. rewrite Hrec0. cbn. by rewrite Hq0.
  - unfold counted, startRecording. rewrite Hrec0. done.
  - exists st. split; [done|]. split; [done|]. split; [done|].
    cbn [length]. unfold counted in *. lia.
Qed.

(** X8.  A recorder that opens at most one segment: first any number of
    starts that fail at an exit of [initRecorder] that unwinds, stops and
    pushes; then possibly one successful start at a positive frame size
    whose byte count fits an [int], followed by at most [INT_MAX] stops,
    pushes, timer ticks and turns of the worker in any order, with no
    further start, where every frame pushed with a positive size holds the
    [3 * width * height] bytes of a frame, all of them inside the payload of
    the call.  On such a history every call and every turn is defined (no
    released or null FFmpeg object is used, nothing is released twice), the
    buffers allocated are exactly those of the queued frames, each queued
    frame has a positive size and a buffer of its own that holds the bytes
    [sws_scale] reads from it, the members are null or live, while recording
    all of them are live, and the two frame counters have counted at most
    one frame per event, so they have not overflowed. *)
Theorem recorder_history_sound now failed segment :
  Forall before_segment failed -> one_segment segment ->
  exists st,
    run (failed ++ segment) (create now) = Some st /\ sound st /\ frames_fit st /\
    counted (Z.of_nat (length segment)) st.
Proof. apply one_segment_run. Qed.

Lemma recorder_history_sound_witness :
  exists st,
    run (failed_start ++ short_segment) (create 0) = Some st /\ sound st /\
    frames_fit st /\ counted 8 st.
Proof.
  apply (recorder_history_sound 0 failed_start short_segment).
  - repeat constructor; done.
  - cbn. split_and!; try lia.
    repeat (apply Forall_cons; split; [cbn; try done; intros _; lia|]).
    apply Forall_nil_2.
Defined.



Lemma cleanupRecorder_freed e st :
  m_formatContext st = Freed -> cleanupRecorder e st = None.
Proof.
  intros Hf. unfold cleanupRecorder, encodeFrame. rewrite Hf.
  cbn [is_null is_live negb andb]. rewrite andb_true_r, andb_false_r.
  destruct (negb (is_null (m_codecContext st))); cbn [fmap option_fmap option_map mbind option_bind];
    [done|].
  destruct (release (m_swsContext st)); cbn [mbind option_bind]; [|done].
  destruct (release (m_packet st)); cbn [mbind option_bind]; [|done].
  destruct (release (m_frame st)); cbn [mbind option_bind]; [|done].
  destruct (release (m_codecContext st)); cbn [mbind option_bind]; [|done].
  by rewrite Hf.
Qed.

(** X10.  Of the twelve failure exits of [initRecorder], three (no encoder
    found, no codec context, no scaling context) free the format context
    without clearing [m_formatContext].  On a recorder whose members are
    null or live, [cleanupRecorder] after [initRecorder] is defined exactly
    for the other nine exits and for success, and then leaves every member
    null; after one of the three it uses or frees the released context. *)
Theorem cleanup_after_failed_init o e st :
  handles_sound st ->
  (is_Some (cleanupRecorder e (snd (initRecorder o st))) <-> unwinds o = true) /\
  (unwinds o = false -> m_formatContext (snd (initRecorder o st)) = Freed) /\
  (forall st', cleanupRecorder e (snd (initRecorder o st)) = Some st' -> all_null st').
Proof.
  intros Hhd. pose proof Hhd as [Hall Hfmt].
  apply Forall_cons in Hall as [Hf Hall]. apply Forall_cons in Hall as [Hc Hall].
  apply Forall_cons in Hall as [Hs Hall]. apply Forall_cons in Hall as [Hfr Hall].
  apply Forall_cons in Hall as [Hp _].
  assert (Hgood : unwinds o = true -> handles_sound (snd (initRecorder o st))).
  { intros Ho. destruct o; try done; cbn; split; cbn; try done;
      repeat (apply Forall_cons; split; [first [done|by left|by right]|]);
      apply Forall_nil_2. }
  assert (Hbad : unwinds o = false ->
            cleanupRecorder e (snd (initRecorder o st)) = None /\
            m_formatContext (snd (initRecorder o st)) = Freed).
  { intros Ho. assert (m_formatContext (snd (initRecorder o st)) = Freed) by (by destruct o).
    split; [by apply cleanupRecorder_freed|done]. }
  destruct (unwinds o) eqn:Ho.
  - destruct (cleanupRecorder_sound e _ (Hgood eq_refl)) as (st' & sigs & E & Hnull & _).
    rewrite E. split_and!; [split; [done|by eexists]|done|]. intros ? [= <-]. done.
  - destruct (Hbad eq_refl) as [E Hfreed]. rewrite E.
    split_and!; [split; [by intros []|done]|done|done].
Qed.

Lemma cleanup_after_failed_init_witness :
  cleanupRecorder EncodeOk (snd (initRecorder FailFindEncoder (create 0))) = None /\
  is_Some (cleanupRecorder EncodeOk (snd (initRecorder FailOpenCodec (create 0)))).
Proof.
  assert (Hhd : handles_sound (create 0)).
  { split; [|done]. repeat (apply Forall_cons; split; [by left|]). apply Forall_nil_2. }
  split.
  - destruct (cleanup_after_failed_init FailFindEncoder EncodeOk (create 0) Hhd) as (H & _).
    destruct (cleanupRecorder EncodeOk (snd (initRecorder FailFindEncoder (create 0))));
      [|done].
    destruct H as [H _]. by specialize (H ltac:(by eexists)).
  - by apply (cleanup_after_failed_init FailOpenCodec EncodeOk (create 0) Hhd).
Defined.

(** X11.  A start that fails in [initRecorder] on an idle recorder returns
    false and emits exactly one [recordError].  The recorder stays idle, the
    thread and the segment timer are left as they were, and so are the queue
    and its buffers; the file path and the frame counter have been
    overwritten by then. *)
Theorem failed_start_reports_once filePath width height now o st :
  m_isRecording st = false -> o <> InitOk ->
  let r := startRecording filePath width height now o st in
  fst r = false /\
  m_isRecording (snd r) = false /\
  isRunning (snd r) = isRunning st /\
  m_segmentTimer (snd r) = m_segmentTimer st /\
  m_frameQueue (snd r) = m_frameQueue st /\
  heap (snd r) = heap st /\
  m_filePath (snd r) = filePath /\
  m_frameCount (snd r) = 0 /\
  exists errorMsg, emitted (snd r) = emitted st ++ [recordError errorMsg].
Proof.
  intros Hrec Ho. cbv zeta. unfold startRecording. rewrite Hrec.
  destruct o; try done; cbn; split_and!; try done; by eexists.
Qed.

Lemma failed_start_reports_once_witness :
  exists errorMsg,
    emitted (snd (startRecording "/mnt/TFcard/a.mp4" 640 480 7 FailAvioOpen (create 0)))
    = [recordError errorMsg].
Proof.
  destruct (failed_start_reports_once "/mnt/TFcard/a.mp4" 640 480 7 FailAvioOpen (create 0))
    as (_ & _ & _ & _ & _ & _ & _ & _ & err & E); [done|done|].
  exists err. exact E.
Defined.

Lemma idle_turns ws : forall st,
  sound st -> m_isRecording st = false ->
  exists st',
    run (uncurry ev_work <$> ws) st = Some st' /\
    submitted st' = submitted st /\
    m_frameQueue st' = drop (length ws) (m_frameQueue st) /\
    (length (m_frameQueue st) <= length ws -> heap st' = ∅)%nat /\
    (length (m_frameQueue st) < length ws -> all_null st')%nat.
Proof.
  induction ws as [|[now e] ws IH]; intros st Hsound Hrec.
  - exists st. cbn. rewrite drop_0. split_and!; try done; [|lia].
    intros Hlen. destruct (m_frameQueue st) eqn:Eq; [|cbn in Hlen; lia].
    pose proof (sound_heap _ Hsound) as Hh. unfold heap_is_queue in Hh.
    rewrite Eq in Hh. by apply dom_empty_inv_L.
  - destruct (idle_turn now e st Hsound Hrec) as (st1 & E1 & Hs1 & Hr1 & Hsub1 & Hq1 & Hn1).
    destruct (IH st1 Hs1 Hr1) as (st' & E' & Hsub' & Hq' & Hheap' & Hnull').
    exists st'. cbn [fmap list_fmap uncurry run happen]. cbn [run] in *.
    rewrite E1. cbn [mbind option_bind].
    split; [done|]. split; [congruence|].
    rewrite Hq1 in Hq', Hheap', Hnull'. rewrite length_drop in Hheap', Hnull'.
    split; [by rewrite Hq', drop_drop|]. cbn [length]. split.
    + intros Hlen. apply Hheap'. lia.
    + intros Hlen. destruct (decide (length (m_frameQueue st) = 0)%nat) as [Hz|Hnz].
      * destruct ws as [|[now' e'] ws].
        -- cbn in E'. simplify_eq. apply Hn1. by apply length_zero_iff_nil.
        -- apply Hnull'. cbn. lia.
      * apply Hnull'. lia.
Qed.

(** X12.  Frames still queued when recording has stopped are dropped by the
    worker as long as recording is not started again: each turn takes one
    from the queue and deletes it without encoding it; after as many turns
    as there were frames the queue and the heap are empty, and one more turn
    releases the FFmpeg objects.  [startRecording] does not touch the queue:
    a successful start that comes before the worker has dropped them leaves
    them queued with their buffers, with the frame counter back at 0 and
    recording on, and the next turn of the worker then hands the oldest of
    them to the encoder as frame 0 of the new segment (provided its buffer
    holds a frame of the new size). *)
Theorem frames_left_at_stop ws st :
  sound st -> m_isRecording st = false ->
  (exists st',
     run (uncurry ev_work <$> ws) st = Some st' /\
     submitted st' = submitted st /\
     m_frameQueue st' = drop (length ws) (m_frameQueue st) /\
     (length (m_frameQueue st) <= length ws -> heap st' = ∅)%nat /\
     (length (m_frameQueue st) < length ws -> all_null st')%nat) /\
  (forall filePath width height now,
     let r := startRecording filePath width height now InitOk st in
     fst r = true /\ m_isRecording (snd r) = true /\
     m_frameQueue (snd r) = m_frameQueue st /\ heap (snd r) = heap st /\
     m_frameCount (snd r) = 0 /\ submitted (snd r) = []) /\
  (forall filePath width height now now' fd rest,
     m_frameQueue st = fd :: rest ->
     exists payload,
       heap st !! data fd = Some payload /\
       (3 * width * height <= Z.of_nat (length payload) ->
        exists st1,
          run [ev_start filePath width height now InitOk; ev_work now' EncodeOk] st
          = Some st1 /\
          submitted st1 = [(payload, 0)] /\ m_frameQueue st1 = rest)).
Proof.
  intros Hsound Hrec. split; [by apply idle_turns|].
  assert (Hstart : forall filePath width height now,
            let r := startRecording filePath width height now InitOk st in
            fst r = true /\ m_isRecording (snd r) = true /\
            m_frameQueue (snd r) = m_frameQueue st /\ heap (snd r) = heap st /\
            m_frameCount (snd r) = 0 /\ submitted (snd r) = []).
  { intros. unfold r, startRecording. rewrite Hrec. done. }
  split; [exact Hstart|].
  intros filePath width height now now' fd rest Eq.
  pose proof Hsound as [[Hq _] _ _ _ _]. rewrite Eq in Hq.
  apply Forall_cons in Hq as [[Hsz [p Hp]] _].
  exists p. split; [done|]. intros _.
  destruct (Hstart filePath width height now) as (_ & Hr0 & Hq0 & Hh0 & Hc0 & Hsub0).
  assert (Hs0 : sound (snd (startRecording filePath width height now InitOk st)))
    by (by apply sound_startRecording).
  cbn [run happen mbind option_bind].
  remember (snd (startRecording filePath width height now InitOk st)) as st0 eqn:E0.
  unfold run_iteration. rewrite Hq0, Eq. cbn [m_isRecording with_queue]. rewrite Hr0.
  destruct (processFrame_live now' EncodeOk fd p (with_queue rest (heap st0) st0))
    as (b & sigs & E); [done|exact (sound_recording _ Hs0 Hr0)|done|by cbn; rewrite Hh0|].
  rewrite E. cbn [fmap option_fmap option_map mbind option_bind snd].
  eexists. split; [reflexivity|]. cbn. by rewrite Hsub0, Hc0.
Qed.

Lemma frames_left_at_stop_witness :
  exists st',
    run (uncurry ev_work <$> [(1, EncodeOk); (2, EncodeOk); (3, EncodeOk)])
      stopped_with_two_frames = Some st' /\
    submitted st' = submitted stopped_with_two_frames /\
    heap st' = ∅ /\ all_null st'.
Proof.
  destruct (frames_left_at_stop [(1, EncodeOk); (2, EncodeOk); (3, EncodeOk)]
              stopped_with_two_frames) as ((st' & E & Hsub & _ & Hheap & Hnull) & _).
  - unfold stopped_with_two_frames.
    destruct (sound_run [ev_start "/mnt/TFcard/20230101/record_103000.mp4" 2 2 0 InitOk;
             ev_push (Some (small_frame 1)) 12; ev_push (Some (small_frame 2)) 12;
             ev_stop] (create 0))
      as (st & E & Hs); [|apply sound_create|by rewrite E].
    repeat (apply Forall_cons; split; [done|]). apply Forall_nil_2.
  - vm_compute. reflexivity.
  - exists st'. split; [exact E|]. split; [exact Hsub|].
    split; [apply Hheap; vm_compute; lia|apply Hnull; vm_compute; lia].
Defined.

End Lifecycle.

(** ** Storage checks with the slots of the page connected *)

Section Cascade.
Import Monitor MonitorRecording.

Lemma narrows_refl m : narrows m m.
Proof. by split. Qed.

Lemma narrows_trans m1 m2 m3 : narrows m1 m2 -> narrows m2 m3 -> narrows m1 m3.
Proof.
  intros H12 H23. split.
  - rewrite (narrows_path _ _ H23). apply H12.
  - rewrite (narrows_threshold _ _ H23). apply H12.
  - rewrite (narrows_timer _ _ H23). apply H12.
  - rewrite (narrows_report _ _ H23). apply H12.
  - intros n Hn. by apply H12, H23.
  - intros n Hin Hout. destruct (decide (n ∈ root_entries m2)) as [Hmid|Hmid].
    + by apply (narrows_dates _ _ H23).
    + by apply (narrows_dates _ _ H12).
  - pose proof (narrows_length _ _ H12). pose proof (narrows_length _ _ H23). lia.
  - etrans; [apply H23|apply H12].
  - rewrite (narrows_recording _ _ H23). apply H12.
  - rewrite (narrows_file _ _ H23). apply H12.
  - rewrite (narrows_recorder _ _ H23). apply H12.
  - rewrite (narrows_camera _ _ H23). apply H12.
  - rewrite (narrows_warned _ _ H23). apply H12.
Qed.

Lemma storage_check_keeps s :
  let s' := snd (Storage.checkStorageSpace s) in
  Storage.m_storagePath s' = Storage.m_storagePath s /\
  Storage.m_minFreeSpacePercent s' = Storage.m_minFreeSpacePercent s /\
  Storage.m_checkTimer s' = Storage.m_checkTimer s /\
  Storage.dirs (Storage.env s') = Storage.dirs (Storage.env s) /\
  Storage.report (Storage.env s') = Storage.report (Storage.env s) /\
  Storage.tick (Storage.env s') = S (Storage.tick (Storage.env s)).
Proof.
  rewrite checkStorageSpace_unfold. cbv zeta.
  destruct (negb _ || negb _); [done|]. case_decide; [|done].
  by destruct (double_ltb _ _).
Qed.

Lemma length_filter_lt {A} (P : A -> Prop) `{!forall x, Decision (P x)} (l : list A) x :
  x ∈ l -> ~ P x -> (length (filter P l) < length l)%nat.
Proof.
  induction l as [|y l IH]; intros Hin Hx; [by apply elem_of_nil in Hin|].
  rewrite filter_cons. apply elem_of_cons in Hin as [<-|Hin].
  - rewrite decide_False by done. cbn. pose proof (length_filter P l). lia.
  - case_decide; cbn; specialize (IH Hin Hx); lia.
Qed.

Lemma storage_cleanup_cases s :
  let r := Storage.cleanupOldestDay s in
  Storage.m_storagePath (snd r) = Storage.m_storagePath s /\
  Storage.m_minFreeSpacePercent (snd r) = Storage.m_minFreeSpacePercent s /\
  Storage.m_checkTimer (snd r) = Storage.m_checkTimer s /\
  Storage.report (Storage.env (snd r)) = Storage.report (Storage.env s) /\
  Storage.tick (Storage.env (snd r)) = Storage.tick (Storage.env s) /\
  (forall n, n ∈ Storage.entryList (Storage.env (snd r)) (Storage.m_storagePath s) ->
             n ∈ Storage.entryList (Storage.env s) (Storage.m_storagePath s)) /\
  (forall n, n ∈ Storage.entryList (Storage.env s) (Storage.m_storagePath s) ->
             n ∉ Storage.entryList (Storage.env (snd r)) (Storage.m_storagePath s) ->
             n = Storage.getOldestDateDir s /\ Storage.is_date_name n) /\
  (if fst r
   then (length (Storage.entryList (Storage.env (snd r)) (Storage.m_storagePath s))
         < length (Storage.entryList (Storage.env s) (Storage.m_storagePath s)))%nat
   else Storage.dirs (Storage.env (snd r)) = Storage.dirs (Storage.env s)).
Proof.
  cbv zeta.
  pose proof (cleanupOldestDay_only_removes_oldest s) as Honly.
  destruct (decide (Storage.candidates s = [])) as [He|Hne].
  - rewrite cleanupOldestDay_no_candidates in * by done. cbn. split_and!; done.
  - destruct (cleanupOldestDay_candidate s Hne) as (d & Hd & Hname & E).
    rewrite E in *. destruct (Storage.removable d); cbn [fst snd] in *.
    + change (Storage.env (Storage.after_signal ?x ?y)) with (Storage.env y) in *.
      rewrite entryList_without_dir in *. cbn. split_and!; try done.
      * intros n Hn. by apply list_elem_of_filter in Hn as [_ ?].
      * apply length_filter_lt with (x := Storage.getOldestDateDir s); [|by intros []].
        destruct (getOldestDateDir_min s Hne) as [Hc _].
        by apply candidates_spec in Hc as [? _].
    + cbn. split_and!; done.
Qed.

Lemma outside_subseteq dir (fs : gset string) : outside dir fs ⊆ fs.
Proof. intros x Hx. unfold outside in Hx. by apply elem_of_filter in Hx as [_ ?]. Qed.

Lemma storage_check_narrows m :
  narrows m (with_manager (snd (Storage.checkStorageSpace (m_storageManager m))) m).
Proof.
  destruct (storage_check_keeps (m_storageManager m)) as (Hp & Ht & Htm & Hd & Hr & _).
  revert Hp Ht Htm Hd Hr.
  generalize (snd (Storage.checkStorageSpace (m_storageManager m))).
  intros s' Hp Ht Htm Hd Hr.
  split; cbn; try done.
  all: unfold root_entries, Storage.entryList; cbn; rewrite ?Hp, ?Hd; done.
Qed.

Lemma with_status_narrows low seconds text m : narrows m (with_status low seconds text m).
Proof. by split. Qed.

Lemma cleanupOldestDay_with_narrows check m :
  (forall m2, m_isRecording (page m) = true -> narrows m m2 ->
     (length (root_entries m2) < length (root_entries m))%nat ->
     exists r, check m2 = Some r /\ narrows m2 (snd r)) ->
  exists r, cleanupOldestDay_with check m = Some r /\ narrows m (snd r) /\
    (fst r = true -> (length (root_entries (snd r)) < length (root_entries m))%nat).
Proof.
  intros Hcheck. unfold cleanupOldestDay_with.
  destruct (storage_cleanup_cases (m_storageManager m))
    as (Hp & Ht & Htm & Hrep & _ & Hsub & Hdate & Hlen).
  destruct (Storage.cleanupOldestDay (m_storageManager m)) as [cleaned sm].
  cbn [fst snd] in *.
  assert (Hstep : narrows m (with_manager sm m)).
  { split; cbn; try done; unfold root_entries; cbn; rewrite ?Hp; try done.
    - intros n Hin Hout. by destruct (Hdate n Hin Hout).
    - destruct cleaned; [lia|]. unfold Storage.entryList. by rewrite Hlen. }
  destruct cleaned; [|eexists; split; [reflexivity|]; split; [done|done]].
  set (m2 := with_page _ (with_manager sm m)).
  assert (Hstep2 : narrows m m2).
  { apply (narrows_trans _ _ _ Hstep). split; cbn; try done. apply outside_subseteq. }
  assert (Hlen2 : (length (root_entries m2) < length (root_entries m))%nat).
  { unfold root_entries. cbn. by rewrite Hp. }
  destruct (m_isRecording (page m2) && status_low_space m2) eqn:Ewired.
  - apply andb_true_iff in Ewired as [Erec _].
    rewrite (narrows_recording _ _ Hstep2) in Erec.
    destruct (Hcheck m2 Erec Hstep2 Hlen2) as ([enough m3] & -> & Hn3).
    cbn [mbind option_bind snd] in *. eexists. split; [reflexivity|]. cbn [fst snd].
    assert (Hn : narrows m (if enough then with_status false (m_recordingSeconds m3)
                              (recordTimeLabel_text m3) m3 else m3)).
    { apply (narrows_trans _ _ _ Hstep2). apply (narrows_trans _ _ _ Hn3).
      destruct enough; [apply with_status_narrows|apply narrows_refl]. }
    split; [done|]. intros _.
    pose proof (narrows_length _ _ Hn3) as Hl3.
    destruct enough; cbn; unfold root_entries in *; cbn in *; lia.
  - eexists. split; [reflexivity|]. by split.
Qed.

Lemma checkStorageSpace_narrows fuel : forall m,
  (length (root_entries m) < fuel)%nat ->
  exists r, checkStorageSpace fuel m = Some r /\ narrows m (snd r).
Proof.
  induction fuel as [|fuel IH]; intros m Hfuel; [lia|].
  cbn [checkStorageSpace].
  pose proof (storage_check_narrows m) as Hn1.
  destruct (Storage.checkStorageSpace (m_storageManager m)) as [enough sm].
  cbn [snd] in Hn1. destruct enough; [by eexists|].
  set (m1 := if m_isRecording (page (with_manager sm m)) then _ else _).
  assert (Hn2 : narrows m m1).
  { apply (narrows_trans _ _ _ Hn1). subst m1.
    destruct (m_isRecording _); [apply with_status_narrows|apply narrows_refl]. }
  destruct (cleanupOldestDay_with_narrows (checkStorageSpace fuel) m1) as (r & -> & Hn3 & _).
  { intros m2 _ Hn Hlen. apply IH. pose proof (narrows_length _ _ Hn2). lia. }
  cbn [mbind option_bind]. eexists. split; [reflexivity|].
  by apply (narrows_trans _ _ _ Hn2).
Qed.

Lemma checkStorageSpace_more_fuel fuel : forall m r,
  checkStorageSpace fuel m = Some r -> checkStorageSpace (S fuel) m = Some r.
Proof.
  induction fuel as [|fuel IH]; intros m r E; [done|].
  cbn [checkStorageSpace] in E. change (checkStorageSpace (S (S fuel)) m) with
    (let '(enough, sm) := Storage.checkStorageSpace (m_storageManager m) in
     let m := with_manager sm m in
     if enough then Some (true, m)
     else
       let m :=
         if m_isRecording (page m)
         then with_status true (m_recordingSeconds m) (recordTimeLabel_text m) m
         else m in
       r ← cleanupOldestDay_with (checkStorageSpace (S fuel)) m;
       Some (false, snd r)).
  destruct (Storage.checkStorageSpace (m_storageManager m)) as [enough sm].
  destruct enough; [done|]. cbv zeta in *.
  unfold cleanupOldestDay_with in *.
  destruct (Storage.cleanupOldestDay _) as [cleaned sm2].
  destruct cleaned; [|done].
  destruct (_ && _); [|done].
  destruct (checkStorageSpace fuel _) as [r2|] eqn:E2; [|done].
  by rewrite (IH _ _ E2).
Qed.

Lemma checkStorageSpace_fuel_le fuel fuel' m r :
  (fuel <= fuel')%nat ->
  checkStorageSpace fuel m = Some r -> checkStorageSpace fuel' m = Some r.
Proof.
  induction 1 as [|fuel' Hle IH]; [done|].
  intros E. by apply checkStorageSpace_more_fuel, IH.
Qed.

(** X13.  [checkStorageSpace] with the slots of the page connected always
    returns, however the volume answers: [lowStorageSpace] runs
    [onLowStorageSpace], which cleans up, [cleanupCompleted] runs
    [onCleanupCompleted], which checks again while a recording carries the
    low-space note, and each nested check comes after a directory has
    disappeared.  One more nested check than there are directories below the
    root is enough, and more change nothing.  Along the way only directories
    named like a date disappear, nothing appears, the path, the minimum and
    the timer of the manager and the recording state of the page are kept.
    When the page is not recording there is no nested check at all. *)
Theorem storage_check_cascade_terminates m :
  exists enough m',
    (forall fuel, (enough_fuel m <= fuel)%nat ->
       checkStorageSpace fuel m = Some (enough, m')) /\
    narrows m m' /\
    (m_isRecording (page m) = false -> checkStorageSpace 1 m = Some (enough, m')).
Proof.
  destruct (checkStorageSpace_narrows (enough_fuel m) m) as ([enough m'] & E & Hn).
  { unfold enough_fuel. lia. }
  exists enough, m'. split; [|split; [done|]].
  - intros fuel Hfuel. by apply (checkStorageSpace_fuel_le (enough_fuel m)).
  - intros Hrec. 
    assert (Hone : exists r, checkStorageSpace 1 m = Some r).
    { cbn [checkStorageSpace].
      destruct (Storage.checkStorageSpace (m_storageManager m)) as [e sm].
      destruct e; [by eexists|]. cbn [page with_manager]. rewrite Hrec.
      unfold cleanupOldestDay_with.
      destruct (Storage.cleanupOldestDay _) as [cleaned sm2].
      destruct cleaned; [|by eexists]. cbn. rewrite Hrec. cbn. by eexists. }
    destruct Hone as [r Hone].
    pose proof (checkStorageSpace_fuel_le 1 (enough_fuel m) m r
                  ltac:(unfold enough_fuel; lia) Hone) as E'.
    congruence.
Qed.

Lemma reads_low_check s :
  fst (Storage.checkStorageSpace s)
  = negb (reads_low (Storage.next_report s) (Storage.m_minFreeSpacePercent s)).
Proof.
  rewrite checkStorageSpace_unfold. cbv zeta. unfold reads_low.
  destruct (negb _ || negb _); [done|]. cbn [orb]. case_decide; [|done].
  by destruct (double_ltb _ _).
Qed.

Lemma always_low_narrows m m' : always_low m -> narrows m m' -> always_low m'.
Proof.
  intros Hlow Hn t. rewrite (narrows_report _ _ Hn), (narrows_path _ _ Hn),
    (narrows_threshold _ _ Hn). apply Hlow.
Qed.

Lemma always_low_check m :
  always_low m -> fst (Storage.checkStorageSpace (m_storageManager m)) = false.
Proof. intros Hlow. rewrite reads_low_check. unfold Storage.next_report. by rewrite Hlow. Qed.

Lemma cleanupOldestDay_idle fuel m :
  m_isRecording (page m) = false ->
  exists r, cleanupOldestDay fuel m = Some r /\ narrows m (snd r).
Proof.
  intros Hrec. destruct (cleanupOldestDay_with_narrows (checkStorageSpace fuel) m)
    as (r & E & Hn & _); [congruence|]. by exists r.
Qed.

Lemma checkStorageSpace_idle fuel m :
  m_isRecording (page m) = false ->
  exists m', checkStorageSpace (S fuel) m
             = Some (fst (Storage.checkStorageSpace (m_storageManager m)), m') /\
             narrows m m'.
Proof.
  intros Hrec. cbn [checkStorageSpace].
  pose proof (storage_check_narrows m) as Hn1.
  destruct (Storage.checkStorageSpace (m_storageManager m)) as [enough sm].
  cbn [fst snd] in *. destruct enough; [by eexists|].
  cbn [page with_manager]. rewrite Hrec.
  destruct (cleanupOldestDay_with_narrows (checkStorageSpace fuel) (with_manager sm m))
    as (r & -> & Hn2 & _); [cbn; congruence|].
  cbn [mbind option_bind]. eexists. split; [reflexivity|].
  by apply (narrows_trans _ _ _ Hn1).
Qed.

Lemma startRecording_low fuel now clock o removable m :
  always_low m -> m_isRecording (page m) = false ->
  exists m',
    startRecording (S fuel) now clock o removable m
    = Some (warn warning_storage_insufficient m') /\
    narrows m m'.
Proof.
  intros Hlow Hrec. unfold startRecording. rewrite Hrec.
  destruct (checkStorageSpace_idle fuel m Hrec) as (m1 & -> & Hn1).
  rewrite (always_low_check m Hlow). cbn [mbind option_bind].
  assert (Hrec1 : m_isRecording (page m1) = false)
    by (by rewrite (narrows_recording _ _ Hn1)).
  destruct (cleanupOldestDay_idle (S fuel) m1 Hrec1) as ([cleaned m2] & -> & Hn2).
  cbn [mbind option_bind snd] in *.
  pose proof (narrows_trans _ _ _ Hn1 Hn2) as Hn12.
  destruct cleaned; [|by exists m2].
  assert (Hrec2 : m_isRecording (page m2) = false)
    by (by rewrite (narrows_recording _ _ Hn12)).
  destruct (checkStorageSpace_idle fuel m2 Hrec2) as (m3 & -> & Hn3).
  rewrite (always_low_check m2 (always_low_narrows _ _ Hlow Hn12)).
  cbn [mbind option_bind]. exists m3. split; [done|].
  by apply (narrows_trans _ _ _ Hn12).
Qed.

(** X14.  On a volume that reads low whatever is removed,
    [MonitorPage::startRecording] on an idle page does not start: it shows
    the storage warning, leaves the page idle and the recorder untouched;
    what it has changed is the storage, where directories named like a date
    may have been removed. *)
Theorem startRecording_refused_when_low fuel now clock o removable m :
  always_low m -> m_isRecording (page m) = false ->
  exists m',
    startRecording (S fuel) now clock o removable m
    = Some (warn warning_storage_insufficient m') /\
    narrows m m'.
Proof. apply startRecording_low. Qed.

Lemma startRecording_refused_when_low_witness :
  exists m',
    startRecording 1 (at_time 10 30) 0 Recorder.InitOk true idle_monitor
    = Some (warn warning_storage_insufficient m') /\
    narrows idle_monitor m'.
Proof.
  apply (startRecording_refused_when_low 0 (at_time 10 30) 0 Recorder.InitOk true idle_monitor).
  - intros t. vm_compute. reflexivity.
  - reflexivity.
Defined.

End Cascade.

(** ** From the camera to the recorder *)

Section FrameDelivery.
Import Monitor MonitorRecording.

(** X15.  [MonitorPage::updateFrame] on an open, capturing camera that hands
    out a mapped buffer.  It runs past a buffer exactly when the frame has
    at least one pixel and the camera buffer holds fewer pixels than the
    frame, or the frame buffer of the page fewer than three bytes per pixel.
    Otherwise the frame buffer receives the RGB888 expansion of the frame,
    the page takes over the frame size of the camera, and exactly when the
    buffer could be handed back the frame time is updated and, while
    recording, the frame is pushed to the recorder with the size
    width x height x 3. *)
Theorem updateFrame_delivers_converted_frame index pixels qbuf_ok now dst a m :
  m_frameBuffer m = Some dst ->
  0 <= V4l2.v4l2_fd (Capture.cap (camera m)) ->
  V4l2.is_capturing (Capture.cap (camera m)) = true ->
  (index < V4l2.FRAMEBUFFER_COUNT)%nat ->
  V4l2.start <$> V4l2.buf_infos (Capture.cap (camera m)) !! index = Some (V4l2.Addr a) ->
  let w := V4l2.frm_width (Capture.cap (camera m)) in
  let h := V4l2.frm_height (Capture.cap (camera m)) in
  let n := wrap_int (w * h) in
  let frame := (take (Z.to_nat n) pixels ≫= V4l2.spec_pixel) ++ drop (3 * Z.to_nat n) dst in
  (updateFrame (Capture.DqBuffer index pixels) qbuf_ok now m = None <->
   0 < n /\ (Z.of_nat (length pixels) < n \/ Z.of_nat (length dst) < 3 * n)) /\
  (n <= Z.of_nat (length pixels) -> 3 * n <= Z.of_nat (length dst) ->
   exists m',
     updateFrame (Capture.DqBuffer index pixels) qbuf_ok now m = Some m' /\
     m_frameBuffer m' = Some frame /\
     m_frameWidth m' = w /\ m_frameHeight m' = h /\
     camera m' = Capture.issue (Capture.QBUF index) (Capture.issue Capture.DQBUF (camera m)) /\
     m_lastFrameTime m' = (if qbuf_ok then now else m_lastFrameTime m) /\
     m_videoRecorder (page m')
     = (if qbuf_ok && m_isRecording (page m)
        then (fun recorder =>
                snd (Recorder.addFrameToQueue (Some frame) (wrap_int (n * 3)) recorder))
             <$> m_videoRecorder (page m)
        else m_videoRecorder (page m))).
Proof.
  intros Hbuf Hfd Hcap Hindex Hstart. cbv zeta. split.
  - unfold updateFrame. rewrite Hbuf. unfold Capture.v4l2_get_frame.
    rewrite decide_False by lia. rewrite Hcap. cbn [negb].
    rewrite decide_False by lia. cbn [Capture.cap Capture.issue]. rewrite Hstart.
    match goal with |- context [V4l2.rgb565_to_rgb888 pixels dst ?k] =>
      assert (Hiff : V4l2.rgb565_to_rgb888 pixels dst k = None <->
                0 < k /\ (Z.of_nat (length pixels) < k \/ Z.of_nat (length dst) < 3 * k))
        by (unfold V4l2.rgb565_to_rgb888; rewrite rgb565_loop_undefined_iff; lia)
    end.
    rewrite <- Hiff.
    destruct (V4l2.rgb565_to_rgb888 pixels dst _) as [out|]; cbn; [|done].
    split; [|done]. case_decide; [|done].
    destruct (m_videoRecorder (page m)); [|done]. by destruct (m_isRecording (page m)).
  - intros Hsrc Hdst.
    pose proof (get_frame_ready index pixels qbuf_ok dst (m_frameWidth m)
                  (m_frameHeight m) a (camera m) Hfd Hcap Hindex Hstart Hsrc Hdst) as E.
    unfold updateFrame. rewrite Hbuf. rewrite E. cbn [mbind option_bind].
    cbn [Capture.ret Capture.data Capture.width Capture.height default].
    destruct qbuf_ok.
    + rewrite decide_True by done. cbn [andb].
      destruct (m_videoRecorder (page m)) as [recorder|] eqn:Erec; cbn [page with_camera];
        rewrite Erec.
      * destruct (m_isRecording (page m)) eqn:Eon;
          (eexists; split; [reflexivity|]; cbn; rewrite ?Erec; by split_and!).
      * destruct (m_isRecording (page m)) eqn:Eon;
          (eexists; split; [reflexivity|]; cbn; rewrite ?Erec; by split_and!).
    + rewrite decide_False by done. eexists. split; [reflexivity|]. by split_and!.
Qed.

Lemma updateFrame_delivers_converted_frame_witness :
  exists m',
    updateFrame (Capture.DqBuffer 1 [0xF800; 0x001F; 0xFFFF]) true 5 viewing_monitor
    = Some m' /\
    m_frameBuffer m' = Some [255; 0; 0; 0; 0; 255; 9] /\
    m_frameWidth m' = 2 /\ m_frameHeight m' = 1.
Proof.
  destruct (updateFrame_delivers_converted_frame 1 [0xF800; 0x001F; 0xFFFF] true 5
              [9; 9; 9; 9; 9; 9; 9] 0x76000000 viewing_monitor) as [_ H].
  - reflexivity.
  - cbn. lia.
  - reflexivity.
  - unfold V4l2.FRAMEBUFFER_COUNT. lia.
  - reflexivity.
  - destruct H as (m' & E & Hb & Hw & Hh & _).
    + vm_compute. discriminate.
    + vm_compute. discriminate.
    + exists m'. split; [exact E|]. split; [rewrite Hb; reflexivity|]. split; done.
Defined.

End FrameDelivery.

(** ** The directory of the day *)

Section RecordingDay.
Import Monitor MonitorRecording.

Lemma is_digit_digit n : Storage.is_digit (digit n) = true.
Proof.
  unfold Storage.is_digit, digit. apply bool_decide_eq_true.
  rewrite nat_ascii_embedding.
  - pose proof (Nat.mod_upper_bound n 10 ltac:(lia)). lia.
  - pose proof (Nat.mod_upper_bound n 10 ltac:(lia)). lia.
Qed.

Lemma toString_yyyyMMdd_is_date_name t :
  Storage.is_date_name (toString_yyyyMMdd t) = true.
Proof.
  unfold Storage.is_date_name, toString_yyyyMMdd, four_digits, two_digits.
  repeat match goal with
         | |- context [digit ?k] =>
             let H := fresh "Hdigit" in
             pose proof (is_digit_digit k) as H; revert H;
             generalize (digit k); intros ? H
         end.
  cbv -[Storage.is_digit].
  repeat match goal with H : Storage.is_digit _ = true |- _ => rewrite H; clear H end.
  done.
Qed.

(** X16.  The directory of a day, named [toString("yyyyMMdd")], matches the
    pattern of eight digits by which [getOldestDateDir] selects what to
    clean up. *)
Theorem day_directory_matches_cleanup_pattern t :
  Z.of_nat (year t) < 10000 -> (month t < 100)%nat -> (day t < 100)%nat ->
  Storage.is_date_name (toString_yyyyMMdd t) = true /\
  String.length (toString_yyyyMMdd t) = 8%nat.
Proof.
  intros _ _ _. pose proof (toString_yyyyMMdd_is_date_name t) as H.
  split; [done|]. unfold Storage.is_date_name in H.
  apply andb_true_iff in H as [H _]. by apply bool_decide_eq_true in H.
Qed.

Lemma day_directory_matches_cleanup_pattern_witness :
  Storage.is_date_name (toString_yyyyMMdd (at_time 10 30)) = true.
Proof.
  apply (day_directory_matches_cleanup_pattern (at_time 10 30)); cbn; lia.
Defined.

Lemma prefix_append (s t : string) : String.prefix s (s +:+ t) = true.
Proof.
  induction s as [|c s IH]; simpl; [by destruct t|].
  rewrite IH. by destruct (Ascii.ascii_dec c c).
Qed.

Lemma append_assoc (s t u : string) : (s +:+ t) +:+ u = s +:+ t +:+ u.
Proof.
  induction s as [|c s IH]; [done|].
  change (String c ((s +:+ t) +:+ u) = String c (s +:+ t +:+ u)). by f_equal.
Qed.

Lemma oldest_is_today (s : Storage.manager) today :
  today ∈ Storage.candidates s ->
  (forall n, n ∈ Storage.candidates s -> String.le today n) ->
  Storage.getOldestDateDir s = today.
Proof.
  intros Hin Hmin.
  destruct (getOldestDateDir_min s) as [Ho Hle].
  { intros E. rewrite E in Hin. by apply elem_of_nil in Hin. }
  apply (anti_symm String.le); [by apply Hle|by apply Hmin].
Qed.

(** X17.  Cleaning up does not spare the recording in progress: when the
    directory of the day being recorded is the oldest date directory and the
    file system lets it go, [cleanupOldestDay] removes it together with the
    working file, and the page keeps recording into a file that no longer
    exists. *)
Theorem cleanup_removes_the_day_being_recorded fuel now m :
  let today := toString_yyyyMMdd now in
  let sm := m_storageManager m in
  Z.of_nat (year now) < 10000 -> (month now < 100)%nat -> (day now < 100)%nat ->
  m_isRecording (page m) = true ->
  m_currentVideoFile (page m) = working_file (Storage.m_storagePath sm) now ->
  today ∈ root_entries m ->
  (forall n, n ∈ Storage.candidates sm -> String.le today n) ->
  (forall d, d ∈ Storage.entries sm -> Storage.name d = today ->
             Storage.removable d = true) ->
  (length (root_entries m) <= fuel)%nat ->
  exists m',
    cleanupOldestDay fuel m = Some (true, m') /\
    m_isRecording (page m') = true /\
    m_currentVideoFile (page m') = m_currentVideoFile (page m) /\
    (m_currentVideoFile (page m') ∉ files (page m')) /\
    (today ∉ root_entries m').
Proof.
  cbv zeta. intros _ _ _ Hrec Hfile Htoday Hmin Hrem Hfuel.
  assert (Hcand : toString_yyyyMMdd now ∈ Storage.candidates (m_storageManager m)).
  { apply candidates_spec. split; [done|]. by rewrite toString_yyyyMMdd_is_date_name. }
  pose proof (oldest_is_today _ _ Hcand Hmin) as Hold.
  destruct (cleanupOldestDay_candidate (m_storageManager m)) as (d & Hd & Hname & E).
  { intros E. rewrite E in Hcand. by apply elem_of_nil in Hcand. }
  rewrite Hold in Hname, E. rewrite (Hrem d Hd Hname) in E.
  unfold cleanupOldestDay, cleanupOldestDay_with. rewrite E, Hold.
  set (sm2 := Storage.after_signal _ _).
  set (m2 := with_page _ (with_manager sm2 m)).
  assert (Hentries : root_entries m2
            = filter (fun n => n <> toString_yyyyMMdd now) (root_entries m)).
  { unfold root_entries at 2.
    rewrite <- (entryList_without_dir (toString_yyyyMMdd now) (m_storageManager m)).
    reflexivity. }
  assert (Hgone : toString_yyyyMMdd now ∉ root_entries m2).
  { rewrite Hentries. intros Hin.
    by apply list_elem_of_filter in Hin as [? _]. }
  assert (Hlen : (length (root_entries m2) < length (root_entries m))%nat).
  { rewrite Hentries.
    apply length_filter_lt with (x := toString_yyyyMMdd now); [done|by intros []]. }
  assert (Hfile2 : m_currentVideoFile (page m2) ∉ files (page m2)).
  { cbn. rewrite Hfile. unfold outside, working_file. intros Hin.
    apply elem_of_filter in Hin as [Hpre _].
    match type of Hpre with String.prefix ?d ?f = false =>
      assert (Heq : f = d +:+ ("record_" +:+ toString_HHmmss now +:+ ".mp4"))
        by (by rewrite !append_assoc)
    end.
    rewrite Heq, prefix_append in Hpre. done. }
  assert (Hrec2 : m_isRecording (page m2) = true) by done.
  rewrite Hrec2. cbn [andb].
  destruct (status_low_space m2); [|by exists m2].
  destruct (checkStorageSpace_narrows fuel m2) as ([enough m3] & -> & Hn); [lia|].
  cbn [mbind option_bind snd] in *.
  assert (Hfinal : forall m4, narrows m3 m4 ->
            m_isRecording (page m4) = true /\
            m_currentVideoFile (page m4) = m_currentVideoFile (page m) /\
            (m_currentVideoFile (page m4) ∉ files (page m4)) /\
            (toString_yyyyMMdd now ∉ root_entries m4)).
  { intros m4 Hn4. pose proof (narrows_trans _ _ _ Hn Hn4) as Hn24.
    rewrite (narrows_recording _ _ Hn24), (narrows_file _ _ Hn24). split_and!; try done.
    - intros Hin. apply Hfile2. by apply (narrows_files _ _ Hn24).
    - intros Hin. apply Hgone. by apply (narrows_entries _ _ Hn24). }
  eexists. split; [reflexivity|].
  destruct enough; apply Hfinal; [apply with_status_narrows|apply narrows_refl].
Qed.

Lemma cleanup_removes_the_day_being_recorded_witness :
  exists m',
    cleanupOldestDay 1 recording_monitor = Some (true, m') /\
    m_isRecording (page m') = true /\
    (m_currentVideoFile (page m') ∉ files (page m')).
Proof.
  assert (Hc : Storage.candidates (m_storageManager recording_monitor) = ["20230101"])
    by (vm_compute; reflexivity).
  destruct (cleanup_removes_the_day_being_recorded 1 (at_time 10 30) recording_monitor)
    as (m' & E & Hrec & _ & Hfile & _).
  - cbn. lia.
  - cbn. lia.
  - cbn. lia.
  - reflexivity.
  - vm_compute. reflexivity.
  - vm_compute. apply list_elem_of_singleton. reflexivity.
  - intros n Hn. rewrite Hc in Hn. apply list_elem_of_singleton in Hn. subst n.
    vm_compute. exact I.
  - intros d Hd _. vm_compute in Hd. apply list_elem_of_singleton in Hd. by subst d.
  - vm_compute. lia.
  - by exists m'.
Defined.

End RecordingDay.

(** ** Automatic checks, segment rollover and the time label *)

Section Segments.
Import Monitor MonitorRecording.

Lemma cleanupOldestDay_fuel_le fuel fuel' m r :
  (fuel <= fuel')%nat ->
  cleanupOldestDay fuel m = Some r -> cleanupOldestDay fuel' m = Some r.
Proof.
  intros Hle. unfold cleanupOldestDay, cleanupOldestDay_with.
  destruct (Storage.cleanupOldestDay _) as [cleaned sm].
  destruct cleaned; [|done]. destruct (_ && _); [|done].
  destruct (checkStorageSpace fuel _) as [r1|] eqn:E; [|done].
  by rewrite (checkStorageSpace_fuel_le fuel fuel' _ _ Hle E).
Qed.

Lemma performAutoCheck_fuel_le fuel fuel' m m' :
  (fuel <= fuel')%nat ->
  performAutoCheck fuel m = Some m' -> performAutoCheck fuel' m = Some m'.
Proof.
  intros Hle. unfold performAutoCheck.
  destruct (checkStorageSpace fuel m) as [[enough m1]|] eqn:E1; [|done].
  rewrite (checkStorageSpace_fuel_le fuel fuel' _ _ Hle E1). cbn [mbind option_bind].
  destruct enough; [done|].
  destruct (cleanupOldestDay fuel m1) as [[cleaned m2]|] eqn:E2; [|done].
  rewrite (cleanupOldestDay_fuel_le fuel fuel' _ _ Hle E2). cbn [mbind option_bind].
  destruct cleaned; [|done].
  destruct (checkStorageSpace fuel m2) as [r3|] eqn:E3; [|done].
  by rewrite (checkStorageSpace_fuel_le fuel fuel' _ _ Hle E3).
Qed.

(** X18.  [performAutoCheck], as the timer of the manager runs it with the
    slots of the page connected, always returns; only directories named
    like a date disappear and the settings of the manager and the recording
    state of the page are kept.  When the first reading is sufficient
    nothing happens beyond that reading. *)
Theorem performAutoCheck_with_slots_terminates m :
  exists m',
    (forall fuel, (enough_fuel m <= fuel)%nat -> performAutoCheck fuel m = Some m') /\
    narrows m m' /\
    (fst (Storage.checkStorageSpace (m_storageManager m)) = true ->
     m' = with_manager (snd (Storage.checkStorageSpace (m_storageManager m))) m).
Proof.
  assert (Hrun : exists m', performAutoCheck (enough_fuel m) m = Some m' /\ narrows m m' /\
            (fst (Storage.checkStorageSpace (m_storageManager m)) = true ->
             m' = with_manager (snd (Storage.checkStorageSpace (m_storageManager m))) m)).
  { unfold performAutoCheck.
    assert (Hfirst : fst (Storage.checkStorageSpace (m_storageManager m)) = true ->
              checkStorageSpace (enough_fuel m) m
              = Some (true, with_manager (snd (Storage.checkStorageSpace (m_storageManager m))) m)).
    { unfold enough_fuel. cbn [checkStorageSpace].
      destruct (Storage.checkStorageSpace (m_storageManager m)) as [e sm]. cbn. by intros ->. }
    destruct (checkStorageSpace_narrows (enough_fuel m) m) as ([enough m1] & E1 & Hn1);
      [unfold enough_fuel; lia|].
    rewrite E1. cbn [mbind option_bind snd] in *.
    destruct enough.
    { exists m1. split; [done|]. split; [done|]. intros He.
      rewrite (Hfirst He) in E1. congruence. }
    assert (Hnot : fst (Storage.checkStorageSpace (m_storageManager m)) <> true).
    { intros He. rewrite (Hfirst He) in E1. congruence. }
    pose proof (narrows_length _ _ Hn1) as Hl1.
    destruct (cleanupOldestDay_with_narrows (checkStorageSpace (enough_fuel m)) m1)
      as ([cleaned m2] & E2 & Hn2 & _).
    { intros m2 _ Hn Hlen. apply checkStorageSpace_narrows. unfold enough_fuel. lia. }
    unfold cleanupOldestDay. rewrite E2. cbn [mbind option_bind snd] in *.
    pose proof (narrows_trans _ _ _ Hn1 Hn2) as Hn12.
    destruct cleaned; [|by exists m2].
    pose proof (narrows_length _ _ Hn12) as Hl2.
    destruct (checkStorageSpace_narrows (enough_fuel m) m2) as (r3 & -> & Hn3);
      [unfold enough_fuel; lia|].
    exists (snd r3). split; [done|]. split; [|done].
    by apply (narrows_trans _ _ _ Hn12). }
  destruct Hrun as (m' & E & Hn & Hfirst). exists m'. split; [|done].
  intros fuel Hfuel. by apply (performAutoCheck_fuel_le (enough_fuel m)).
Qed.

Lemma page_stopRecording_off dir_absolutePath recordingEndTime os_ok p :
  m_isRecording p = true ->
  m_isRecording (Monitor.stopRecording dir_absolutePath recordingEndTime os_ok p) = false /\
  m_videoRecorder (Monitor.stopRecording dir_absolutePath recordingEndTime os_ok p)
  = Recorder.stopRecording <$> m_videoRecorder p.
Proof.
  intros Hrec. unfold Monitor.stopRecording. rewrite Hrec. cbn [negb].
  destruct (bool_decide _); [done|]. destruct (bool_decide _); [done|].
  by destruct (rename _ _ _ _).
Qed.

(** X19.  When a segment reaches its maximum length on a volume that reads
    low whatever is removed, [onRecordingTimeReached30Minutes] stops the
    running segment and does not start the next one: the page ends idle with
    the storage warning, its recorder stopped, and only directories named
    like a date may have been removed. *)
Theorem segment_rollover_stops_on_low_storage dir_absolutePath fuel now clock o
    removable os_ok m :
  always_low m -> m_isRecording (page m) = true ->
  exists m',
    onRecordingTimeReached30Minutes dir_absolutePath (S fuel) now clock o removable os_ok m
    = Some (warn warning_storage_insufficient m') /\
    m_isRecording (page m') = false /\
    m_videoRecorder (page m') = Recorder.stopRecording <$> m_videoRecorder (page m) /\
    (forall n, n ∈ root_entries m' -> n ∈ root_entries m) /\
    (forall n, n ∈ root_entries m -> n ∉ root_entries m' -> Storage.is_date_name n).
Proof.
  intros Hlow Hrec. unfold onRecordingTimeReached30Minutes. rewrite Hrec. cbn [negb].
  destruct (page_stopRecording_off dir_absolutePath now os_ok (page m) Hrec) as [Hoff Hrecorder].
  set (m1 := stopRecording dir_absolutePath now os_ok m).
  assert (Hm1 : m_storageManager m1 = m_storageManager m /\
                page m1 = Monitor.stopRecording dir_absolutePath now os_ok (page m)).
  { subst m1. unfold stopRecording. by rewrite Hrec. }
  destruct Hm1 as [Hsm Hpage].
  assert (Hlow1 : always_low m1) by (intros t; rewrite Hsm; apply Hlow).
  destruct (startRecording_low fuel now clock o removable m1 Hlow1) as (m' & E & Hn).
  { by rewrite Hpage. }
  exists m'. split; [done|].
  rewrite (narrows_recording _ _ Hn), (narrows_recorder _ _ Hn), Hpage.
  split; [done|]. split; [done|].
  assert (Hroot : root_entries m1 = root_entries m) by (unfold root_entries; by rewrite Hsm).
  rewrite <- Hroot. split; [apply Hn|apply Hn].
Qed.

Lemma segment_rollover_stops_on_low_storage_witness :
  exists m',
    onRecordingTimeReached30Minutes dir_of 1 (at_time 11 0) 0 Recorder.InitOk true true
      recording_monitor
    = Some (warn warning_storage_insufficient m') /\
    m_isRecording (page m') = false.
Proof.
  destruct (segment_rollover_stops_on_low_storage dir_of 0 (at_time 11 0) 0 Recorder.InitOk
              true true recording_monitor) as (m' & E & Hoff & _).
  - intros t. vm_compute. reflexivity.
  - reflexivity.
  - exists m'. split; [exact E|exact Hoff].
Defined.

Lemma arg_2_10_0_two_digits n :
  0 <= n < 100 -> arg_2_10_0 n = two_digits (Z.to_nat n).
Proof.
  revert n.
  apply (@below_by_cases (fun n => arg_2_10_0 n = two_digits (Z.to_nat n))
           (fun n => String.eq_dec _ _) 100).
  apply (bool_decide_unpack _). vm_compute. exact I.
Qed.

Lemma minutes_of_seconds s : 0 <= s -> Z.quot (Z.rem s 3600) 60 = (s / 60) mod 60.
Proof.
  intros Hs. rewrite Z.rem_mod_nonneg by lia.
  assert (0 <= s mod 3600) by (apply Z.mod_pos_bound; lia).
  rewrite Z.quot_div_nonneg by lia.
  change 3600 with (60 * 60). rewrite Z.rem_mul_r by lia.
  rewrite Z.add_comm, Z.mul_comm, Z.div_add_l by lia.
  rewrite (Z.div_small (s mod 60)); [lia|]. apply Z.mod_pos_bound. lia.
Qed.

(** X20.  While recording, each tick of the record timer adds one second
    and shows the elapsed time as hours, minutes and seconds on two digits
    each, separated by colons, up to 99:59:59; the low-space note and the
    rest of the page are left alone. *)
Theorem updateRecordingStatus_shows_elapsed_time m :
  m_isRecording (page m) = true ->
  0 <= m_recordingSeconds m < 359999 ->
  let s := m_recordingSeconds m + 1 in
  let m' := updateRecordingStatus m in
  m_recordingSeconds m' = s /\
  recordTimeLabel_text m'
  = two_digits (Z.to_nat (s / 3600)) +:+ ":" +:+
    two_digits (Z.to_nat ((s / 60) mod 60)) +:+ ":" +:+
    two_digits (Z.to_nat (s mod 60)) /\
  String.length (recordTimeLabel_text m') = 8%nat /\
  status_low_space m' = status_low_space m /\
  page m' = page m.
Proof.
  intros Hrec Hs. cbv zeta. unfold updateRecordingStatus. rewrite Hrec.
  rewrite wrap_int_small by lia. cbn [m_recordingSeconds recordTimeLabel_text
    status_low_space page with_status].
  rewrite minutes_of_seconds by lia.
  rewrite Z.quot_div_nonneg, Z.rem_mod_nonneg by lia.
  assert (H1 : 0 <= (m_recordingSeconds m + 1) / 3600 < 100).
  { split; [apply Z.div_pos; lia|apply Z.div_lt_upper_bound; lia]. }
  assert (H2 : 0 <= ((m_recordingSeconds m + 1) / 60) mod 60 < 100).
  { pose proof (Z.mod_pos_bound ((m_recordingSeconds m + 1) / 60) 60). lia. }
  assert (H3 : 0 <= (m_recordingSeconds m + 1) mod 60 < 100).
  { pose proof (Z.mod_pos_bound (m_recordingSeconds m + 1) 60). lia. }
  rewrite !arg_2_10_0_two_digits by done.
  split_and!; done.
Qed.

Lemma updateRecordingStatus_shows_elapsed_time_witness :
  recordTimeLabel_text
    (updateRecordingStatus
       (with_status false 3725 "01:02:05" recording_monitor)) = "01:02:06".
Proof.
  pose proof (updateRecordingStatus_shows_elapsed_time
                (with_status false 3725 "01:02:05" recording_monitor) eq_refl) as H.
  destruct H as (_ & H & _); [cbn; lia|]. rewrite H. reflexivity.
Defined.

End Segments.

(** ** The files of a recording session *)

Section SessionFiles.
Import Monitor MonitorRecording.

Lemma parent_dir_no_slash s : no_slash s -> parent_dir s = None.
Proof.
  unfold no_slash. induction s as [|c s IH]; [done|].
  cbn [String.list_ascii_of_string]. intros H. apply Forall_cons in H as [Hc Hs].
  cbn [parent_dir]. rewrite (IH Hs). by rewrite bool_decide_eq_false_2.
Qed.

Lemma parent_dir_append d n :
  no_slash n -> parent_dir (d +:+ "/" +:+ n) = Some d.
Proof.
  intros Hn. induction d as [|c d IH].
  - change ("" +:+ "/" +:+ n) with (String "/" n). cbn [parent_dir].
    by rewrite (parent_dir_no_slash n Hn).
  - change (String c d +:+ "/" +:+ n) with (String c (d +:+ "/" +:+ n)).
    cbn [parent_dir]. by rewrite IH.
Qed.

Lemma digit_not_slash n : digit n <> "/"%char.
Proof.
  intros E. pose proof (is_digit_digit n) as H. rewrite E in H. done.
Qed.

Lemma working_name_no_slash t : no_slash ("record_" +:+ toString_HHmmss t +:+ ".mp4").
Proof.
  unfold no_slash, toString_HHmmss, two_digits.
  repeat match goal with
         | |- context [digit ?k] =>
             let H := fresh "Hdigit" in
             pose proof (digit_not_slash k) as H; revert H;
             generalize (digit k); intros ? H
         end.
  cbv -[not].
  repeat (apply Forall_cons; split; [done|]). apply Forall_nil_2.
Qed.

Lemma append_inj_l (p a b : string) : p +:+ a = p +:+ b -> a = b.
Proof.
  induction p as [|c p IH]; [done|].
  change (String c (p +:+ a) = String c (p +:+ b) -> a = b). intros [= E]. by apply IH.
Qed.

Lemma dir_of_working_file path t :
  dir_of (working_file path t) = path +:+ "/" +:+ toString_yyyyMMdd t.
Proof.
  unfold dir_of, working_file.
  replace (path +:+ "/" +:+ toString_yyyyMMdd t +:+ "/" +:+ "record_" +:+
           toString_HHmmss t +:+ ".mp4")
    with ((path +:+ "/" +:+ toString_yyyyMMdd t) +:+ "/" +:+
          ("record_" +:+ toString_HHmmss t +:+ ".mp4"))
    by (by rewrite !append_assoc).
  by rewrite parent_dir_append by apply working_name_no_slash.
Qed.

Lemma append_String c (s x : string) : String c s +:+ x = String c (s +:+ x).
Proof. reflexivity. Qed.

Lemma working_file_is_not_final path t startStr endStr :
  working_file path t
  <> (path +:+ "/" +:+ toString_yyyyMMdd t) +:+ "/" +:+
     newVideoFileName (toString_HHmm startStr) endStr.
Proof.
  unfold working_file. rewrite !append_assoc. intros E.
  do 4 apply append_inj_l in E. revert E.
  unfold newVideoFileName, toString_HHmm, two_digits.
  pose proof (is_digit_digit (hour startStr / 10)) as Hc. revert Hc.
  generalize (digit (hour startStr / 10)). intros c Hc.
  change ("record_" +:+ toString_HHmmss t +:+ ".mp4")
    with (String "r" ("ecord_" +:+ toString_HHmmss t +:+ ".mp4")).
  intros E. rewrite !append_assoc, !append_String in E.
  apply (f_equal (fun s => match s with
                           | String a _ => Storage.is_digit a
                           | EmptyString => false
                           end)) in E.
  rewrite Hc in E. done.
Qed.

Lemma append_nonempty (s : string) c t : s +:+ String c t <> "".
Proof. by destruct s. Qed.

Lemma working_file_nonempty path t : working_file path t <> "".
Proof. unfold working_file. exact (append_nonempty path "/" _). Qed.

(** X21.  A recording started on an idle page with sufficient storage and
    stopped again: the segment is written to
    [<root>/<yyyyMMdd>/record_<HHmmss>.mp4] and, when no file of the final
    name exists, ends up as [<root>/<yyyyMMdd>/<HH:mm>-<HH:mm>.mp4] with the
    start and end times; the working name is gone and every other file is
    still there. *)
Theorem recording_session_names_its_file fuel start clock removable finish m recorder :
  m_isRecording (page m) = false ->
  m_videoRecorder (page m) = Some recorder ->
  Recorder.m_isRecording recorder = false ->
  fst (Storage.checkStorageSpace (m_storageManager m)) = true ->
  let working := working_file (m_recordingPath m) start in
  let final := (m_recordingPath m +:+ "/" +:+ toString_yyyyMMdd start) +:+ "/" +:+
               newVideoFileName (toString_HHmm start) (toString_HHmm finish) in
  final ∉ files (page m) ->
  exists m1,
    startRecording (S fuel) start clock Recorder.InitOk removable m = Some m1 /\
    m_isRecording (page m1) = true /\
    m_currentVideoFile (page m1) = working /\
    working ∈ files (page m1) /\
    m_recordingSeconds m1 = 0 /\
    warned m1 = warned m /\
    let m2 := stopRecording dir_of finish true m1 in
    m_isRecording (page m2) = false /\
    m_currentVideoFile (page m2) = final /\
    final ∈ files (page m2) /\
    (working ∉ files (page m2)) /\
    (forall f, f ∈ files (page m) -> f <> working -> f ∈ files (page m2)).
Proof.
  intros Hidle Hrecorder Hoff Henough. cbv zeta. intros Hfree.
  unfold startRecording. rewrite Hidle. cbn [checkStorageSpace].
  destruct (Storage.checkStorageSpace (m_storageManager m)) as [enough sm].
  cbn [fst] in Henough. subst enough. cbn [mbind option_bind].
  unfold begin_recording. cbn [page with_manager m_recordingPath m_frameWidth m_frameHeight].
  rewrite Hrecorder. cbn [mbind option_bind].
  destruct (startRecording_ok (working_file (m_recordingPath m) start)
              (m_frameWidth m) (m_frameHeight m) clock recorder Hoff)
    as (recorder' & -> & Hon & _).
  rewrite Hoff. cbn [negb andb file_created].
  eexists. split; [reflexivity|].
  cbn [page with_status with_page m_isRecording m_currentVideoFile files
       m_recordingSeconds warned with_manager].
  split; [done|]. split; [done|]. split; [apply elem_of_union_l, elem_of_singleton; done|].
  split; [done|]. split; [done|].
  unfold stopRecording. cbn [page with_status with_page m_isRecording].
  unfold Monitor.stopRecording.
  cbn [m_isRecording negb m_currentVideoFile m_recordingStartTime files m_videoRecorder].
  rewrite bool_decide_eq_false_2 by apply working_file_nonempty.
  rewrite dir_of_working_file.
  set (working := working_file (m_recordingPath m) start).
  set (final := (m_recordingPath m +:+ "/" +:+ toString_yyyyMMdd start) +:+ "/" +:+
                newVideoFileName (toString_HHmm start) (toString_HHmm finish)).
  assert (Hne : working <> final) by apply working_file_is_not_final.
  rewrite bool_decide_eq_false_2.
  2:{ intros Hin. apply elem_of_union in Hin as [Hin|Hin]; [|done].
      apply elem_of_singleton in Hin. done. }
  unfold rename. rewrite bool_decide_eq_true_2 by (apply elem_of_union_l, elem_of_singleton; done).
  rewrite bool_decide_eq_false_2.
  2:{ intros Hin. apply elem_of_union in Hin as [Hin|Hin]; [|done].
      apply elem_of_singleton in Hin. done. }
  cbn [negb andb page with_page with_status m_isRecording m_currentVideoFile files].
  split; [done|]. split; [done|]. split; [apply elem_of_union_l, elem_of_singleton; done|].
  split.
  - intros Hin. apply elem_of_union in Hin as [Hin|Hin].
    + apply elem_of_singleton in Hin. done.
    + apply elem_of_difference in Hin as [_ Hin]. apply Hin. by apply elem_of_singleton.
  - intros f Hf Hfw. apply elem_of_union_r, elem_of_difference. split.
    + by apply elem_of_union_r.
    + intros Hin. by apply elem_of_singleton in Hin.
Qed.

Lemma recording_session_names_its_file_witness :
  exists m1,
    startRecording 1 (at_time 10 30) 0 Recorder.InitOk true
      (with_manager
         (snd (Storage.setMinFreeSpacePercent 3 Storage.example_manager)) idle_monitor)
    = Some m1 /\
    m_currentVideoFile (page m1) = "/mnt/TFcard/20230101/record_103000.mp4" /\
    m_currentVideoFile (page (stopRecording dir_of (at_time 11 0) true m1))
    = "/mnt/TFcard/20230101/10:30-11:00.mp4".
Proof.
  destruct (recording_session_names_its_file 0 (at_time 10 30) 0 true (at_time 11 0)
              (with_manager
                 (snd (Storage.setMinFreeSpacePercent 3 Storage.example_manager)) idle_monitor)
              (Recorder.create 0))
    as (m1 & E & _ & Hw & _ & _ & _ & _ & Hf & _).
  - reflexivity.
  - reflexivity.
  - reflexivity.
  - vm_compute. reflexivity.
  - cbn. apply not_elem_of_empty.
  - exists m1. split; [exact E|]. split; [rewrite Hw; reflexivity|]. rewrite Hf. reflexivity.
Defined.

End SessionFiles.

(** ** The storage manager on its own *)

Section ManagerAlone.
Import Storage.
Local Open Scope storage_scope.

Lemma wrap_qint64_small z : - 2 ^ 63 <= z < 2 ^ 63 -> wrap_qint64 z = z.
Proof. intros H. unfold wrap_qint64. rewrite Z.mod_small; lia. Qed.

Lemma getDirSize_fold (sizes : list Z) : forall acc,
  Forall (fun z => 0 <= z) sizes -> 0 <= acc ->
  acc + foldr Z.add 0 sizes < 2 ^ 63 ->
  foldl (fun totalSize sz => wrap_qint64 (totalSize + sz)) acc sizes
  = acc + foldr Z.add 0 sizes.
Proof.
  induction sizes as [|z sizes IH]; intros acc Hpos Hacc Hsum; cbn [foldl foldr] in *.
  - lia.
  - apply Forall_cons in Hpos as [Hz Hpos].
    assert (Hrest : 0 <= foldr Z.add 0 sizes).
    { clear -Hpos. induction Hpos; cbn; lia. }
    rewrite wrap_qint64_small by lia. rewrite IH; [lia|done|lia|lia].
Qed.

(** X22.  [getDirSize] is the sum of the sizes of the files below the
    directory, as long as that sum fits a [qint64]. *)
Theorem getDirSize_is_the_sum d :
  Forall (fun z => 0 <= z) (file_sizes d) ->
  foldr Z.add 0 (file_sizes d) < 2 ^ 63 ->
  getDirSize d = foldr Z.add 0 (file_sizes d).
Proof.
  intros Hpos Hsum. unfold getDirSize. rewrite getDirSize_fold; [lia|done|lia|lia].
Qed.

Lemma getDirSize_is_the_sum_witness :
  getDirSize {| name := "20221231"; file_sizes := [7; 8; 9]; removable := true |} = 24.
Proof.
  apply (getDirSize_is_the_sum
           {| name := "20221231"; file_sizes := [7; 8; 9]; removable := true |}).
  - cbn. repeat (apply Forall_cons; split; [lia|]). apply Forall_nil_2.
  - cbn. lia.
Defined.

Lemma getOldestDateDir_ext s s' :
  m_storagePath s' = m_storagePath s -> dirs (env s') = dirs (env s) ->
  getOldestDateDir s' = getOldestDateDir s.
Proof. intros Hp Hd. unfold getOldestDateDir, entryList. by rewrite Hp, Hd. Qed.

(** X23.  One [performAutoCheck] of the manager on its own removes at most
    the oldest date directory and only after a low reading; it creates
    nothing, keeps path, minimum and timer, reads the volume once or twice,
    and does nothing but read when the first reading is sufficient. *)
Theorem performAutoCheck_removes_at_most_the_oldest s :
  let s' := snd (performAutoCheck s) in
  let before := entryList (env s) (m_storagePath s) in
  let after := entryList (env s') (m_storagePath s) in
  m_storagePath s' = m_storagePath s /\
  m_minFreeSpacePercent s' = m_minFreeSpacePercent s /\
  m_checkTimer s' = m_checkTimer s /\
  (forall n, n ∈ after -> n ∈ before) /\
  (forall n, n ∈ before -> n ∉ after ->
     n = getOldestDateDir s /\ is_date_name n /\ fst (checkStorageSpace s) = false) /\
  (fst (checkStorageSpace s) = true -> s' = snd (checkStorageSpace s)) /\
  (tick (env s) < tick (env s') <= tick (env s) + 2)%nat.
Proof.
  cbv zeta. unfold performAutoCheck, bind, ret.
  destruct (storage_check_keeps s) as (Hp1 & Ht1 & Htm1 & Hd1 & Hr1 & Htick1).
  destruct (checkStorageSpace s) as [enough s1]. cbn [fst snd] in *.
  destruct enough; cbn [negb fst snd].
  { unfold entryList. rewrite Hp1, Hd1, Htick1. split_and!; try done; lia. }
  destruct (storage_cleanup_cases s1) as (Hp2 & Ht2 & Htm2 & Hr2 & Htick2 & Hsub & Hdate & _).
  destruct (cleanupOldestDay s1) as [cleaned s2]. cbn [fst snd] in *.
  assert (Hbefore : entryList (env s1) (m_storagePath s1) = entryList (env s) (m_storagePath s)).
  { unfold entryList. by rewrite Hp1, Hd1. }
  rewrite Hbefore, Hp1 in Hsub, Hdate.
  rewrite (getOldestDateDir_ext s s1 Hp1 Hd1) in Hdate.
  destruct cleaned.
  - destruct (storage_check_keeps s2) as (Hp3 & Ht3 & Htm3 & Hd3 & Hr3 & Htick3).
    destruct (checkStorageSpace s2) as [again s3]. cbn [fst snd] in *.
    unfold entryList in *. rewrite Hd3.
    split_and!; try congruence; try done; try lia.
    intros n Hin Hout. by destruct (Hdate n Hin Hout).
  - cbn [snd]. split_and!; try congruence; try done; try lia.
    intros n Hin Hout. by destruct (Hdate n Hin Hout).
Qed.

(** X24.  [setStoragePath] keeps the threshold, the timer and the signals,
    and never removes anything: every directory that existed still exists
    and lists at least what it listed.  The new path exists afterwards
    exactly when it existed before or the path really changed and could be
    created, and a directory created by the call is empty.  Setting the path
    the manager already has changes nothing, also when that directory is
    missing; setting a path twice is the same as setting it once. *)
Theorem setStoragePath_never_removes path s :
  let s' := snd (setStoragePath path s) in
  m_storagePath s' = path /\
  m_minFreeSpacePercent s' = m_minFreeSpacePercent s /\
  m_checkTimer s' = m_checkTimer s /\
  emitted s' = emitted s /\
  (m_storagePath s = path -> s' = s) /\
  (forall p entries, dirs (env s) !! p = Some entries ->
     exists entries', dirs (env s') !! p = Some entries' /\ entries ⊆ entries') /\
  (is_Some (dirs (env s') !! path) <->
   is_Some (dirs (env s) !! path) \/
   (m_storagePath s <> path /\ can_mkpath (env s) path = true)) /\
  (dirs (env s) !! path = None -> is_Some (dirs (env s') !! path) ->
   dirs (env s') !! path = Some []) /\
  snd (setStoragePath path s') = s'.
Proof.
  cbv zeta. unfold setStoragePath. case_bool_decide as Hsame.
  - cbn [snd]. rewrite bool_decide_eq_true_2 by done. subst path.
    split_and!; try done.
    + intros p entries Hp. by exists entries.
    + split; [by left|]. intros [?|[? _]]; done.
    + intros -> []; done.
  - cbn [snd m_storagePath]. rewrite bool_decide_eq_true_2 by done. cbn.
    unfold ensure_dir. destruct (dirs (env s) !! path) as [l|] eqn:E.
    + split_and!; try done.
      * intros p entries Hp. by exists entries.
      * split; [by left|by eexists].
    + destruct (can_mkpath (env s) path) eqn:Emk; cbn.
      * split_and!; try done.
        -- intros p entries Hp. exists entries. split; [|done].
           rewrite lookup_insert_ne; [done|congruence].
        -- rewrite lookup_insert_eq. split; [by right|by eexists].
        -- by rewrite lookup_insert_eq.
      * split_and!; try done.
        -- intros p entries Hp. by exists entries.
        -- rewrite E. split; [by intros []|]. intros [[]|[_ ?]]; done.
        -- rewrite E. by intros _ [].
Qed.

End ManagerAlone.

(** ** Cleaning up twice, and a frame that cannot be encoded *)

Section CleanupTwice.
Import Capture.

(** X25.  [v4l2_cleanup] can be called at any time and any number of times:
    a second call changes nothing.  Afterwards the descriptor is -1, the
    stream is off and the frame size is 0 x 0; it maps nothing.  On a device
    that is already closed it unmaps nothing and issues no request, so
    buffers that are still mapped then stay mapped.  It issues
    [VIDIOC_STREAMOFF] exactly when the device is open and the stream
    runs. *)
Theorem v4l2_cleanup_is_idempotent st :
  let st' := v4l2_cleanup st in
  v4l2_cleanup st' = st' /\
  V4l2.v4l2_fd (cap st') = -1 /\
  V4l2.is_capturing (cap st') = false /\
  V4l2.frm_width (cap st') = 0 /\ V4l2.frm_height (cap st') = 0 /\
  (forall r, r ∈ V4l2.mapped (cap st') -> r ∈ V4l2.mapped (cap st)) /\
  (V4l2.v4l2_fd (cap st) < 0 ->
   V4l2.mapped (cap st') = V4l2.mapped (cap st) /\
   V4l2.buf_infos (cap st') = V4l2.buf_infos (cap st) /\
   issued st' = issued st) /\
  (STREAMOFF ∈ drop (length (issued st)) (issued st') <->
   0 <= V4l2.v4l2_fd (cap st) /\ V4l2.is_capturing (cap st) = true).
Proof.
  cbv zeta. split_and!.
  - unfold v4l2_cleanup at 1. unfold v4l2_stop_capture at 1 2.
    assert (Hfd : V4l2.v4l2_fd (cap (v4l2_cleanup st)) = -1) by done.
    rewrite Hfd. rewrite decide_True by lia.
    unfold V4l2.v4l2_cleanup at 1. rewrite Hfd. rewrite decide_False by lia.
    unfold v4l2_cleanup, V4l2.v4l2_cleanup, with_cap. cbn. done.
  - done.
  - done.
  - done.
  - done.
  - intros r Hr. by apply capture_cleanup_releases in Hr as [? _].
  - intros Hfd. unfold v4l2_cleanup, v4l2_stop_capture.
    rewrite decide_True by done. cbn [cap with_cap issued].
    unfold V4l2.v4l2_cleanup. rewrite decide_False by lia. done.
  - unfold v4l2_cleanup. cbn [issued with_cap].
    destruct (v4l2_stop_capture_keeps st) as (_ & _ & _ & _ & ->).
    rewrite drop_app_length. case_decide as Hfd.
    + destruct (V4l2.is_capturing (cap st)).
      * rewrite list_elem_of_singleton. split; [done|done].
      * rewrite elem_of_nil. split; [done|]. by intros [_ ?].
    + rewrite elem_of_nil. split; [done|]. intros [? _]. lia.
Qed.

End CleanupTwice.

Section EncodeFailure.
Import Recorder.

(** X26.  [processFrame] counts a frame before it is encoded: on a live
    recorder the frame counter, the statistics and the time of the last
    frame are updated and the frame is handed to the codec with the old
    counter as timestamp, whether or not encoding succeeds.  It returns true
    exactly when the encoder accepts the frame; otherwise exactly one
    [recordError] is emitted, the recorder keeps recording, and the next
    frame gets the next timestamp. *)
Theorem failed_encode_uses_up_a_timestamp now e fd payload st :
  m_isRecording st = true -> all_live st -> 0 < size fd ->
  heap st !! data fd = Some payload ->
  let ok := match e with EncodeOk => true | _ => false end in
  exists st',
    processFrame now e fd st = Some (ok, st') /\
    m_frameCount st' = wrap_int (m_frameCount st + 1) /\
    m_totalFrames st' = wrap_int (m_totalFrames st + 1) /\
    m_lastFrameTime st' = now /\
    submitted st' = submitted st ++ [(payload, m_frameCount st)] /\
    (if ok then emitted st' = emitted st
     else exists errorMsg, emitted st' = emitted st ++ [recordError errorMsg]) /\
    m_isRecording st' = true /\ all_live st' /\
    m_frameQueue st' = m_frameQueue st /\ heap st' = heap st.
Proof.
  intros Hrec (Hf & Hc & Hs & Hfr & Hp) Hsz Hh. cbv zeta.
  unfold processFrame. rewrite Hrec. cbn [negb orb].
  rewrite bool_decide_eq_false_2 by lia. rewrite Hh. cbn [mbind option_bind].
  rewrite Hs, Hfr. cbn [is_live andb].
  unfold encodeFrame, with_counters. cbn. rewrite Hf, Hc, Hp. cbn [is_live andb].
  destruct e; cbn; (eexists; split; [reflexivity|]); cbn;
    split_and!; try done; by eexists.
Qed.

Lemma failed_encode_uses_up_a_timestamp_witness :
  let st := snd (addFrameToQueue (Some [10; 20; 30]) 3 recording_state) in
  exists st',
    processFrame 125000 SendFailed {| data := fresh (dom (heap recording_state)); size := 3 |} st
    = Some (false, st') /\
    m_frameCount st' = 1.
Proof.
  cbv zeta.
  destruct (failed_encode_uses_up_a_timestamp 125000 SendFailed
              {| data := fresh (dom (heap recording_state)); size := 3 |} [10; 20; 30]
              (snd (addFrameToQueue (Some [10; 20; 30]) 3 recording_state)))
    as (st' & E & Hcount & _).
  - reflexivity.
  - by repeat split.
  - cbn. lia.
  - vm_compute. reflexivity.
  - exists st'. split; [exact E|]. rewrite Hcount. reflexivity.
Defined.

End EncodeFailure.
